(** * openwapi: connection lifecycle, message ingestion, webhook dispatch
    and API authentication, embedded from the JavaScript sources.

  Source files modelled here:
  - [src/api/state.js]     (class WhatsAppState)
  - [src/api/whatsapp.js]  (callWebhook, connection.update and
                            messages.upsert handlers)
  - [src/api/routes.js]    (timingSafeCompare, authenticateApiKey,
                            authenticateBasicAuth, POST /logout)
  - [src/database/index.js] (getApiKey, ensureApiKey, insertMessage,
                            getWebhook)

  JavaScript strings are modelled as [string]: one [ascii] per code unit,
  which covers every value an HTTP header can carry (header values reach
  the handlers as code units below 256); message texts and addresses are
  only tested for emptiness, suffixes and substrings, and copied.  [null]
  and [undefined] are both [None].  A handler runs to its end before the
  next one starts; what the outside decides during a run (how a download,
  a request or a logout ends, what the clock reads) is an argument of the
  handler. *)

From Stdlib Require Import String Ascii List ZArith NArith Bool Lia Arith.
From Stdlib Require Import DecimalString.
Import ListNotations.
Open Scope string_scope.

(* ===================================================================== *)
(** * JavaScript primitives used by the sources *)
(* ===================================================================== *)

Module Js.

(** Truthiness of a string-or-nullish value: [null], [undefined] and the
    empty string are falsy. *)
Definition truthy (v : option string) : bool :=
  match v with
  | Some s => negb (s =? "")
  | None => false
  end.

(** [a || b] on string-or-nullish values. *)
Definition or (a b : option string) : option string :=
  if truthy a then a else b.

(** [s.startsWith(p)] *)
Definition startsWith (p s : string) : bool := String.prefix p s.

(** [s.endsWith(suffix)] *)
Definition endsWith (suffix s : string) : bool :=
  let n := String.length s in
  let m := String.length suffix in
  (m <=? n)%nat && (substring (n - m) m s =? suffix).

(** [s.includes(pat)] *)
Fixpoint includes (pat s : string) : bool :=
  String.prefix pat s
  || match s with
     | EmptyString => false
     | String _ t => includes pat t
     end.

(** [s.split(sep)] for a one-character separator; never the empty list. *)
Fixpoint split (sep : ascii) (s : string) : list string :=
  match s with
  | EmptyString => [EmptyString]
  | String c t =>
      if Ascii.eqb c sep then EmptyString :: split sep t
      else match split sep t with
           | [] => [String c EmptyString]
           | h :: r => String c h :: r
           end
  end.

(** Array indexing [arr[i]]: [undefined] out of range. *)
Definition index (arr : list string) (i : nat) : option string :=
  nth_error arr i.

(** Decimal rendering of a row id inside a template literal. *)
Definition numberToString (n : nat) : string :=
  NilZero.string_of_uint (Nat.to_uint n).

(** A base64 decoder for examples: it agrees with
    [Buffer.from(x, 'base64').toString('utf-8')] on the base64 text of
    ASCII content. *)
Definition sextet (c : ascii) : option N :=
  let n := N_of_ascii c in
  if (65 <=? n)%N && (n <=? 90)%N then Some (n - 65)%N
  else if (97 <=? n)%N && (n <=? 122)%N then Some (n - 71)%N
  else if (48 <=? n)%N && (n <=? 57)%N then Some (n + 4)%N
  else if (n =? 43)%N then Some 62%N
  else if (n =? 47)%N then Some 63%N
  else None.

Fixpoint sextets (s : string) : list N :=
  match s with
  | EmptyString => []
  | String c t =>
      match sextet c with
      | Some v => v :: sextets t
      | None => if Ascii.eqb c "=" then [] else sextets t
      end
  end.

Fixpoint octets (l : list N) : list N :=
  match l with
  | a :: b :: c :: d :: r =>
      (a * 4 + b / 16)%N :: ((b mod 16) * 16 + c / 4)%N
        :: ((c mod 4) * 64 + d)%N :: octets r
  | [a; b; c] => [(a * 4 + b / 16)%N; ((b mod 16) * 16 + c / 4)%N]
  | [a; b] => [(a * 4 + b / 16)%N]
  | _ => []
  end.

Definition atob (s : string) : string :=
  string_of_list_ascii (map ascii_of_N (octets (sextets s))).

(** Whether every code unit of the string is below 128 (as in base64
    text). *)
Fixpoint isAscii (s : string) : bool :=
  match s with
  | EmptyString => true
  | String c t => (N_of_ascii c <? 128)%N && isAscii t
  end.

(** How a call ends: with a value, or with a thrown exception. *)
Inductive completion (A : Type) : Type :=
| Normal (a : A)
| Throws (e : string).
Arguments Normal {A} a.
Arguments Throws {A} e.

End Js.
Export Js(completion, Normal, Throws).

(* ===================================================================== *)
(** * src/database/index.js *)
(* ===================================================================== *)

Module Database.

(** Row of table [messages]. [id] is the AUTOINCREMENT key; [phone] and
    [message] are NOT NULL. *)
Record MessageRow := {
  id : nat;
  direction : string;
  phone : string;
  sender_name : option string;
  message : string;
  reply_status : string;
  media_type : option string;
  media_url : option string;
  created_at : string
}.

(** Row of table [api_keys]. *)
Record ApiKeyRow := {
  ak_id : nat;
  key : string;
  ak_created_at : Z
}.

(** Row of table [webhooks]. *)
Record WebhookRow := {
  wh_id : nat;
  url : string;
  event : string;
  active : Z
}.

(** The database: the three tables the modelled code touches, with the
    AUTOINCREMENT counters SQLite keeps for them. *)
Record t := {
  messages : list MessageRow;
  messages_seq : nat;
  api_keys : list ApiKeyRow;
  api_keys_seq : nat;
  webhooks : list WebhookRow
}.

Definition empty : t :=
  {| messages := []; messages_seq := 0;
     api_keys := []; api_keys_seq := 0;
     webhooks := [] |}.

(** [SELECT key FROM api_keys ORDER BY created_at DESC LIMIT 1]: a row
    with the greatest [created_at]; among equal timestamps the one met
    first in rowid order is kept. *)
Fixpoint latest (rows : list ApiKeyRow) : option ApiKeyRow :=
  match rows with
  | [] => None
  | r :: rest =>
      match latest rest with
      | None => Some r
      | Some r' =>
          if (ak_created_at r <? ak_created_at r')%Z then Some r' else Some r
      end
  end.

Definition getApiKey (db : t) : option ApiKeyRow := latest (api_keys db).

(** [INSERT INTO api_keys (key) VALUES (?)] with the default
    [created_at = CURRENT_TIMESTAMP]. *)
Definition insertApiKey (db : t) (k : string) (now : Z) : t :=
  let i := S (api_keys_seq db) in
  {| messages := messages db;
     messages_seq := messages_seq db;
     api_keys := api_keys db ++ [{| ak_id := i; key := k; ak_created_at := now |}];
     api_keys_seq := i;
     webhooks := webhooks db |}.

(** [ensureApiKey(db)]. [randomKey] is the base64 text of
    [crypto.randomBytes(32)] and [now] the clock, both consulted only
    when no key is stored. Returns the key and the database after the
    call. *)
Definition ensureApiKey (db : t) (randomKey : string) (now : Z) : string * t :=
  match getApiKey db with
  | Some existingKey => (key existingKey, db)
  | None => (randomKey, insertApiKey db randomKey now)
  end.

(** [insertMessage(db, direction, phone, message, status, mediaType,
    mediaUrl, senderName)] (the eight-parameter version used by the
    ingestion handler). [timestamp] is what [getISTTimestamp()] returned.
    Binding a nullish [phone] violates NOT NULL and the statement throws.
    On success the result is [lastInsertRowid] and the new database. *)
Definition insertMessage (db : t) (direction_ : string) (phone_ : option string)
    (message_ status : string) (mediaType mediaUrl senderName : option string)
    (timestamp : string) : completion (nat * t) :=
  match phone_ with
  | None => Throws "SQLITE_CONSTRAINT_NOTNULL"
  | Some p =>
      let i := S (messages_seq db) in
      Normal (i,
        {| messages := messages db ++
             [{| id := i; direction := direction_; phone := p;
                 sender_name := senderName; message := message_;
                 reply_status := status; media_type := mediaType;
                 media_url := mediaUrl; created_at := timestamp |}];
           messages_seq := i;
           api_keys := api_keys db;
           api_keys_seq := api_keys_seq db;
           webhooks := webhooks db |})
  end.

(** [UPDATE messages SET media_url = ? WHERE id = ?] *)
Definition updateMediaUrl (db : t) (mediaUrl : option string) (i : nat) : t :=
  {| messages :=
       map (fun r =>
              if Nat.eqb (id r) i then
                {| id := id r; direction := direction r; phone := phone r;
                   sender_name := sender_name r; message := message r;
                   reply_status := reply_status r; media_type := media_type r;
                   media_url := mediaUrl; created_at := created_at r |}
              else r) (messages db);
     messages_seq := messages_seq db;
     api_keys := api_keys db;
     api_keys_seq := api_keys_seq db;
     webhooks := webhooks db |}.

(** The writes the modelled code issues against the database, each with
    what it reads from outside (random bytes, clock). *)
Inductive Write :=
| EnsureApiKey (randomKey : string) (now : Z)
| InsertMessage (direction_ : string) (phone_ : option string)
    (message_ status : string) (mediaType mediaUrl senderName : option string)
    (timestamp : string)
| UpdateMediaUrl (mediaUrl : option string) (i : nat).

(** One write carried out; a statement that throws leaves the database as
    it was. *)
Definition execute (db : t) (op : Write) : t :=
  match op with
  | EnsureApiKey randomKey now => snd (ensureApiKey db randomKey now)
  | InsertMessage d p m s mt mu sn ts =>
      match insertMessage db d p m s mt mu sn ts with
      | Normal r => snd r
      | Throws _ => db
      end
  | UpdateMediaUrl mediaUrl i => updateMediaUrl db mediaUrl i
  end.

Definition executeAll (db : t) (ops : list Write) : t :=
  fold_left execute ops db.

(** [SELECT * FROM webhooks WHERE event = ? AND active = 1 LIMIT 1] *)
Definition getWebhook (db : t) (event_ : string) : option WebhookRow :=
  find (fun w => (event w =? event_) && (active w =? 1)%Z) (webhooks db).

End Database.

(* ===================================================================== *)
(** * src/api/state.js *)
(* ===================================================================== *)

Module State.

(** The Baileys socket is an opaque capability; handles are told apart
    by a number. *)
Definition Sock := nat.

(** The only function ever stored in [reconnectFn]. *)
Inductive ReconnectFn := connectToWhatsAppFn.

(** [class WhatsAppState] *)
Record WhatsAppState := {
  sock : option Sock;
  qrCode : option string;
  connected : bool;
  phone : option string;
  reconnectFn : option ReconnectFn
}.

(** [constructor()] *)
Definition new : WhatsAppState :=
  {| sock := None; qrCode := None; connected := false;
     phone := None; reconnectFn := None |}.

Definition setSock (s : WhatsAppState) (v : option Sock) : WhatsAppState :=
  {| sock := v; qrCode := qrCode s; connected := connected s;
     phone := phone s; reconnectFn := reconnectFn s |}.

Definition setReconnectFn (s : WhatsAppState) (f : option ReconnectFn) : WhatsAppState :=
  {| sock := sock s; qrCode := qrCode s; connected := connected s;
     phone := phone s; reconnectFn := f |}.

Definition setQrCode (s : WhatsAppState) (qr : option string) : WhatsAppState :=
  {| sock := sock s; qrCode := qr; connected := connected s;
     phone := phone s; reconnectFn := reconnectFn s |}.

(** [setConnected(connected, phone = null)]: an [undefined] argument takes
    the default, so both nullish values are stored as [null]. *)
Definition setConnected (s : WhatsAppState) (c : bool) (p : option string) : WhatsAppState :=
  {| sock := sock s; qrCode := qrCode s; connected := c;
     phone := p; reconnectFn := reconnectFn s |}.

(** What the constructor leaves in the observable fields, whatever socket
    and reconnect function have been stored since. *)
Definition fresh (s : WhatsAppState) : Prop :=
  qrCode s = None /\ connected s = false /\ phone s = None.

(** [getStatus()] *)
Record StatusView := {
  sv_connected : bool;
  sv_phone : option string;
  hasQrCode : bool
}.

Definition getStatus (s : WhatsAppState) : StatusView :=
  {| sv_connected := connected s;
     sv_phone := phone s;
     hasQrCode := match qrCode s with Some _ => true | None => false end |}.

End State.

(* ===================================================================== *)
(** * The world the handlers run in *)
(* ===================================================================== *)

Module Runtime.

Definition Buffer := list N.

Inductive LogLevel := info | warn | error | debug.

(** The object posted to a webhook:
    [{event, message: {id, from, text, mediaType, mediaUrl, timestamp}}]. *)
Record WebhookPayload := {
  wp_event : string;
  wp_id : nat;
  wp_from : option string;
  wp_text : string;
  wp_mediaType : string;
  wp_mediaUrl : option string;
  wp_timestamp : string
}.

(** What the code does to the outside, in the order it does it. *)
Inductive Effect :=
| Logged (level : LogLevel) (msg : string)
| Fetch (method : string) (target : string) (body : WebhookPayload) (timeoutMs : Z)
| SockLogout (s : State.Sock)
| RmSession
| SetTimeout (fn : State.ReconnectFn) (delayMs : Z)
| DownloadMedia
| WriteFile (filename : string) (data : Buffer)
| CallWebhookDetached (target : string) (body : WebhookPayload)
| LoadAuthState.

(** The shared mutable objects: the [WhatsAppState] instance, the database,
    the session folder on disk, and the trace of effects so far. *)
Record World := {
  state : State.WhatsAppState;
  database : Database.t;
  sessionFolder : bool;
  trace : list Effect
}.

Definition initial : World :=
  {| state := State.new; database := Database.empty;
     sessionFolder := false; trace := [] |}.

(** Computations over the world that may throw. Changes made before a
    throw stay made. *)
Definition M (A : Type) : Type := World -> completion A * World.

Definition ret {A} (a : A) : M A := fun w => (Normal a, w).

Definition bind {A B} (c : M A) (k : A -> M B) : M B :=
  fun w =>
    match c w with
    | (Normal a, w') => k a w'
    | (Throws e, w') => (Throws e, w')
    end.

Definition throw {A} (e : string) : M A := fun w => (Throws e, w).

(** [try { body } catch (e) { handler }] *)
Definition try_catch {A} (body : M A) (handler : string -> M A) : M A :=
  fun w =>
    match body w with
    | (Normal a, w') => (Normal a, w')
    | (Throws e, w') => handler e w'
    end.

(** The completion of an external call decided by the environment. *)
Definition external {A} (r : completion A) : M A := fun w => (r, w).

Definition emit (e : Effect) : M unit :=
  fun w =>
    (Normal tt,
     {| state := state w; database := database w;
        sessionFolder := sessionFolder w; trace := trace w ++ [e] |}).

Definition log (level : LogLevel) (msg : string) : M unit := emit (Logged level msg).

Definition getState : M State.WhatsAppState := fun w => (Normal (state w), w).

Definition modifyState (f : State.WhatsAppState -> State.WhatsAppState) : M unit :=
  fun w =>
    (Normal tt,
     {| state := f (state w); database := database w;
        sessionFolder := sessionFolder w; trace := trace w |}).

Definition getDatabase : M Database.t := fun w => (Normal (database w), w).

Definition putDatabase (db : Database.t) : M unit :=
  fun w =>
    (Normal tt,
     {| state := state w; database := db;
        sessionFolder := sessionFolder w; trace := trace w |}).

(** [fs.existsSync(sessionPath)] *)
Definition existsSession : M bool := fun w => (Normal (sessionFolder w), w).

(** The session folder is gone. *)
Definition sessionRemoved : M unit :=
  fun w =>
    (Normal tt,
     {| state := state w; database := database w;
        sessionFolder := false; trace := trace w |}).

(** [fs.rmSync(sessionPath, { recursive: true, force: true })]: the
    removal is attempted, and [outcome] is how it ends. When it throws
    (a file in use, a permission refused) the folder is still on disk. *)
Definition rmSession (outcome : completion unit) : M unit :=
  bind (emit RmSession) (fun _ =>
  bind (external outcome) (fun _ => sessionRemoved)).

(** A computation that leaves the connection state alone, however it
    ends. *)
Definition keepsState {A} (c : M A) : Prop :=
  forall w, state (snd (c w)) = state w.

(** A computation that leaves the database alone, however it ends. *)
Definition keepsDatabase {A} (c : M A) : Prop :=
  forall w, database (snd (c w)) = database w.

(** A computation that always returns normally. *)
Definition total {A} (c : M A) : Prop :=
  forall w, exists a, fst (c w) = Normal a.

(** [for (const x of xs) body(x)] *)
Fixpoint forEach {A} (body : A -> M unit) (xs : list A) : M unit :=
  match xs with
  | [] => ret tt
  | x :: rest => bind (body x) (fun _ => forEach body rest)
  end.

End Runtime.

Declare Scope js_scope.
Delimit Scope js_scope with js.
Notation "x <- c ;; k" := (Runtime.bind c (fun x => k))
  (at level 61, c at next level, right associativity) : js_scope.
Notation "c ;; k" := (Runtime.bind c (fun _ => k))
  (at level 61, right associativity) : js_scope.
Open Scope js_scope.

(* ===================================================================== *)
(** * src/api/routes.js *)
(* ===================================================================== *)

Module Routes.
Import Runtime.

(** [Buffer.from(s)]: the UTF-8 bytes of a string of code units below 256. *)
Definition utf8 (c : ascii) : list N :=
  let n := N_of_ascii c in
  if (n <? 128)%N then [n] else [(192 + n / 64)%N; (128 + n mod 64)%N].

Fixpoint Buffer_from (s : string) : Buffer :=
  match s with
  | EmptyString => []
  | String c t => (utf8 c ++ Buffer_from t)%list
  end.

Fixpoint bytes_eqb (a b : Buffer) : bool :=
  match a, b with
  | [], [] => true
  | x :: a', y :: b' => (x =? y)%N && bytes_eqb a' b'
  | _, _ => false
  end.

(** [crypto.timingSafeEqual(a, b)]: throws a RangeError unless both buffers
    have the same byte length. *)
Definition timingSafeEqual (a b : Buffer) : completion bool :=
  if Nat.eqb (List.length a) (List.length b) then Normal (bytes_eqb a b)
  else Throws "ERR_CRYPTO_TIMING_SAFE_EQUAL_LENGTH".

(** [timingSafeCompare(a, b)] *)
Definition timingSafeCompare (a b : option string) : completion bool :=
  match a, b with
  | Some sa, Some sb =>
      if negb (Js.truthy a) || negb (Js.truthy b)
         || negb (Nat.eqb (String.length sa) (String.length sb))
      then Normal false
      else timingSafeEqual (Buffer_from sa) (Buffer_from sb)
  | _, _ => Normal false
  end.

(** The request fields the middlewares read. *)
Record Request := {
  x_api_key : option string;
  authorization : option string
}.

(** [res.status(code).json({ success, error | message })], with the headers
    set on the way. *)
Record Response := {
  statusCode : Z;
  headers : list (string * string);
  success : bool;
  text : string
}.

Definition json (code : Z) (ok : bool) (msg : string) : Response :=
  {| statusCode := code; headers := []; success := ok; text := msg |}.

Definition dquote : string := String (Ascii.ascii_of_nat 34) EmptyString.

Definition challenge (code : Z) (msg : string) : Response :=
  {| statusCode := code;
     headers := [("WWW-Authenticate", "Basic realm=" ++ dquote ++ "Dashboard" ++ dquote)];
     success := false; text := msg |}.

(** What a middleware does with a request: answers it itself, hands it on
    with [next()], or lets an exception escape. *)
Inductive Verdict :=
| Answered (r : Response)
| Next
| Escaped (e : string).

(** [authenticateApiKey(database)] *)
Definition authenticateApiKey (db : Database.t) (req : Request) : Verdict :=
  let apiKey := x_api_key req in
  if negb (Js.truthy apiKey) then Answered (json 401 false "API key required")
  else
    match Database.getApiKey db with
    | None => Answered (json 500 false "API key not configured")
    | Some storedKey =>
        match timingSafeCompare apiKey (Some (Database.key storedKey)) with
        | Throws e => Escaped e
        | Normal isValid =>
            if negb isValid then Answered (json 401 false "Invalid API key")
            else Next
        end
    end.

(** The configuration fields the dashboard scheme reads. They come from the
    environment and may be absent in a hand-built configuration object. *)
Record Config := {
  DASHBOARD_USER : option string;
  DASHBOARD_PASSWORD : option string
}.

Section BasicAuth.

(** [Buffer.from(x, 'base64').toString('utf-8')], provided by the platform. *)
Variable base64ToUtf8 : string -> string.

(** [authenticateBasicAuth(config)] *)
Definition authenticateBasicAuth (config : Config) (req : Request) : Verdict :=
  match authorization req with
  | None => Answered (challenge 401 "Authentication required")
  | Some authHeader =>
      if negb (Js.truthy (Some authHeader)) || negb (Js.startsWith "Basic " authHeader)
      then Answered (challenge 401 "Authentication required")
      else
        match Js.index (Js.split " " authHeader) 1 with
        | None => Escaped "TypeError"
        | Some base64Credentials =>
            let credentials := base64ToUtf8 base64Credentials in
            let parts := Js.split ":" credentials in
            let username := Js.index parts 0 in
            let password := Js.index parts 1 in
            match timingSafeCompare username (DASHBOARD_USER config) with
            | Throws e => Escaped e
            | Normal validUsername =>
                match timingSafeCompare password (DASHBOARD_PASSWORD config) with
                | Throws e => Escaped e
                | Normal validPassword =>
                    if negb validUsername || negb validPassword
                    then Answered (challenge 401 "Invalid credentials")
                    else Next
                end
            end
        end
  end.

End BasicAuth.

(** A request that is not handed on: answered with the given refusal, or
    ended by an exception (which Express turns into an error response). *)
Definition refused (r : Response) (v : Verdict) : Prop :=
  v = Answered r \/ exists e, v = Escaped e.

(** The handler of [POST /logout], after the middleware has called
    [next()]. [terminate] is how [sock.logout()] ends and [purge] how
    [fs.rmSync] ends when the session folder is there. *)
Definition logoutHandler (terminate purge : completion unit) : M Response :=
  st <- getState ;;
  match State.sock st with
  | None => ret (json 400 false "Not connected")
  | Some s =>
      try_catch
        (emit (SockLogout s) ;;
         external terminate ;;
         modifyState (fun st => State.setConnected st false None) ;;
         modifyState (fun st => State.setSock st None) ;;
         present <- existsSession ;;
         (if present : bool
          then rmSession purge ;; log info "Session folder deleted"
          else ret tt) ;;
         st' <- getState ;;
         match State.reconnectFn st' with
         | Some fn =>
             log info "Triggering reconnection for new QR code..." ;;
             emit (SetTimeout fn 3000)
         | None => ret tt
         end ;;
         log info "Logged out successfully" ;;
         ret (json 200 true "Logged out successfully. Reconnecting to generate new QR code..."))
        (fun _ =>
           log error "Logout error:" ;;
           ret (json 500 false "Logout failed"))
  end.

(** [router.post('/logout', authenticateApiKey(database), handler)] *)
Definition postLogout (req : Request) (terminate purge : completion unit) : M Response :=
  db <- getDatabase ;;
  match authenticateApiKey db req with
  | Answered r => ret r
  | Escaped e => throw e
  | Next => logoutHandler terminate purge
  end.

End Routes.

(* ===================================================================== *)
(** * src/api/whatsapp.js *)
(* ===================================================================== *)

Module WhatsApp.
Import Runtime.

(** [response.ok] of the Fetch API: the status is in the range 200-299. *)
Definition response_ok (status : Z) : bool :=
  (200 <=? status)%Z && (status <=? 299)%Z.

(** [await fetch(url, { method: 'POST', ..., signal: AbortSignal.timeout(ms) })]:
    the request goes out, then the environment decides how it ends, with a
    response status or with a rejection (timeout, connection failure). *)
Definition fetch (target : string) (body : WebhookPayload) (timeoutMs : Z)
    (outcome : completion Z) : M Z :=
  emit (Fetch "POST" target body timeoutMs) ;;
  external outcome.

(** [callWebhook(url, data, logger)]; the logger's methods return
    normally. *)
Definition callWebhook (outcome : completion Z) (target : string)
    (data : WebhookPayload) : M unit :=
  try_catch
    (response <- fetch target data 5000 outcome ;;
     if negb (response_ok response)
     then log warn "Webhook call failed"
     else log info "Webhook called successfully")
    (fun _ => log error "Webhook error").

(** ** connection.update *)

Inductive Connection := close | open | connecting.

(** The fields the handler destructures from an update;
    [statusCode] stands for [lastDisconnect?.error?.output?.statusCode]. *)
Record ConnectionUpdate := {
  connection : option Connection;
  statusCode : option Z;
  qr : option string
}.

(** [DisconnectReason.loggedOut] of the Baileys library. *)
Definition loggedOut : Z := 401.

(** What the handler reads from outside while it runs: how
    [QRCode.toDataURL(qr)] ends, and [sock.user?.id] of the socket the
    handler was registered on. *)
Record UpdateEnv := {
  toDataURL : completion string;
  user_id : option string
}.

(** [connectToWhatsApp()]: reload the auth state, make a socket, store it. *)
Definition connectToWhatsApp (s : State.Sock) : M unit :=
  emit LoadAuthState ;;
  modifyState (fun st => State.setSock st (Some s)).

(** [sock.ev.on('connection.update', async (update) => ...)] *)
Definition onConnectionUpdate (env : UpdateEnv) (update : ConnectionUpdate) : M unit :=
  (if Js.truthy (qr update) then
     try_catch
       (qrDataUrl <- external (toDataURL env) ;;
        modifyState (fun st => State.setQrCode st (Some qrDataUrl)) ;;
        log info "QR code generated")
       (fun _ => log error "Failed to generate QR code:")
   else ret tt) ;;
  match connection update with
  | Some close =>
      let shouldReconnect :=
        negb (match statusCode update with
              | Some c => (c =? loggedOut)%Z
              | None => false
              end) in
      log info "Connection closed" ;;
      modifyState (fun st => State.setConnected st false None) ;;
      if shouldReconnect then
        log info "Reconnecting in 5 seconds..." ;;
        emit (SetTimeout State.connectToWhatsAppFn 5000)
      else
        log info "Logged out. QR scan required." ;;
        modifyState (fun st => State.setQrCode st None) ;;
        emit (SetTimeout State.connectToWhatsAppFn 2000)
  | Some open =>
      log info "WhatsApp connected" ;;
      let phone := option_map (fun i => hd EmptyString (Js.split ":" i)) (user_id env) in
      modifyState (fun st => State.setConnected st true phone) ;;
      modifyState (fun st => State.setQrCode st None) ;;
      log info "Connected phone:"
  | _ => ret tt
  end.

(** [initializeWhatsApp]: a fresh state object, the reconnect function
    stored in it, then the first connection. *)
Definition initializeWhatsApp (s : State.Sock) : M unit :=
  modifyState (fun _ => State.new) ;;
  modifyState (fun st => State.setReconnectFn st (Some State.connectToWhatsAppFn)) ;;
  connectToWhatsApp s.

(** ** messages.upsert *)

Record MessageKey := {
  remoteJid : option string;
  participant : option string;
  fromMe : bool
}.

Record ExtendedTextMessage := { etm_text : option string }.

Record ImageMessage := { caption : option string }.

(** [msg.message]: every payload field is optional. *)
Record MessageContent := {
  conversation : option string;
  extendedTextMessage : option ExtendedTextMessage;
  imageMessage : option ImageMessage
}.

Record WAMessage := {
  key : MessageKey;
  message : option MessageContent;
  pushName : option string
}.

(** What the handler reads from outside for one message: how
    [downloadMediaMessage] and [fs.writeFileSync] end, and the two clock
    readings ([getISTTimestamp()], [new Date().toISOString()]). *)
Record MessageEnv := {
  download : completion Buffer;
  writeFile : completion unit;
  istTimestamp : string;
  isoTimestamp : string
}.

(** [from && from.endsWith('@lid')] *)
Definition isLid (from : option string) : bool :=
  match from with
  | Some f => Js.truthy from && Js.endsWith "@lid" f
  | None => false
  end.

(** [msg.key.participant && msg.key.participant.includes('@s.whatsapp.net')] *)
Definition hasRealNumber (p : option string) : bool :=
  match p with
  | Some q => Js.truthy p && Js.includes "@s.whatsapp.net" q
  | None => false
  end.

(** The value of [from] after the LID check. *)
Definition resolveFrom (k : MessageKey) : option string :=
  let from := remoteJid k in
  if isLid from then
    if hasRealNumber (participant k) then participant k else from
  else from.

(** [conversation || extendedTextMessage?.text || imageMessage?.caption || ''] *)
Definition extractText (m : MessageContent) : string :=
  match
    Js.or (conversation m)
      (Js.or (match extendedTextMessage m with
              | Some e => etm_text e
              | None => None
              end)
         (Js.or (match imageMessage m with
                 | Some i => caption i
                 | None => None
                 end)
            (Some EmptyString)))
  with
  | Some s => s
  | None => EmptyString
  end.

Definition isSome {A} (o : option A) : bool :=
  match o with Some _ => true | None => false end.

(** The precedence as the specification words it, to compare with
    [extractText]: the first body that is present, whatever it holds. *)
Definition firstPresentText (m : MessageContent) : string :=
  match conversation m with
  | Some s => s
  | None =>
      match (match extendedTextMessage m with
             | Some e => etm_text e
             | None => None
             end) with
      | Some s => s
      | None =>
          match (match imageMessage m with
                 | Some i => caption i
                 | None => None
                 end) with
          | Some s => s
          | None => EmptyString
          end
      end
  end.

(** [insertMessage(database, ...)] run against the shared database. *)
Definition dbInsertMessage (direction_ : string) (phone_ : option string)
    (message_ status : string) (mediaType mediaUrl senderName : option string)
    (timestamp : string) : M nat :=
  db <- getDatabase ;;
  r <- external (Database.insertMessage db direction_ phone_ message_ status
                   mediaType mediaUrl senderName timestamp) ;;
  putDatabase (snd r) ;;
  ret (fst r).

(** "Download image first if present": the values of [mediaType] and
    [imageBuffer] after the inner try/catch. *)
Definition acquireMedia (env : MessageEnv) (imageMessage_ : option ImageMessage)
    : M (string * option Buffer) :=
  if isSome imageMessage_ then
    try_catch
      (emit DownloadMedia ;;
       imageBuffer <- external (download env) ;;
       ret ("image", Some imageBuffer))
      (fun _ =>
         log error "Failed to download image:" ;;
         ret ("text", None))
  else ret ("text", None).

(** "Save image using message ID as filename": the value of [mediaUrl]
    afterwards. *)
Definition saveImage (env : MessageEnv) (messageId : nat)
    (imageBuffer : option Buffer) : M (option string) :=
  match imageBuffer with
  | Some buf =>
      let filename := Js.numberToString messageId ++ ".jpg" in
      emit (WriteFile filename buf) ;;
      external (writeFile env) ;;
      db <- getDatabase ;;
      putDatabase (Database.updateMediaUrl db (Some filename) messageId) ;;
      log info "Image downloaded" ;;
      ret (Some filename)
  | None => ret None
  end.

(** "Call webhook if configured": [callWebhook] is started and not awaited. *)
Definition notifyWebhook (env : MessageEnv) (messageId : nat) (from : option string)
    (text mediaType : string) (mediaUrl : option string) : M unit :=
  db <- getDatabase ;;
  match Database.getWebhook db "message.received" with
  | Some webhook =>
      if Js.truthy (Some (Database.url webhook)) then
        emit (CallWebhookDetached (Database.url webhook)
                {| wp_event := "message.received";
                   wp_id := messageId;
                   wp_from := from;
                   wp_text := text;
                   wp_mediaType := mediaType;
                   wp_mediaUrl := mediaUrl;
                   wp_timestamp := isoTimestamp env |})
      else ret tt
  | None => ret tt
  end.

(** The body of the outer [try] for one message that is to be stored. *)
Definition storeIncoming (env : MessageEnv) (msg : WAMessage)
    (from : option string) (text : string)
    (imageMessage_ : option ImageMessage) : M unit :=
  media <- acquireMedia env imageMessage_ ;;
  let mediaType := fst media in
  let imageBuffer := snd media in
  let senderName := Js.or (pushName msg) None in
  messageId <- dbInsertMessage "incoming" from text "unread"
                 (Some mediaType) None senderName (istTimestamp env) ;;
  mediaUrl <- saveImage env messageId imageBuffer ;;
  log info "Message received" ;;
  notifyWebhook env messageId from text mediaType mediaUrl.

(** The body of the [for (const msg of messages)] loop. *)
Definition handleMessage (em : MessageEnv * WAMessage) : M unit :=
  let env := fst em in
  let msg := snd em in
  match message msg with
  | None => ret tt
  | Some content =>
      (if isLid (remoteJid (key msg)) then log info "LID message detected" else ret tt) ;;
      let from := resolveFrom (key msg) in
      let imageMessage_ := imageMessage content in
      let text := extractText content in
      if negb (fromMe (key msg)) && (Js.truthy (Some text) || isSome imageMessage_) then
        try_catch
          (storeIncoming env msg from text imageMessage_)
          (fun _ => log error "Failed to store message:")
      else ret tt
  end.

(** [sock.ev.on('messages.upsert', async ({ messages, type }) => ...)] *)
Definition onMessagesUpsert (type_ : string) (messages : list (MessageEnv * WAMessage)) : M unit :=
  if negb (type_ =? "notify") then ret tt
  else forEach handleMessage messages.

(** ** The events that move the shared state *)

Inductive Event :=
| Connect (s : State.Sock)
| Update (env : UpdateEnv) (update : ConnectionUpdate)
| Logout (terminate purge : completion unit)
| Upsert (type_ : string) (messages : list (MessageEnv * WAMessage)).

(** One event handled to its end; an exception escaping an async handler
    is dropped by the event loop. *)
Definition handle (e : Event) (w : World) : World :=
  match e with
  | Connect s => snd (connectToWhatsApp s w)
  | Update env update => snd (onConnectionUpdate env update w)
  | Logout terminate purge => snd (Routes.logoutHandler terminate purge w)
  | Upsert type_ messages => snd (onMessagesUpsert type_ messages w)
  end.

Definition run (events : list Event) (w : World) : World :=
  fold_left (fun w e => handle e w) events w.

(** The discipline of a session that behaves as the pairing protocol
    describes: at a session-open signal the socket knows its user, and a
    pairing challenge is not delivered on its own while the state says
    connected. The handlers themselves do not check either. *)
Definition conforms (e : Event) (w : World) : bool :=
  match e with
  | Update env update =>
      match connection update with
      | Some open => isSome (user_id env)
      | Some close => true
      | _ => negb (Js.truthy (qr update)) || negb (State.connected (state w))
      end
  | _ => true
  end.

Fixpoint conformingRun (events : list Event) (w : World) : bool :=
  match events with
  | [] => true
  | e :: rest => conforms e w && conformingRun rest (handle e w)
  end.

(** ** The status of the specification

    [WhatsAppState] stores no status: the code keeps the flag [connected]
    and the pairing image [qrCode]. The specification speaks of a status
    with three values and says, signal by signal, how it is set (4.1).
    [specStep] follows those words, not the code, over the same events, so
    that the two can be compared:
    - pairing challenge: "render it as an image artifact and store as
      pairingPayload; state becomes AwaitingPairing";
    - session-open signal: "set status = Connected";
    - session-close signal: "set status = Disconnected";
    - API-triggered logout: "only valid when status = Connected; invokes
      the session handle's terminate capability, then locally forces
      status = Disconnected".
    An update that carries both a challenge and a connection change is
    read in the order the handler reads it. *)
Inductive Status := Disconnected | AwaitingPairing | Connected.

Definition specStep (s : Status) (e : Event) : Status :=
  match e with
  | Connect _ => s
  | Update env update =>
      let challenged :=
        if Js.truthy (qr update) then
          match toDataURL env with
          | Normal _ => AwaitingPairing
          | Throws _ => s
          end
        else s in
      match connection update with
      | Some open => Connected
      | Some close => Disconnected
      | _ => challenged
      end
  | Logout terminate _ =>
      match s, terminate with
      | Connected, Normal _ => Disconnected
      | _, _ => s
      end
  | Upsert _ _ => s
  end.

(** "Initial state: Disconnected." *)
Definition specStatus (events : list Event) : Status :=
  fold_left specStep events Disconnected.

End WhatsApp.

(* ===================================================================== *)
(** * src/database/index.js, the remaining queries *)
(* ===================================================================== *)

Module Store.
Import Database.

(** Row ids are handed out once: every stored id is at most the
    AUTOINCREMENT counter and no two rows share an id. *)
Definition wellFormed (db : t) : Prop :=
  Forall (fun r => id r <= messages_seq db) (messages db)
  /\ NoDup (map id (messages db)).

(** The [reply_status] column holds one of the four values the API
    accepts. *)
Definition validRows (db : t) : Prop :=
  Forall (fun r => In (reply_status r) ["unread"; "replied"; "ignored"; "sent"])
    (messages db).

(** Consecutive rows do not get newer. *)
Fixpoint newestFirstOrdered (rows : list MessageRow) : Prop :=
  match rows with
  | [] => True
  | x :: rest =>
      match rest with
      | [] => True
      | y :: _ => String.leb (created_at y) (created_at x) = true
      end /\ newestFirstOrdered rest
  end.

(** [SELECT * FROM messages WHERE id = ?], first row. *)
Definition getMessageById (db : t) (i : nat) : option MessageRow :=
  find (fun r => Nat.eqb (id r) i) (messages db).

Definition setReplyStatus (r : MessageRow) (status : string) : MessageRow :=
  {| id := id r; direction := direction r; phone := phone r;
     sender_name := sender_name r; message := message r;
     reply_status := status; media_type := media_type r;
     media_url := media_url r; created_at := created_at r |}.

(** [updateMessageStatus(db, id, status)]: the result's [changes] and the
    database afterwards. *)
Definition updateMessageStatus (db : t) (i : nat) (status : string) : nat * t :=
  (List.length (filter (fun r => Nat.eqb (id r) i) (messages db)),
   {| messages :=
        map (fun r => if Nat.eqb (id r) i then setReplyStatus r status else r)
          (messages db);
      messages_seq := messages_seq db;
      api_keys := api_keys db;
      api_keys_seq := api_keys_seq db;
      webhooks := webhooks db |}).

(** [SELECT COUNT( * ) as count FROM messages WHERE direction = 'incoming'] *)
Definition getMessageCount (db : t) : nat :=
  List.length (filter (fun r => direction r =? "incoming") (messages db)).

(** [ORDER BY created_at DESC]: text comparison of the timestamps; rows
    with equal timestamps stay in rowid order, as the index on
    [created_at DESC] yields them. *)
Fixpoint insertNewest (r : MessageRow) (l : list MessageRow) : list MessageRow :=
  match l with
  | [] => [r]
  | x :: rest =>
      if String.leb (created_at x) (created_at r) then r :: l
      else x :: insertNewest r rest
  end.

Definition newestFirst (rows : list MessageRow) : list MessageRow :=
  fold_right insertNewest [] rows.

(** [LIMIT ? OFFSET ?] as SQLite reads them: a negative limit is no limit,
    a negative offset is none. *)
Definition limitOffset {A} (limit offset : Z) (rows : list A) : list A :=
  let rest := skipn (Z.to_nat offset) rows in
  if (limit <? 0)%Z then rest else firstn (Z.to_nat limit) rest.

(** [getMessages(db, page = 1, limit = 50)] *)
Definition getMessages (db : t) (page limit : Z) : list MessageRow :=
  let offset := ((page - 1) * limit)%Z in
  limitOffset limit offset (newestFirst (messages db)).

(** The [settings] table: [key TEXT PRIMARY KEY, value TEXT NOT NULL]. *)
Definition Settings := list (string * string).

(** [getSetting(db, key)] *)
Definition getSetting (settings : Settings) (k : string) : option string :=
  match find (fun kv => fst kv =? k) settings with
  | Some result => Some (snd result)
  | None => None
  end.

(** [setSetting(db, key, value)]: [INSERT OR REPLACE] removes the row that
    holds the key, then inserts. *)
Definition setSetting (settings : Settings) (k v : string) : Settings :=
  (filter (fun kv => negb (fst kv =? k)) settings ++ [(k, v)])%list.

(** [DELETE FROM webhooks WHERE event = ?] *)
Definition deleteWebhook (db : t) (event_ : string) : t :=
  {| messages := messages db;
     messages_seq := messages_seq db;
     api_keys := api_keys db;
     api_keys_seq := api_keys_seq db;
     webhooks := filter (fun w => negb (event w =? event_)) (webhooks db) |}.

(** [setWebhook(db, url, event)]: delete, then
    [INSERT INTO webhooks (url, event)] with [active] defaulting to 1.
    [rowid] is the id AUTOINCREMENT assigns to the new row. *)
Definition setWebhook (db : t) (url_ event_ : string) (rowid : nat) : t :=
  let db' := deleteWebhook db event_ in
  {| messages := messages db';
     messages_seq := messages_seq db';
     api_keys := api_keys db';
     api_keys_seq := api_keys_seq db';
     webhooks := (webhooks db' ++
                  [{| wh_id := rowid; url := url_; event := event_; active := 1 |}])%list |}.

End Store.

(** Whether a character occurs in a string. *)
Module Text.

Fixpoint hasChar (c : ascii) (s : string) : bool :=
  match s with
  | EmptyString => false
  | String d t => Ascii.eqb d c || hasChar c t
  end.

End Text.

(* ===================================================================== *)
(** * src/api/config.js *)
(* ===================================================================== *)

Module Config.

(** [process.env.PORT || 3001] is the variable's text or the number. *)
Inductive Port := PortText (s : string) | PortNumber (n : Z).

Record t := {
  PORT : Port;
  DASHBOARD_USER : string;
  DASHBOARD_PASSWORD : string;
  DB_PATH : string;
  SESSION_PATH : string;
  MEDIA_PATH : string;
  NODE_ENV : string
}.

(** [process.env.X || fallback] *)
Definition orDefault (v : option string) (fallback : string) : string :=
  match Js.or v (Some fallback) with
  | Some s => s
  | None => fallback
  end.

(** [loadConfig()]; [env] is [process.env] after dotenv has run. *)
Definition loadConfig (env : string -> option string) : t :=
  {| PORT := if Js.truthy (env "PORT")
             then PortText (orDefault (env "PORT") "")
             else PortNumber 3001;
     DASHBOARD_USER := orDefault (env "DASHBOARD_USER") "admin";
     DASHBOARD_PASSWORD := orDefault (env "DASHBOARD_PASSWORD") "admin123";
     DB_PATH := orDefault (env "DB_PATH") "./messages.db";
     SESSION_PATH := orDefault (env "SESSION_PATH") "./session";
     MEDIA_PATH := orDefault (env "MEDIA_PATH") "./media";
     NODE_ENV := orDefault (env "NODE_ENV") "development" |}.

(** The two fields the dashboard middleware reads from the loaded object. *)
Definition dashboard (c : t) : Routes.Config :=
  {| Routes.DASHBOARD_USER := Some (DASHBOARD_USER c);
     Routes.DASHBOARD_PASSWORD := Some (DASHBOARD_PASSWORD c) |}.

End Config.

(* ===================================================================== *)
(** * src/api/routes.js, the remaining routes *)
(* ===================================================================== *)

Module Api.
Import Runtime Routes.

(** One row of the inbox query, under the column names it selects. *)
Record InboxItem := {
  ii_id : nat;
  ii_type : string;
  ii_phone : string;
  ii_message : string;
  ii_status : string;
  ii_media_type : option string;
  ii_media_url : option string;
  ii_timestamp : string
}.

(** The [data] member of a response body. *)
Inductive Data :=
| NoData
| QrData (qr message : string)
| ConfigData (apiKey : option string) (connected : bool) (phone : option string)
    (messageCount : nat)
| StatusData (connected : bool) (phone : option string) (messageCount : nat)
| InboxData (items : list InboxItem)
| WebhookData (webhook : option Database.WebhookRow).

(** [res.status(code).json({ success, error, message, data })] *)
Record Reply := {
  code : Z;
  replyHeaders : list (string * string);
  ok : bool;
  errorText : option string;
  messageText : option string;
  data : Data
}.

Definition failure (c : Z) (msg : string) : Reply :=
  {| code := c; replyHeaders := []; ok := false; errorText := Some msg;
     messageText := None; data := NoData |}.

Definition done (msg : string) : Reply :=
  {| code := 200; replyHeaders := []; ok := true; errorText := None;
     messageText := Some msg; data := NoData |}.

Definition withData (d : Data) : Reply :=
  {| code := 200; replyHeaders := []; ok := true; errorText := None;
     messageText := None; data := d |}.

(** A middleware's own answer (always a refusal) as a reply. *)
Definition ofResponse (r : Response) : Reply :=
  {| code := statusCode r; replyHeaders := headers r; ok := success r;
     errorText := Some (text r); messageText := None; data := NoData |}.

(** What a route reads from the request: the credential headers,
    [req.params.id], and the members of the JSON body (strings). *)
Record ApiRequest := {
  credentials : Request;
  params_id : string;
  body_message : option string;
  body_image : option string;
  body_status : option string;
  body_url : option string
}.

(** What [sock.sendMessage(jid, content)] is given. A base64 image is kept
    as the text the buffer is decoded from. *)
Inductive ImageContent := ImageUrl (url : string) | ImageBase64 (base64 : string).

Inductive Content :=
| ImageOut (image : ImageContent) (caption : string)
| TextOut (text : option string).

Record Sent := { to : string; content : Content }.

(** The server: the world of the handlers, and the messages handed to the
    socket so far. *)
Record Server := {
  world : World;
  outbox : list Sent
}.

Definition logged (level : LogLevel) (msg : string) (srv : Server) : Server :=
  {| world := snd (log level msg (world srv)); outbox := outbox srv |}.

Definition withDatabase (db : Database.t) (srv : Server) : Server :=
  {| world := snd (putDatabase db (world srv)); outbox := outbox srv |}.

Definition handed (s : Sent) (srv : Server) : Server :=
  {| world := world srv; outbox := (outbox srv ++ [s])%list |}.

(** [router.get('/qr', ...)] *)
Definition getQr (srv : Server) : Reply :=
  let st := state (world srv) in
  let status := State.getStatus st in
  if State.sv_connected status then failure 400 "Already connected to WhatsApp"
  else
    match State.qrCode st with
    | Some qr =>
        if Js.truthy (Some qr)
        then withData (QrData qr "Scan this QR code with WhatsApp")
        else failure 400 "QR code not available. Please restart the server."
    | None => failure 400 "QR code not available. Please restart the server."
    end.

(** The handler of [GET /status]. *)
Definition statusHandler (srv : Server) : Reply :=
  let status := State.getStatus (state (world srv)) in
  let messageCount := Store.getMessageCount (database (world srv)) in
  withData (StatusData (State.sv_connected status) (State.sv_phone status) messageCount).

(** The handler of [GET /config]. *)
Definition configHandler (srv : Server) : Reply :=
  let apiKey := Database.getApiKey (database (world srv)) in
  let status := State.getStatus (state (world srv)) in
  let messageCount := Store.getMessageCount (database (world srv)) in
  withData (ConfigData (option_map Database.key apiKey)
              (State.sv_connected status) (State.sv_phone status) messageCount).

(** The inbox query: unread incoming rows, newest first. *)
Definition inboxItem (r : Database.MessageRow) : InboxItem :=
  {| ii_id := Database.id r; ii_type := Database.direction r;
     ii_phone := Database.phone r; ii_message := Database.message r;
     ii_status := Database.reply_status r;
     ii_media_type := Database.media_type r;
     ii_media_url := Database.media_url r;
     ii_timestamp := Database.created_at r |}.

Definition selectInbox (db : Database.t) : list InboxItem :=
  map inboxItem
    (Store.newestFirst
       (filter (fun r => (Database.direction r =? "incoming")
                         && (Database.reply_status r =? "unread"))
          (Database.messages db))).

(** The handler of [GET /inbox]. *)
Definition inboxHandler (srv : Server) : Reply :=
  withData (InboxData (selectInbox (database (world srv)))).

(** [const validStatuses = ['unread', 'replied', 'ignored', 'sent']] *)
Definition validStatuses : list string := ["unread"; "replied"; "ignored"; "sent"].

(** [validStatuses.includes(status)] *)
Definition includes (l : list string) (s : string) : bool :=
  existsb (String.eqb s) l.

(** A reading of decimal text as a row id, for examples: SQLite compares
    the text of a well-formed integer as that integer. *)
Definition decimalRowId (s : string) : option nat :=
  option_map Nat.of_uint (NilZero.uint_of_string s).

Section Handlers.

(** The row id SQLite compares a text parameter as, when it reads as an
    integer; [None] for text that matches no row id. *)
Variable rowIdOf : string -> option nat.

(** Whether [new URL(url)] returns rather than throws. *)
Variable validUrl : string -> bool.

(** [Buffer.from(x, 'base64').toString('utf-8')], as in [authenticateBasicAuth]. *)
Variable base64ToUtf8 : string -> string.

(** The handler of [POST /messages/:id/reply]. [send] is how
    [sock.sendMessage] ends and [timestamp] what [getISTTimestamp()]
    returns. *)
Definition replyHandler (send : completion unit) (timestamp : string)
    (req : ApiRequest) (srv : Server) : Reply * Server :=
  let message_ := body_message req in
  let image := body_image req in
  let messageId := params_id req in
  let st := state (world srv) in
  if negb (Js.truthy message_) && negb (Js.truthy image)
  then (failure 400 "Message or image is required", srv)
  else if negb (State.connected st) || negb (WhatsApp.isSome (State.sock st))
  then (failure 400 "WhatsApp not connected", srv)
  else
    match
      match rowIdOf messageId with
      | Some i => option_map (fun r => (i, r)) (Store.getMessageById (database (world srv)) i)
      | None => None
      end
    with
    | None => (failure 404 "Message not found", srv)
    | Some (i, originalMessage) =>
        let caught (s : Server) :=
          (failure 500 "Failed to send reply", logged error "Reply error:" s) in
        let mediaType := if Js.truthy image then "image" else "text" in
        let mediaUrl :=
          match image with
          | Some img =>
              if Js.truthy image then
                if Js.startsWith "http://" img || Js.startsWith "https://" img
                then Some img else Some "base64"
              else None
          | None => None
          end in
        let outgoing :=
          match image with
          | Some img =>
              if Js.truthy image then
                ImageOut (if Js.startsWith "http://" img || Js.startsWith "https://" img
                          then ImageUrl img else ImageBase64 img)
                         (match Js.or message_ (Some EmptyString) with
                          | Some m => m
                          | None => EmptyString
                          end)
              else TextOut message_
          | None => TextOut message_
          end in
        let srv1 := handed {| to := Database.phone originalMessage; content := outgoing |} srv in
        match send with
        | Throws _ => caught srv1
        | Normal _ =>
            match
              Database.insertMessage (database (world srv1)) "outgoing"
                (Some (Database.phone originalMessage))
                (match Js.or message_ (Some EmptyString) with
                 | Some m => m
                 | None => EmptyString
                 end)
                "sent" (Some mediaType) mediaUrl None timestamp
            with
            | Throws _ => caught srv1
            | Normal r =>
                let srv2 := withDatabase (snd r) srv1 in
                let srv3 :=
                  withDatabase
                    (snd (Store.updateMessageStatus (database (world srv2)) i "replied"))
                    srv2 in
                (done "Reply sent successfully", logged info "Reply sent" srv3)
            end
        end
    end.

(** The handler of [PATCH /messages/:id/status]. *)
Definition statusUpdateHandler (req : ApiRequest) (srv : Server) : Reply * Server :=
  match body_status req with
  | None => (failure 400 "Status is required", srv)
  | Some status =>
      if negb (Js.truthy (Some status)) then (failure 400 "Status is required", srv)
      else if negb (includes validStatuses status)
      then (failure 400 "Invalid status. Must be one of: unread, replied, ignored, sent", srv)
      else
        match rowIdOf (params_id req) with
        | None => (failure 404 "Message not found", srv)
        | Some i =>
            let result := Store.updateMessageStatus (database (world srv)) i status in
            let srv1 := withDatabase (snd result) srv in
            if Nat.eqb (fst result) 0 then (failure 404 "Message not found", srv1)
            else (done "Status updated successfully",
                  logged info "Message status updated" srv1)
        end
  end.

(** The handler of [GET /webhook]. *)
Definition webhookHandler (srv : Server) : Reply :=
  withData (WebhookData (Database.getWebhook (database (world srv)) "message.received")).

(** The handler of [POST /webhook]. [rowid] is the id the new row gets. *)
Definition setWebhookHandler (rowid : nat) (req : ApiRequest) (srv : Server)
    : Reply * Server :=
  match body_url req with
  | None => (failure 400 "Webhook URL is required", srv)
  | Some url =>
      if negb (Js.truthy (Some url)) then (failure 400 "Webhook URL is required", srv)
      else if negb (validUrl url) then (failure 400 "Invalid URL format", srv)
      else
        (done "Webhook configured successfully",
         logged info "Webhook configured"
           (withDatabase
              (Store.setWebhook (database (world srv)) url "message.received" rowid)
              srv))
  end.

(** The handler of [DELETE /webhook]. *)
Definition deleteWebhookHandler (srv : Server) : Reply * Server :=
  (done "Webhook deleted successfully",
   logged info "Webhook deleted"
     (withDatabase (Store.deleteWebhook (database (world srv)) "message.received") srv)).

(** A route behind [authenticateApiKey(database)]: the middleware's answer,
    or the handler's. An exception escaping the middleware ends the
    request. *)
Definition behindApiKey {A} (handler : Server -> A * Server) (refusal : Reply -> A)
    (req : ApiRequest) (srv : Server) : completion A * Server :=
  match authenticateApiKey (database (world srv)) (credentials req) with
  | Answered r => (Normal (refusal (ofResponse r)), srv)
  | Escaped e => (Throws e, srv)
  | Next => let r := handler srv in (Normal (fst r), snd r)
  end.

(** A route behind [authenticateBasicAuth(config)]. *)
Definition behindBasicAuth {A} (config : Routes.Config)
    (handler : Server -> A * Server) (refusal : Reply -> A)
    (req : ApiRequest) (srv : Server) : completion A * Server :=
  match authenticateBasicAuth base64ToUtf8 config (credentials req) with
  | Answered r => (Normal (refusal (ofResponse r)), srv)
  | Escaped e => (Throws e, srv)
  | Next => let r := handler srv in (Normal (fst r), snd r)
  end.

(** The routes, as [createRoutes] registers them. *)
Definition getConfig (config : Routes.Config) :=
  behindBasicAuth config (fun srv => (configHandler srv, srv)) (fun r => r).

Definition getStatus :=
  behindApiKey (fun srv => (statusHandler srv, srv)) (fun r => r).

Definition getInbox :=
  behindApiKey (fun srv => (inboxHandler srv, srv)) (fun r => r).

Definition postReply (send : completion unit) (timestamp : string) (req : ApiRequest) :=
  behindApiKey (replyHandler send timestamp req) (fun r => r) req.

Definition patchStatus (req : ApiRequest) :=
  behindApiKey (statusUpdateHandler req) (fun r => r) req.

Definition getWebhook (config : Routes.Config) :=
  behindBasicAuth config (fun srv => (webhookHandler srv, srv)) (fun r => r).

Definition postWebhook (config : Routes.Config) (rowid : nat) (req : ApiRequest) :=
  behindBasicAuth config (setWebhookHandler rowid req) (fun r => r) req.

Definition deleteWebhook (config : Routes.Config) :=
  behindBasicAuth config deleteWebhookHandler (fun r => r).

(** The requests and protocol events that reach the server, each with what
    the outside decides while it is handled. Requests are taken after
    their middleware has called [next()]. *)
Inductive Call :=
| Protocol (e : WhatsApp.Event)
| PostReply (send : completion unit) (timestamp : string) (req : ApiRequest)
| PatchStatus (req : ApiRequest)
| PostWebhook (rowid : nat) (req : ApiRequest)
| DeleteWebhook.

Definition step (c : Call) (srv : Server) : Server :=
  match c with
  | Protocol e => {| world := WhatsApp.handle e (world srv); outbox := outbox srv |}
  | PostReply send timestamp req => snd (replyHandler send timestamp req srv)
  | PatchStatus req => snd (statusUpdateHandler req srv)
  | PostWebhook rowid req => snd (setWebhookHandler rowid req srv)
  | DeleteWebhook => snd (deleteWebhookHandler srv)
  end.

Definition serve (calls : list Call) (srv : Server) : Server :=
  fold_left (fun s c => step c s) calls srv.

End Handlers.

(** [app.js]: the configuration is loaded, the database opened, the API
    key ensured and logged, the WhatsApp client initialised; only then are
    the routes mounted. [randomKey] and [now] are what [ensureApiKey]
    reads, [s] the first socket; the auth state is taken to load, as in
    [WhatsApp.initializeWhatsApp]. The result is the key [ensureApiKey]
    returns. *)
Definition rule : string := "==================================================".

Definition startup (randomKey : string) (now : Z) (s : State.Sock) : M string :=
  log info rule ;;
  log info "Starting OpenWAPI v1.0" ;;
  log info rule ;;
  log info "Initializing database..." ;;
  log info "Database initialized" ;;
  db <- getDatabase ;;
  let r := Database.ensureApiKey db randomKey now in
  putDatabase (snd r) ;;
  log info rule ;;
  log info "API Key:" ;;
  log info rule ;;
  log info "Dashboard credentials:" ;;
  log info "  Username:" ;;
  log info "  Password:" ;;
  log info rule ;;
  log info "Initializing WhatsApp client..." ;;
  WhatsApp.initializeWhatsApp s ;;
  log info "WhatsApp client initialized" ;;
  ret (fst r).

(** A property of the database that storing an inbound message cannot
    break: it survives the insert the ingestion handler issues and the
    media-reference update. *)
Definition ingestionClosed (P : Database.t -> Prop) : Prop :=
  (forall db p m mt sn ts i db',
      P db ->
      Database.insertMessage db "incoming" p m "unread" mt None sn ts = Normal (i, db') ->
      P db')
  /\ (forall db u i, P db -> P (Database.updateMediaUrl db u i)).

(** A computation that keeps a property of the database. *)
Definition dbInv {A} (P : Database.t -> Prop) (c : M A) : Prop :=
  forall w, P (database w) -> P (database (snd (c w))).

(** A message that can be stored: it has content, is not this account's
    own, carries text or an image, and has a sender. *)
Definition storable (msg : WhatsApp.WAMessage) : Prop :=
  exists content jid,
    WhatsApp.message msg = Some content
    /\ WhatsApp.fromMe (WhatsApp.key msg) = false
    /\ Js.truthy (Some (WhatsApp.extractText content))
       || WhatsApp.isSome (WhatsApp.imageMessage content) = true
    /\ WhatsApp.resolveFrom (WhatsApp.key msg) = Some jid.

(** The webhook calls and the timers among the effects. *)
Definition isWebhookCall (e : Effect) : bool :=
  match e with CallWebhookDetached _ _ => true | _ => false end.

Definition isTimer (e : Effect) : bool :=
  match e with SetTimeout _ _ => true | _ => false end.

End Api.

(* ===================================================================== *)
(** * Properties of the string primitives *)
(* ===================================================================== *)

Section StringFacts.

Example split_credentials : Js.split ":" "admin:admin123" = ["admin"; "admin123"].
Proof. reflexivity. Qed.

Example split_no_separator : Js.split ":" "admin" = ["admin"].
Proof. reflexivity. Qed.

Example split_empty : Js.split ":" "" = [""].
Proof. reflexivity. Qed.

Example endsWith_lid : Js.endsWith "@lid" "77001122@lid" = true.
Proof. reflexivity. Qed.

Example endsWith_short : Js.endsWith "@lid" "lid" = false.
Proof. reflexivity. Qed.

Example includes_marker :
  Js.includes "@s.whatsapp.net" "919812345678@s.whatsapp.net" = true.
Proof. reflexivity. Qed.

Example numberToString_42 : Js.numberToString 42 ++ ".jpg" = "42.jpg".
Proof. reflexivity. Qed.

Lemma prefix_app (p s : string) : String.prefix p (p ++ s) = true.
Proof.
  induction p as [|c p IH]; simpl.
  - now destruct s.
  - destruct (ascii_dec c c) as [_|n]; [exact IH | now elim n].
Qed.

Lemma prefix_split (p s : string) :
  String.prefix p s = true -> exists post, s = p ++ post.
Proof.
  revert s; induction p as [|c p IH]; intros s H.
  - now exists s.
  - destruct s as [|d s]; simpl in H; [discriminate|].
    destruct (ascii_dec c d) as [->|]; [|discriminate].
    destruct (IH _ H) as [post ->]. now exists post.
Qed.

(** [includes] finds exactly the strings that contain the pattern. *)
Lemma includes_spec (pat s : string) :
  Js.includes pat s = true <-> exists pre post, s = pre ++ pat ++ post.
Proof.
  split.
  - induction s as [|c s IH]; cbn [Js.includes]; intros H.
    + apply orb_true_iff in H as [H|H]; [|discriminate].
      destruct (prefix_split _ _ H) as [post E]. now exists "", post.
    + apply orb_true_iff in H as [H|H].
      * destruct (prefix_split _ _ H) as [post E]. now exists "", post.
      * destruct (IH H) as (pre & post & ->). now exists (String c pre), post.
  - intros (pre & post & ->).
    induction pre as [|c pre IH].
    + change ("" ++ pat ++ post) with (pat ++ post).
      destruct (pat ++ post) eqn:E; cbn [Js.includes];
        rewrite <- E, prefix_app; reflexivity.
    + change (String c pre ++ pat ++ post) with (String c (pre ++ pat ++ post)).
      cbn [Js.includes]. rewrite IH. apply orb_true_r.
Qed.

Lemma substring_all (s : string) : substring 0 (String.length s) s = s.
Proof. induction s; simpl; [reflexivity | now f_equal]. Qed.

Lemma substring_skip (pre s : string) n :
  substring (String.length pre) n (pre ++ s) = substring 0 n s.
Proof. induction pre; simpl; auto. Qed.

Lemma app_length (a b : string) :
  String.length (a ++ b) = String.length a + String.length b.
Proof. induction a; simpl; auto. Qed.

Lemma substring_cut (s : string) n m :
  n + m = String.length s -> exists pre, s = pre ++ substring n m s.
Proof.
  revert s; induction n as [|n IH]; intros s H.
  - exists "". simpl in *. subst m. now rewrite substring_all.
  - destruct s as [|c s]; simpl in H; [discriminate|].
    destruct (IH s) as [pre E]; [lia|].
    exists (String c pre). simpl. now rewrite <- E.
Qed.

(** [endsWith] finds exactly the strings that end in the suffix. *)
Lemma endsWith_spec (suffix s : string) :
  Js.endsWith suffix s = true <-> exists pre, s = pre ++ suffix.
Proof.
  unfold Js.endsWith; split.
  - intros H. apply andb_true_iff in H as [L E].
    apply Nat.leb_le in L. apply String.eqb_eq in E.
    destruct (substring_cut s (String.length s - String.length suffix)
                (String.length suffix)) as [pre P]; [lia|].
    exists pre. rewrite E in P. exact P.
  - intros [pre ->]. rewrite app_length.
    apply andb_true_iff; split; [apply Nat.leb_le; lia|].
    replace (String.length pre + String.length suffix - String.length suffix)
      with (String.length pre) by lia.
    rewrite substring_skip, substring_all. apply String.eqb_refl.
Qed.

Lemma truthy_Some (s : string) : Js.truthy (Some s) = true <-> s <> "".
Proof.
  simpl. rewrite negb_true_iff. split.
  - intros H E. subst s. discriminate.
  - intros H. apply String.eqb_neq. exact H.
Qed.

Lemma truthy_false (v : option string) :
  Js.truthy v = false <-> v = None \/ v = Some "".
Proof.
  destruct v as [s|]; simpl.
  - rewrite negb_false_iff, String.eqb_eq. split.
    + intros ->. now right.
    + intros [H|H]; congruence.
  - split; auto.
Qed.

End StringFacts.

(* ===================================================================== *)
(** * AuthGateway: timingSafeCompare and the two middlewares *)
(* ===================================================================== *)

Section AuthGateway.
Import Runtime Routes.

Lemma N_of_ascii_inj (a b : ascii) : N_of_ascii a = N_of_ascii b -> a = b.
Proof.
  intros H. rewrite <- (ascii_N_embedding a), <- (ascii_N_embedding b).
  now rewrite H.
Qed.

(** The first character of a string can be read back from its bytes. *)
Lemma utf8_app_inj (c d : ascii) (l m : Buffer) :
  (utf8 c ++ l = utf8 d ++ m)%list -> c = d /\ l = m.
Proof.
  unfold utf8.
  pose proof (N_ascii_bounded c) as Bc. pose proof (N_ascii_bounded d) as Bd.
  pose proof (N.div_mod (N_of_ascii c) 64) as Dc.
  pose proof (N.div_mod (N_of_ascii d) 64) as Dd.
  pose proof (N.mod_lt (N_of_ascii c) 64) as Mc.
  pose proof (N.mod_lt (N_of_ascii d) 64) as Md.
  remember (192 + N_of_ascii c / 64)%N as c1 eqn:Ec1.
  remember (128 + N_of_ascii c mod 64)%N as c2 eqn:Ec2.
  remember (192 + N_of_ascii d / 64)%N as d1 eqn:Ed1.
  remember (128 + N_of_ascii d mod 64)%N as d2 eqn:Ed2.
  destruct (N.ltb_spec (N_of_ascii c) 128) as [Hc|Hc];
    destruct (N.ltb_spec (N_of_ascii d) 128) as [Hd|Hd];
    cbn [List.app]; intros H; injection H; clear H; intros; subst.
  - split; [now apply N_of_ascii_inj | reflexivity].
  - exfalso. lia.
  - exfalso. lia.
  - split; [apply N_of_ascii_inj; lia | reflexivity].
Qed.

Lemma Buffer_from_inj (a b : string) : Buffer_from a = Buffer_from b -> a = b.
Proof.
  revert b; induction a as [|c a IH]; intros [|d b]; cbn [Buffer_from]; intros H.
  - reflexivity.
  - unfold utf8 in H. destruct (N_of_ascii d <? 128)%N; discriminate.
  - unfold utf8 in H. destruct (N_of_ascii c <? 128)%N; discriminate.
  - apply utf8_app_inj in H as [-> H]. f_equal. now apply IH.
Qed.

Lemma bytes_eqb_eq (a b : Buffer) : bytes_eqb a b = true <-> a = b.
Proof.
  revert b; induction a as [|x a IH]; intros [|y b]; simpl;
    try (split; [discriminate | congruence]); [tauto|].
  rewrite andb_true_iff, N.eqb_eq, IH. split.
  - intros [-> ->]. reflexivity.
  - intros H. injection H. auto.
Qed.

Lemma bytes_eqb_refl (a : Buffer) : bytes_eqb a a = true.
Proof. now apply bytes_eqb_eq. Qed.

(** Equal non-empty strings compare equal. *)
Lemma timingSafeCompare_same (s : string) :
  s <> "" -> timingSafeCompare (Some s) (Some s) = Normal true.
Proof.
  intros H. unfold timingSafeCompare.
  rewrite (proj2 (truthy_Some s) H), Nat.eqb_refl. cbn [negb orb].
  unfold timingSafeEqual. now rewrite Nat.eqb_refl, bytes_eqb_refl.
Qed.

(** Strings of different lengths compare unequal before any buffer is made. *)
Lemma timingSafeCompare_length (a b : string) :
  String.length a <> String.length b ->
  timingSafeCompare (Some a) (Some b) = Normal false.
Proof.
  intros H. unfold timingSafeCompare.
  apply Nat.eqb_neq in H. rewrite H. cbn [negb].
  now rewrite !orb_true_r.
Qed.

(** A falsy argument on either side: the answer is [false]. *)
Lemma timingSafeCompare_falsy (a b : option string) :
  Js.truthy a = false \/ Js.truthy b = false ->
  timingSafeCompare a b = Normal false.
Proof.
  intros H. unfold timingSafeCompare.
  destruct a as [sa|], b as [sb|]; try reflexivity.
  destruct H as [-> | ->]; cbn [negb orb]; [reflexivity|].
  now rewrite orb_true_r.
Qed.

(** The comparison never answers [true] for two different strings. *)
Lemma timingSafeCompare_sound (a b : option string) :
  timingSafeCompare a b = Normal true ->
  exists s, a = Some s /\ b = Some s /\ s <> "".
Proof.
  unfold timingSafeCompare.
  destruct a as [sa|], b as [sb|]; try discriminate.
  destruct (Js.truthy (Some sa)) eqn:Ta; cbn [negb orb]; [|discriminate].
  destruct (Js.truthy (Some sb)); cbn [negb orb]; [|discriminate].
  destruct (Nat.eqb _ _); cbn [negb]; [|discriminate].
  unfold timingSafeEqual. destruct (Nat.eqb _ _); [|discriminate].
  intros H. injection H as H. apply bytes_eqb_eq, Buffer_from_inj in H. subst sb.
  exists sa. repeat split. now apply truthy_Some.
Qed.

Lemma timingSafeCompare_different (a b : string) :
  a <> b ->
  timingSafeCompare (Some a) (Some b) = Normal false
  \/ exists e, timingSafeCompare (Some a) (Some b) = Throws e.
Proof.
  intros H. destruct (timingSafeCompare (Some a) (Some b)) as [[|]|e] eqn:E.
  - apply timingSafeCompare_sound in E as (s & Ea & Eb & _). congruence.
  - now left.
  - right. now exists e.
Qed.

(** Strings of code units below 128 have one byte per code unit, so the
    buffers of two such strings of equal length never make
    [timingSafeEqual] throw. *)
Lemma Buffer_from_ascii_length (s : string) :
  Js.isAscii s = true -> List.length (Buffer_from s) = String.length s.
Proof.
  induction s as [|c s IH]; simpl; [reflexivity|].
  intros H. apply andb_true_iff in H as [Hc Hs].
  unfold utf8. rewrite Hc. simpl. now rewrite IH.
Qed.

Lemma timingSafeCompare_ascii (a b : string) :
  Js.isAscii a = true -> Js.isAscii b = true -> a <> b ->
  timingSafeCompare (Some a) (Some b) = Normal false.
Proof.
  intros Ha Hb H.
  destruct (timingSafeCompare_different a b H) as [E|[e E]]; [exact E|].
  exfalso. revert E. unfold timingSafeCompare.
  destruct (_ || _ || negb (Nat.eqb (String.length a) (String.length b))) eqn:G;
    [discriminate|].
  apply orb_false_iff in G as [_ G]. apply negb_false_iff, Nat.eqb_eq in G.
  unfold timingSafeEqual.
  rewrite !Buffer_from_ascii_length, G, Nat.eqb_refl by assumption.
  discriminate.
Qed.

End AuthGateway.

Section AuthTheorems.
Import Runtime Routes.

Example atob_admin : Js.atob "YWRtaW46YWRtaW4xMjM=" = "admin:admin123".
Proof. reflexivity. Qed.

(** A database whose only API key is the empty string, and a request that
    presents exactly that key. *)
Example empty_key_db_lookup :
  Database.getApiKey
    {| Database.messages := []; Database.messages_seq := 0;
       Database.api_keys := [{| Database.ak_id := 1; Database.key := "";
                                Database.ak_created_at := 0 |}];
       Database.api_keys_seq := 1; Database.webhooks := [] |}
  = Some {| Database.ak_id := 1; Database.key := ""; Database.ak_created_at := 0 |}.
Proof. reflexivity. Qed.

(** C7, as stated, fails: when the stored secret is the empty string, a
    caller who supplies the stored secret itself is not admitted. *)
Lemma auth_symmetry_empty_secret_counterexample :
  let stored := {| Database.ak_id := 1; Database.key := ""; Database.ak_created_at := 0 |} in
  let db := {| Database.messages := []; Database.messages_seq := 0;
               Database.api_keys := [stored];
               Database.api_keys_seq := 1; Database.webhooks := [] |} in
  let req := {| x_api_key := Some (Database.key stored); authorization := None |} in
  Database.getApiKey db = Some stored
  /\ authenticateApiKey db req = Answered (json 401 false "API key required")
  /\ authenticateApiKey db req <> Next.
Proof. cbv zeta. split; [reflexivity | split; [reflexivity | discriminate]]. Qed.

(** With secrets made of code units below 128 (such as the generated base64
    key), the comparison cannot throw: a wrong key of the right length is
    always answered with 401 "Invalid API key". *)
Lemma authenticateApiKey_invalid_ascii (db : Database.t)
    (storedKey : Database.ApiKeyRow) (req : Request) (supplied : string) :
  Database.getApiKey db = Some storedKey ->
  x_api_key req = Some supplied ->
  supplied <> "" ->
  Js.isAscii supplied = true -> Js.isAscii (Database.key storedKey) = true ->
  supplied <> Database.key storedKey ->
  authenticateApiKey db req = Answered (json 401 false "Invalid API key").
Proof.
  intros Hdb Hreq Hne Ha Hb Hdiff. unfold authenticateApiKey.
  rewrite Hreq, Hdb, (proj2 (truthy_Some _) Hne). cbn [negb].
  now rewrite timingSafeCompare_ascii.
Qed.

(** C7 (amended): for every non-empty stored secret, a supplied secret of a
    different length is refused with 401; a supplied secret of equal length
    that differs from it is never admitted, and is answered 401 "Invalid
    API key" when both secrets are made of code units below 128 (as the
    generated base64 key is); and the stored secret itself makes the
    middleware call next(). *)
Theorem auth_symmetry (db : Database.t) (storedKey : Database.ApiKeyRow)
    (req : Request) (supplied : string) :
  Database.getApiKey db = Some storedKey ->
  Database.key storedKey <> "" ->
  x_api_key req = Some supplied ->
  (String.length supplied <> String.length (Database.key storedKey) ->
     exists r, authenticateApiKey db req = Answered r /\ statusCode r = 401%Z)
  /\ (String.length supplied = String.length (Database.key storedKey) ->
      supplied <> Database.key storedKey ->
      authenticateApiKey db req <> Next
      /\ (Js.isAscii supplied = true -> Js.isAscii (Database.key storedKey) = true ->
          authenticateApiKey db req = Answered (json 401 false "Invalid API key")))
  /\ (supplied = Database.key storedKey -> authenticateApiKey db req = Next).
Proof.
  intros Hdb Hne Hreq.
  split; [|split].
  - intros Hlen. unfold authenticateApiKey. rewrite Hreq, Hdb.
    destruct (Js.truthy (Some supplied)); cbn [negb].
    + rewrite timingSafeCompare_length by exact Hlen. cbn [negb]. eauto.
    + eauto.
  - intros Hlen Hdiff.
    assert (Hs : supplied <> "").
    { intros ->. destruct (Database.key storedKey); [congruence|discriminate]. }
    split.
    + unfold authenticateApiKey. rewrite Hreq, Hdb, (proj2 (truthy_Some _) Hs).
      cbn [negb].
      destruct (timingSafeCompare_different _ _ Hdiff) as [E|[e E]]; rewrite E;
        discriminate.
    + intros Ha Hb. now apply (authenticateApiKey_invalid_ascii db storedKey req supplied).
  - intros ->. unfold authenticateApiKey. rewrite Hreq, Hdb.
    rewrite (proj2 (truthy_Some _) Hne). cbn [negb].
    now rewrite timingSafeCompare_same.
Qed.

Lemma auth_symmetry_witness :
  let db := snd (Database.ensureApiKey Database.empty "c2VjcmV0" 0) in
  (exists r, authenticateApiKey db {| x_api_key := Some "short"; authorization := None |}
             = Answered r /\ statusCode r = 401%Z)
  /\ authenticateApiKey db {| x_api_key := Some "c2VjcmV1"; authorization := None |}
     = Answered (json 401 false "Invalid API key")
  /\ authenticateApiKey db {| x_api_key := Some "c2VjcmV0"; authorization := None |} = Next.
Proof.
  intros db.
  pose (stored := {| Database.ak_id := 1; Database.key := "c2VjcmV0";
                     Database.ak_created_at := 0 |}).
  assert (Hdb : Database.getApiKey db = Some stored) by reflexivity.
  assert (Hne : Database.key stored <> "") by discriminate.
  split; [|split].
  - apply (auth_symmetry db stored {| x_api_key := Some "short"; authorization := None |}
             "short" Hdb Hne eq_refl). discriminate.
  - apply (auth_symmetry db stored {| x_api_key := Some "c2VjcmV1"; authorization := None |}
             "c2VjcmV1" Hdb Hne eq_refl);
      [reflexivity | discriminate | reflexivity | reflexivity].
  - apply (auth_symmetry db stored {| x_api_key := Some "c2VjcmV0"; authorization := None |}
             "c2VjcmV0" Hdb Hne eq_refl). reflexivity.
Defined.

(** A wrong key of the right length whose UTF-8 encoding is longer than the
    stored key's: [crypto.timingSafeEqual] throws and the request is not
    handed on. *)
Example wide_key_throws :
  authenticateApiKey (snd (Database.ensureApiKey Database.empty "k" 0))
    {| x_api_key := Some (String (Ascii.ascii_of_nat 233) EmptyString);
       authorization := None |}
  = Escaped "ERR_CRYPTO_TIMING_SAFE_EQUAL_LENGTH".
Proof. reflexivity. Qed.

(** C10: whenever either side of a comparison is empty or missing,
    timingSafeCompare returns false; hence the shared-secret scheme answers
    401 when the supplied or the stored key is such a value, and the
    basic-credential scheme does not admit a request whose supplied or
    configured username (or password) is such a value, even when the two
    sides are equal. *)
Theorem empty_value_rejected (a b : option string)
    (H : Js.truthy a = false \/ Js.truthy b = false) :
  timingSafeCompare a b = Normal false
  /\ (forall db req storedKey,
        x_api_key req = a ->
        Database.getApiKey db = Some storedKey ->
        Some (Database.key storedKey) = b ->
        exists r, authenticateApiKey db req = Answered r /\ statusCode r = 401%Z)
  /\ (forall base64ToUtf8 config req authHeader base64Credentials,
        authorization req = Some authHeader ->
        Js.startsWith "Basic " authHeader = true ->
        Js.index (Js.split " " authHeader) 1 = Some base64Credentials ->
        let parts := Js.split ":" (base64ToUtf8 base64Credentials) in
        (Js.index parts 0 = a /\ DASHBOARD_USER config = b)
        \/ (Js.index parts 1 = a /\ DASHBOARD_PASSWORD config = b) ->
        refused (challenge 401 "Invalid credentials")
          (authenticateBasicAuth base64ToUtf8 config req)).
Proof.
  pose proof (timingSafeCompare_falsy a b H) as Hcmp.
  split; [exact Hcmp | split].
  - intros db req k Hreq Hdb Hk. unfold authenticateApiKey.
    rewrite Hreq, Hdb, Hk.
    destruct (Js.truthy a); cbn [negb]; [|eauto].
    rewrite Hcmp. cbn [negb]. eauto.
  - intros dec config req h b64 Hreq Hpre Hidx parts Hside.
    unfold authenticateBasicAuth. rewrite Hreq, Hpre.
    assert (Th : Js.truthy (Some h) = true).
    { apply truthy_Some. intros ->. discriminate. }
    rewrite Th, Hidx. cbn [negb orb]. fold parts.
    destruct Hside as [[Ea Eb]|[Ea Eb]]; rewrite Ea, Eb.
    + rewrite Hcmp.
      destruct (timingSafeCompare (Js.index parts 1) (DASHBOARD_PASSWORD config))
        as [v|e]; [now left | right; now exists e].
    + destruct (timingSafeCompare (Js.index parts 0) (DASHBOARD_USER config))
        as [v|e]; [|right; now exists e].
      rewrite Hcmp. cbn [negb]. rewrite orb_true_r. now left.
Qed.

Lemma empty_value_rejected_witness :
  let stored := {| Database.ak_id := 1; Database.key := ""; Database.ak_created_at := 0 |} in
  let db := {| Database.messages := []; Database.messages_seq := 0;
               Database.api_keys := [stored];
               Database.api_keys_seq := 1; Database.webhooks := [] |} in
  let config := {| DASHBOARD_USER := Some ""; DASHBOARD_PASSWORD := Some "admin123" |} in
  timingSafeCompare (Some "") (Some "") = Normal false
  /\ (exists r, authenticateApiKey db {| x_api_key := Some ""; authorization := None |}
                = Answered r /\ statusCode r = 401%Z)
  /\ refused (challenge 401 "Invalid credentials")
       (authenticateBasicAuth Js.atob config
          {| x_api_key := None; authorization := Some "Basic OmFkbWluMTIz" |}).
Proof.
  intros stored db config.
  destruct (empty_value_rejected (Some "") (Some "") (or_introl eq_refl))
    as (H1 & H2 & H3).
  split; [exact H1 | split].
  - apply (H2 db {| x_api_key := Some ""; authorization := None |} stored);
      reflexivity.
  - apply (H3 Js.atob config
             {| x_api_key := None; authorization := Some "Basic OmFkbWluMTIz" |}
             "Basic OmFkbWluMTIz" "OmFkbWluMTIz");
      [reflexivity | reflexivity | reflexivity |].
    left. split; reflexivity.
Defined.

End AuthTheorems.

(* ===================================================================== *)
(** * API-key provisioning *)
(* ===================================================================== *)

Section ApiKey.
Import Database.

Lemma latest_None (rows : list ApiKeyRow) : latest rows = None -> rows = [].
Proof.
  destruct rows as [|r rest]; [reflexivity|]. simpl.
  destruct (latest rest) as [r'|]; [|discriminate].
  destruct (ak_created_at r <? ak_created_at r')%Z; discriminate.
Qed.

(** A provisioning call on a database that already holds a key changes
    nothing and returns the key [getApiKey] sees. *)
Lemma ensureApiKey_existing (db : t) (k : ApiKeyRow) (randomKey : string) (now : Z) :
  getApiKey db = Some k -> ensureApiKey db randomKey now = (key k, db).
Proof. intros H. unfold ensureApiKey. now rewrite H. Qed.

(** After any provisioning call a key is stored, and it is the one the
    call returned. *)
Lemma ensureApiKey_stores (db : t) (randomKey : string) (now : Z) :
  exists k, getApiKey (snd (ensureApiKey db randomKey now)) = Some k
            /\ key k = fst (ensureApiKey db randomKey now).
Proof.
  unfold ensureApiKey. destruct (getApiKey db) as [k|] eqn:E.
  - exists k. now split.
  - unfold getApiKey in *. apply latest_None in E.
    cbn [snd fst insertApiKey api_keys]. rewrite E.
    eexists. split; reflexivity.
Qed.

(** No write changes what [getApiKey] sees once a key is stored. *)
Lemma execute_keeps_key (db : t) (k : ApiKeyRow) (op : Write) :
  getApiKey db = Some k -> getApiKey (execute db op) = Some k.
Proof.
  intros H. destruct op as [r n|d p m s mt mu sn ts|u i]; cbn [execute].
  - now rewrite (ensureApiKey_existing db k r n H).
  - destruct p as [p|]; cbn; exact H.
  - exact H.
Qed.

Lemma executeAll_keeps_key (db : t) (k : ApiKeyRow) (ops : list Write) :
  getApiKey db = Some k -> getApiKey (executeAll db ops) = Some k.
Proof.
  revert db. induction ops as [|op ops IH]; intros db H; cbn; [exact H|].
  apply IH, execute_keeps_key, H.
Qed.

(** C9: API-key provisioning is idempotent. From every database state, a
    second ensureApiKey call returns the key the first one returned and
    leaves the database as the first one left it; and whatever writes
    follow (further ensureApiKey calls, message inserts, media updates),
    the stored key stays that key. *)
Theorem ensureApiKey_idempotent (db : t) (random1 random2 : string) (now1 now2 : Z)
    (later : list Write) :
  let first := ensureApiKey db random1 now1 in
  let second := ensureApiKey (snd first) random2 now2 in
  fst second = fst first
  /\ snd second = snd first
  /\ option_map key (getApiKey (snd first)) = Some (fst first)
  /\ option_map key (getApiKey (executeAll (snd first) later)) = Some (fst first).
Proof.
  intros first second.
  destruct (ensureApiKey_stores db random1 now1) as (k & Hk & Ek).
  fold first in Hk, Ek.
  assert (E2 : second = (key k, snd first))
    by (apply ensureApiKey_existing; exact Hk).
  rewrite E2, (executeAll_keeps_key _ k later Hk), Hk. cbn [fst snd option_map].
  rewrite Ek. repeat split.
Qed.

(** On the empty database the first call stores the generated key, as the
    test suite does before every route test. *)
Example ensureApiKey_fresh :
  ensureApiKey empty "c2VjcmV0" 7 =
  ("c2VjcmV0",
   {| messages := []; messages_seq := 0;
      api_keys := [{| ak_id := 1; key := "c2VjcmV0"; ak_created_at := 7 |}];
      api_keys_seq := 1; webhooks := [] |}).
Proof. reflexivity. Qed.

End ApiKey.

(* ===================================================================== *)
(** * WebhookDispatcher *)
(* ===================================================================== *)

Section Webhook.
Import Runtime WhatsApp.

(** C8: for every url and payload, and however the request ends,
    callWebhook returns normally; what it adds to the trace is exactly one
    POST with a 5000 ms timeout followed by one log line: a warning for a
    non-success status, an error for a timeout or transport failure, an
    info line otherwise. Nothing else in the world changes, and there is no
    second attempt. *)
Theorem callWebhook_never_raises (outcome : completion Z) (target : string)
    (data : WebhookPayload) (w : World) :
  let r := callWebhook outcome target data w in
  fst r = Normal tt
  /\ state (snd r) = state w
  /\ database (snd r) = database w
  /\ sessionFolder (snd r) = sessionFolder w
  /\ trace (snd r) =
       (trace w ++
          [Fetch "POST" target data 5000;
           match outcome with
           | Normal status =>
               if response_ok status
               then Logged info "Webhook called successfully"
               else Logged warn "Webhook call failed"
           | Throws _ => Logged error "Webhook error"
           end])%list.
Proof.
  cbv zeta. unfold callWebhook, fetch, try_catch, bind, emit, external, log.
  destruct outcome as [status|e]; cbn [fst snd state database sessionFolder trace].
  - destruct (response_ok status); cbn; rewrite <- app_assoc; repeat split.
  - cbn. rewrite <- app_assoc. repeat split.
Qed.

(** A 404 from the subscriber is a warning, a timeout is an error. *)
Example callWebhook_not_found (target : string) (data : WebhookPayload) :
  trace (snd (callWebhook (Normal 404%Z) target data initial))
  = [Fetch "POST" target data 5000; Logged warn "Webhook call failed"].
Proof. reflexivity. Qed.

Example callWebhook_timeout (target : string) (data : WebhookPayload) :
  callWebhook (Throws "TimeoutError") target data initial
  = (Normal tt,
     {| state := State.new; database := Database.empty; sessionFolder := false;
        trace := [Fetch "POST" target data 5000; Logged error "Webhook error"] |}).
Proof. reflexivity. Qed.

End Webhook.

(* ===================================================================== *)
(** * How the primitives of the world compose *)
(* ===================================================================== *)

Section Frames.
Import Runtime.

Lemma keepsState_ret {A} (a : A) : keepsState (ret a).
Proof. intros w. reflexivity. Qed.

Lemma keepsState_emit (e : Effect) : keepsState (emit e).
Proof. intros w. reflexivity. Qed.

Lemma keepsState_log (l : LogLevel) (m : string) : keepsState (log l m).
Proof. intros w. reflexivity. Qed.

Lemma keepsState_external {A} (r : completion A) : keepsState (external r).
Proof. intros w. reflexivity. Qed.

Lemma keepsState_getDatabase : keepsState getDatabase.
Proof. intros w. reflexivity. Qed.

Lemma keepsState_putDatabase (db : Database.t) : keepsState (putDatabase db).
Proof. intros w. reflexivity. Qed.

Lemma keepsState_bind {A B} (c : M A) (k : A -> M B) :
  keepsState c -> (forall a, keepsState (k a)) -> keepsState (bind c k).
Proof.
  intros Hc Hk w. unfold bind. specialize (Hc w).
  destruct (c w) as [[a|e] w']; cbn [snd] in *.
  - now rewrite Hk.
  - exact Hc.
Qed.

Lemma keepsState_try_catch {A} (c : M A) (h : string -> M A) :
  keepsState c -> (forall e, keepsState (h e)) -> keepsState (try_catch c h).
Proof.
  intros Hc Hh w. unfold try_catch. specialize (Hc w).
  destruct (c w) as [[a|e] w']; cbn [snd] in *.
  - exact Hc.
  - now rewrite Hh.
Qed.

Lemma keepsState_forEach {A} (body : A -> M unit) (xs : list A) :
  (forall x, keepsState (body x)) -> keepsState (forEach body xs).
Proof.
  intros H. induction xs as [|x xs IH]; cbn [forEach].
  - apply keepsState_ret.
  - apply keepsState_bind; auto.
Qed.

Lemma keepsDatabase_ret {A} (a : A) : keepsDatabase (ret a).
Proof. intros w. reflexivity. Qed.

Lemma keepsDatabase_emit (e : Effect) : keepsDatabase (emit e).
Proof. intros w. reflexivity. Qed.

Lemma keepsDatabase_log (l : LogLevel) (m : string) : keepsDatabase (log l m).
Proof. intros w. reflexivity. Qed.

Lemma keepsDatabase_external {A} (r : completion A) : keepsDatabase (external r).
Proof. intros w. reflexivity. Qed.

Lemma keepsDatabase_getDatabase : keepsDatabase getDatabase.
Proof. intros w. reflexivity. Qed.

Lemma keepsDatabase_bind {A B} (c : M A) (k : A -> M B) :
  keepsDatabase c -> (forall a, keepsDatabase (k a)) -> keepsDatabase (bind c k).
Proof.
  intros Hc Hk w. unfold bind. specialize (Hc w).
  destruct (c w) as [[a|e] w']; cbn [snd] in *.
  - now rewrite Hk.
  - exact Hc.
Qed.

Lemma keepsDatabase_try_catch {A} (c : M A) (h : string -> M A) :
  keepsDatabase c -> (forall e, keepsDatabase (h e)) -> keepsDatabase (try_catch c h).
Proof.
  intros Hc Hh w. unfold try_catch. specialize (Hc w).
  destruct (c w) as [[a|e] w']; cbn [snd] in *.
  - exact Hc.
  - now rewrite Hh.
Qed.

Lemma total_ret {A} (a : A) : total (ret a).
Proof. intros w. now exists a. Qed.

Lemma total_log (l : LogLevel) (m : string) : total (log l m).
Proof. intros w. now exists tt. Qed.

Lemma total_emit (e : Effect) : total (emit e).
Proof. intros w. now exists tt. Qed.

Lemma total_bind {A B} (c : M A) (k : A -> M B) :
  total c -> (forall a, total (k a)) -> total (bind c k).
Proof.
  intros Hc Hk w. unfold bind. destruct (Hc w) as [a Ha].
  destruct (c w) as [[a'|e] w']; cbn [fst] in Ha; [|discriminate].
  apply Hk.
Qed.

Lemma total_unit (c : M unit) (w : World) : total c -> fst (c w) = Normal tt.
Proof. intros H. destruct (H w) as [[] E]. exact E. Qed.

Lemma total_try_catch {A} (c : M A) (h : string -> M A) :
  (forall e, total (h e)) -> total (try_catch c h).
Proof.
  intros Hh w. unfold try_catch.
  destruct (c w) as [[a|e] w']; [now exists a | apply Hh].
Qed.

End Frames.

Create HintDb frames.
#[local] Hint Resolve keepsState_ret keepsState_emit keepsState_log
  keepsState_external keepsState_getDatabase keepsState_putDatabase
  keepsState_bind keepsState_try_catch keepsState_forEach : frames.
#[local] Hint Resolve keepsDatabase_ret keepsDatabase_emit keepsDatabase_log
  keepsDatabase_external keepsDatabase_getDatabase
  keepsDatabase_bind keepsDatabase_try_catch : frames.
#[local] Hint Resolve total_ret total_log total_emit total_bind total_try_catch : frames.

(* ===================================================================== *)
(** * MessageIngestionPipeline *)
(* ===================================================================== *)

Section Ingestion.
Import Runtime WhatsApp.

(** The inner try/catch absorbs a failed download: the step always returns,
    with an image only when there was one to download and the download
    succeeded. *)
Lemma acquireMedia_spec (env : MessageEnv) (im : option ImageMessage) (w : World) :
  fst (acquireMedia env im w) =
    Normal (match im, download env with
            | Some _, Normal buf => ("image", Some buf)
            | _, _ => ("text", None)
            end)
  /\ database (snd (acquireMedia env im w)) = database w
  /\ state (snd (acquireMedia env im w)) = state w.
Proof.
  unfold acquireMedia. destruct im as [i|]; cbn [isSome].
  - unfold try_catch, bind, emit, external, log, ret.
    destruct (download env) as [buf|e]; cbn; auto.
  - cbn. auto.
Qed.

Lemma saveImage_None (env : MessageEnv) (i : nat) (w : World) :
  saveImage env i None w = (Normal None, w).
Proof. reflexivity. Qed.

Lemma keepsState_saveImage (env : MessageEnv) (i : nat) (b : option Buffer) :
  keepsState (saveImage env i b).
Proof. destruct b; cbn [saveImage]; auto 10 with frames. Qed.

(** Saving the image touches the [media_url] column at most. *)
Lemma saveImage_database (env : MessageEnv) (i : nat) (b : option Buffer) (w : World) :
  database (snd (saveImage env i b w)) = database w
  \/ exists u, database (snd (saveImage env i b w))
               = Database.updateMediaUrl (database w) u i.
Proof.
  destruct b as [buf|]; [|now left].
  unfold saveImage, bind, emit, external, getDatabase, putDatabase, log, ret.
  destruct (writeFile env) as [[]|e]; cbn; [right; eauto | now left].
Qed.

Lemma notifyWebhook_spec (env : MessageEnv) (i : nat) (from : option string)
    (text mediaType : string) (mediaUrl : option string) :
  keepsDatabase (notifyWebhook env i from text mediaType mediaUrl)
  /\ keepsState (notifyWebhook env i from text mediaType mediaUrl)
  /\ total (notifyWebhook env i from text mediaType mediaUrl).
Proof.
  unfold notifyWebhook. repeat split; intros w; unfold bind, getDatabase;
    destruct (Database.getWebhook (database w) "message.received") as [h|];
    try destruct (Js.truthy (Some (Database.url h)));
    cbn; eauto.
Qed.

Lemma keepsState_dbInsertMessage d p m s mt mu sn ts :
  keepsState (dbInsertMessage d p m s mt mu sn ts).
Proof. unfold dbInsertMessage. auto 10 with frames. Qed.

Lemma keepsState_storeIncoming env msg from text im :
  keepsState (storeIncoming env msg from text im).
Proof.
  unfold storeIncoming. apply keepsState_bind.
  - intros w. apply acquireMedia_spec.
  - intros media. apply keepsState_bind; [apply keepsState_dbInsertMessage|].
    intros i. apply keepsState_bind; [apply keepsState_saveImage|].
    intros u. apply keepsState_bind; [apply keepsState_log|].
    intros _. apply notifyWebhook_spec.
Qed.

(** Ingestion never touches the connection state. *)
Lemma keepsState_handleMessage (em : MessageEnv * WAMessage) :
  keepsState (handleMessage em).
Proof.
  unfold handleMessage. destruct (message (snd em)) as [content|]; [|auto with frames].
  apply keepsState_bind; [destruct (isLid _); auto with frames|].
  intros _. destruct (_ && _); [|auto with frames].
  apply keepsState_try_catch; [apply keepsState_storeIncoming | auto with frames].
Qed.

Lemma keepsState_onMessagesUpsert (type_ : string) (ms : list (MessageEnv * WAMessage)) :
  keepsState (onMessagesUpsert type_ ms).
Proof.
  unfold onMessagesUpsert. destruct (negb _); [auto with frames|].
  apply keepsState_forEach, keepsState_handleMessage.
Qed.

(** The row appended by [updateMediaUrl] stays the last row and keeps every
    column but [media_url]. *)
Lemma updateMediaUrl_last (db : Database.t) (u : option string) (i : nat)
    (rows : list Database.MessageRow) (row : Database.MessageRow) :
  Database.messages db = (rows ++ [row])%list ->
  exists rows' row',
    Database.messages (Database.updateMediaUrl db u i) = (rows' ++ [row'])%list
    /\ List.length rows' = List.length rows
    /\ Database.phone row' = Database.phone row
    /\ Database.message row' = Database.message row
    /\ Database.direction row' = Database.direction row
    /\ Database.media_type row' = Database.media_type row.
Proof.
  intros H. cbn [Database.updateMediaUrl Database.messages]. rewrite H, map_app.
  cbn [map]. eexists _, _. split; [reflexivity|]. rewrite length_map.
  destruct (Nat.eqb (Database.id row) i); cbn; auto 10.
Qed.

Ltac store_row :=
  eexists _, _; split; [reflexivity|]; rewrite ?length_map;
  repeat split; try reflexivity; intros; try discriminate.

(** What one stored message leaves in the database: one more row, the last
    one, carrying the resolved sender, the extracted text and the media kind
    decided by the download. When no image was kept the earlier rows are
    untouched, the new row has no media reference, and the outer try block
    ends normally. *)
Lemma storeIncoming_spec (env : MessageEnv) (msg : WAMessage) (jid text : string)
    (im : option ImageMessage) (w : World) :
  let kind := match im, download env with
              | Some _, Normal _ => "image"
              | _, _ => "text"
              end in
  let w' := snd (storeIncoming env msg (Some jid) text im w) in
  exists rows row,
    Database.messages (database w') = (rows ++ [row])%list
    /\ List.length rows = List.length (Database.messages (database w))
    /\ Database.phone row = jid
    /\ Database.message row = text
    /\ Database.direction row = "incoming"
    /\ Database.media_type row = Some kind
    /\ (kind = "text" ->
        rows = Database.messages (database w)
        /\ Database.media_url row = None
        /\ fst (storeIncoming env msg (Some jid) text im w) = Normal tt).
Proof.
  cbv zeta.
  unfold storeIncoming, acquireMedia, saveImage, notifyWebhook, dbInsertMessage,
    bind, try_catch, log, emit, external, ret, getDatabase, putDatabase,
    Database.insertMessage, Database.getWebhook.
  destruct im as [i|]; [destruct (download env) as [buf|e]|];
    cbn -[Js.numberToString String.append].
  - destruct (writeFile env) as [[]|e]; cbn -[Js.numberToString String.append].
    + destruct (find _ _) as [h|]; [destruct (negb _)|];
        cbn -[Js.numberToString String.append];
        rewrite map_app; cbn -[Js.numberToString String.append];
        rewrite Nat.eqb_refl; store_row.
    + store_row.
  - destruct (find _ _) as [h|]; [destruct (negb _)|]; cbn; store_row.
  - destruct (find _ _) as [h|]; [destruct (negb _)|]; cbn; store_row.
Qed.

Lemma resolveFrom_Some (k : MessageKey) (jid : string) :
  remoteJid k = Some jid -> exists j, resolveFrom k = Some j.
Proof.
  intros H. unfold resolveFrom. rewrite H.
  destruct (isLid (Some jid)); [|eauto].
  destruct (participant k) as [q|]; cbn [hasRealNumber]; [|eauto].
  destruct (_ && _); eauto.
Qed.

(** The loop body stores what [storeIncoming] stores: the log line before
    it and the outer catch after it leave the database alone. *)
Lemma handleMessage_stores (env : MessageEnv) (msg : WAMessage)
    (content : MessageContent) (jid : string) (w : World) :
  message msg = Some content ->
  fromMe (key msg) = false ->
  Js.truthy (Some (extractText content)) || isSome (imageMessage content) = true ->
  resolveFrom (key msg) = Some jid ->
  let kind := match imageMessage content, download env with
              | Some _, Normal _ => "image"
              | _, _ => "text"
              end in
  let w' := snd (handleMessage (env, msg) w) in
  fst (handleMessage (env, msg) w) = Normal tt
  /\ state w' = state w
  /\ exists rows row,
       Database.messages (database w') = (rows ++ [row])%list
       /\ List.length rows = List.length (Database.messages (database w))
       /\ Database.phone row = jid
       /\ Database.message row = extractText content
       /\ Database.direction row = "incoming"
       /\ Database.media_type row = Some kind
       /\ (kind = "text" ->
           rows = Database.messages (database w)
           /\ Database.media_url row = None).
Proof.
  intros Hm Hf Ht Hr kind w'.
  split; [|split; [apply keepsState_handleMessage|]].
  - unfold handleMessage. cbn [fst snd]. rewrite Hm, Hf, Ht. cbn [negb andb].
    apply total_unit. apply total_bind; [destruct (isLid _); auto with frames|].
    intros _. auto with frames.
  - subst w'. unfold handleMessage. cbn [fst snd]. rewrite Hm, Hf, Ht, Hr.
    cbn [negb andb]. unfold bind at 1.
    set (w0 := snd ((if isLid (remoteJid (key msg))
                     then log info "LID message detected" else ret tt) w)).
    assert (E0 : (if isLid (remoteJid (key msg))
                  then log info "LID message detected" else ret tt) w
                 = (Normal tt, w0))
      by (subst w0; destruct (isLid _); reflexivity).
    assert (D0 : database w0 = database w)
      by (subst w0; destruct (isLid _); reflexivity).
    rewrite E0.
    destruct (storeIncoming_spec env msg jid (extractText content)
                (imageMessage content) w0)
      as (rows & row & E & L & P & Mg & Dr & Mt & Tx).
    exists rows, row. rewrite D0 in L, Tx.
    assert (Ed : database (snd (try_catch
                   (storeIncoming env msg (Some jid) (extractText content)
                      (imageMessage content))
                   (fun _ => log error "Failed to store message:") w0))
                 = database (snd (storeIncoming env msg (Some jid)
                      (extractText content) (imageMessage content) w0))).
    { unfold try_catch. destruct (storeIncoming _ _ _ _ _ w0) as [[a|e] w1]; reflexivity. }
    rewrite Ed. repeat split; try assumption; apply Tx; assumption.
Qed.

(** A one-message batch of type notify is handled as its only message. *)
Lemma onMessagesUpsert_single (em : MessageEnv * WAMessage) (w : World) :
  fst (handleMessage em w) = Normal tt ->
  onMessagesUpsert "notify" [em] w = handleMessage em w.
Proof.
  intros H. unfold onMessagesUpsert. cbn [String.eqb negb forEach]. cbn.
  unfold bind, ret. destruct (handleMessage em w) as [[[]|e] w']; cbn in *;
    [reflexivity | discriminate].
Qed.

(** C3, as stated, fails: a plain-text body that is present but empty does
    not win over a non-empty extended-text body. *)
Lemma text_precedence_counterexample :
  let m := {| conversation := Some "";
              extendedTextMessage := Some {| etm_text := Some "hello" |};
              imageMessage := None |} in
  conversation m = Some ""
  /\ extractText m = "hello"
  /\ firstPresentText m = ""
  /\ extractText m <> firstPresentText m.
Proof. cbv zeta. repeat split. discriminate. Qed.

(** C3 (amended): the extracted text is the plain-text body when that is
    present and non-empty; otherwise the extended-text body when that is
    present and non-empty; otherwise the image caption when that is present
    and non-empty; otherwise the empty string. *)
Theorem text_precedence (m : MessageContent) :
  let plain := conversation m in
  let extended := match extendedTextMessage m with
                  | Some e => etm_text e
                  | None => None
                  end in
  let cap := match imageMessage m with
             | Some i => caption i
             | None => None
             end in
  (forall s, plain = Some s -> s <> "" -> extractText m = s)
  /\ (Js.truthy plain = false ->
      forall s, extended = Some s -> s <> "" -> extractText m = s)
  /\ (Js.truthy plain = false -> Js.truthy extended = false ->
      forall s, cap = Some s -> s <> "" -> extractText m = s)
  /\ (Js.truthy plain = false -> Js.truthy extended = false ->
      Js.truthy cap = false -> extractText m = "").
Proof.
  cbv zeta. unfold extractText, Js.or. repeat split.
  - intros s -> Hs. now rewrite (proj2 (truthy_Some s) Hs).
  - intros -> s -> Hs. now rewrite (proj2 (truthy_Some s) Hs).
  - intros -> -> s -> Hs. now rewrite (proj2 (truthy_Some s) Hs).
  - intros -> -> ->. reflexivity.
Qed.

Lemma text_precedence_witness :
  extractText {| conversation := Some "hi"; extendedTextMessage := None;
                 imageMessage := None |} = "hi"
  /\ extractText {| conversation := Some "";
                    extendedTextMessage := Some {| etm_text := Some "hello" |};
                    imageMessage := None |} = "hello"
  /\ extractText {| conversation := None; extendedTextMessage := None;
                    imageMessage := Some {| caption := Some "look" |} |} = "look"
  /\ extractText {| conversation := None; extendedTextMessage := None;
                    imageMessage := Some {| caption := None |} |} = "".
Proof.
  split; [|split; [|split]].
  - destruct (text_precedence {| conversation := Some "hi"; extendedTextMessage := None;
                                 imageMessage := None |}) as (H & _).
    apply H; [reflexivity | discriminate].
  - destruct (text_precedence {| conversation := Some "";
                                 extendedTextMessage := Some {| etm_text := Some "hello" |};
                                 imageMessage := None |}) as (_ & H & _).
    apply H; [reflexivity | reflexivity | discriminate].
  - destruct (text_precedence {| conversation := None; extendedTextMessage := None;
                                 imageMessage := Some {| caption := Some "look" |} |})
      as (_ & _ & H & _).
    apply H; [reflexivity | reflexivity | reflexivity | discriminate].
  - destruct (text_precedence {| conversation := None; extendedTextMessage := None;
                                 imageMessage := Some {| caption := None |} |})
      as (_ & _ & _ & H).
    apply H; reflexivity.
Defined.

(** The text of an image event without a plain or extended body, or with
    empty ones, is its caption, and empty when there is none. *)
Lemma extractText_caption (m : MessageContent) (im : ImageMessage) :
  Js.truthy (conversation m) = false ->
  Js.truthy (match extendedTextMessage m with
             | Some e => etm_text e
             | None => None
             end) = false ->
  imageMessage m = Some im ->
  extractText m = match caption im with Some c => c | None => "" end.
Proof.
  intros Hc He Hi. unfold extractText, Js.or. rewrite Hc, He, Hi.
  destruct (caption im) as [c|]; [|reflexivity]. cbn [Js.truthy].
  destruct (String.eqb_spec c ""); cbn [negb]; congruence.
Qed.

(** A non-empty plain body is the text; failing that, a non-empty extended
    body is. *)
Lemma extractText_body (m : MessageContent) (s : string) :
  s <> "" ->
  (conversation m = Some s -> extractText m = s)
  /\ (Js.truthy (conversation m) = false ->
      match extendedTextMessage m with
      | Some e => etm_text e
      | None => None
      end = Some s ->
      extractText m = s).
Proof.
  intros Hs. unfold extractText, Js.or. split.
  - intros ->. now rewrite (proj2 (truthy_Some s) Hs).
  - intros -> ->. now rewrite (proj2 (truthy_Some s) Hs).
Qed.

(** C6: when the sender address ends in '@lid' and a participant address is
    present and contains '@s.whatsapp.net', the counterparty is the
    participant address; for every other event it is the sender address as
    given; and the row the handler persists carries that counterparty. *)
Theorem counterparty_identity (env : MessageEnv) (msg : WAMessage) (w : World) :
  let k := key msg in
  (forall sender part,
      remoteJid k = Some sender -> Js.endsWith "@lid" sender = true ->
      participant k = Some part -> Js.includes "@s.whatsapp.net" part = true ->
      resolveFrom k = Some part)
  /\ (~ (exists sender part,
          remoteJid k = Some sender /\ Js.endsWith "@lid" sender = true /\
          participant k = Some part /\ Js.includes "@s.whatsapp.net" part = true) ->
      resolveFrom k = remoteJid k)
  /\ (forall content jid,
        message msg = Some content ->
        fromMe k = false ->
        Js.truthy (Some (extractText content)) || isSome (imageMessage content) = true ->
        resolveFrom k = Some jid ->
        exists rows row,
          Database.messages (database (snd (handleMessage (env, msg) w)))
            = (rows ++ [row])%list
          /\ List.length rows = List.length (Database.messages (database w))
          /\ Database.phone row = jid).
Proof.
  cbv zeta. repeat split.
  - intros sender part Hs Hl Hp Hi. unfold resolveFrom. rewrite Hs, Hp.
    cbn [isLid hasRealNumber]. rewrite Hl, Hi, !andb_true_r.
    assert (Ts : Js.truthy (Some sender) = true).
    { apply truthy_Some. intros ->. discriminate. }
    assert (Tp : Js.truthy (Some part) = true).
    { apply truthy_Some. intros ->. discriminate. }
    now rewrite Ts, Tp.
  - intros Hn. unfold resolveFrom.
    destruct (remoteJid (key msg)) as [sender|] eqn:Hs; [|reflexivity].
    cbn [isLid]. destruct (Js.endsWith "@lid" sender) eqn:Hl;
      [|now rewrite andb_false_r].
    destruct (Js.truthy (Some sender)); cbn [andb]; [|reflexivity].
    destruct (participant (key msg)) as [part|] eqn:Hp; [|reflexivity].
    cbn [hasRealNumber]. destruct (Js.includes "@s.whatsapp.net" part) eqn:Hi;
      [|now rewrite andb_false_r].
    exfalso. apply Hn. exists sender, part. auto.
  - intros content jid Hm Hf Ht Hr.
    destruct (handleMessage_stores env msg content jid w Hm Hf Ht Hr)
      as (_ & _ & rows & row & E & L & P & _).
    exists rows, row. auto.
Qed.

Lemma counterparty_identity_witness :
  let env := {| download := Throws "unused"; writeFile := Normal tt;
                istTimestamp := "2025-01-01 10:00:00";
                isoTimestamp := "2025-01-01T04:30:00.000Z" |} in
  let lid := {| key := {| remoteJid := Some "77001122@lid";
                          participant := Some "919812345678@s.whatsapp.net";
                          fromMe := false |};
                message := Some {| conversation := Some "hello";
                                   extendedTextMessage := None;
                                   imageMessage := None |};
                pushName := Some "Asha" |} in
  let direct := {| key := {| remoteJid := Some "919812345678@s.whatsapp.net";
                             participant := None; fromMe := false |};
                   message := Some {| conversation := Some "hello";
                                      extendedTextMessage := None;
                                      imageMessage := None |};
                   pushName := None |} in
  resolveFrom (key lid) = Some "919812345678@s.whatsapp.net"
  /\ resolveFrom (key direct) = remoteJid (key direct)
  /\ exists rows row,
        Database.messages (database (snd (handleMessage (env, lid) initial)))
          = (rows ++ [row])%list
        /\ List.length rows = 0
        /\ Database.phone row = "919812345678@s.whatsapp.net".
Proof.
  intros env lid direct. split; [|split].
  - destruct (counterparty_identity env lid initial) as (H & _).
    apply (H "77001122@lid"); reflexivity.
  - destruct (counterparty_identity env direct initial) as (_ & H & _).
    apply H. intros (sender & part & Hs & Hl & _).
    injection Hs as <-. vm_compute in Hl. discriminate Hl.
  - destruct (counterparty_identity env lid initial) as (_ & _ & H).
    apply (H {| conversation := Some "hello"; extendedTextMessage := None;
                imageMessage := None |}); reflexivity.
Defined.

(** C2, as stated, fails in its text part: an image event that also
    carries a plain-text body, and whose download throws, is persisted with
    that body as its text, not with the caption that was present. *)
Lemma media_failure_fails_open_counterexample :
  let env := {| download := Throws "ECONNRESET"; writeFile := Normal tt;
                istTimestamp := "2025-01-01 10:00:00";
                isoTimestamp := "2025-01-01T04:30:00.000Z" |} in
  let image := {| caption := Some "our cat" |} in
  let msg := {| key := {| remoteJid := Some "919812345678@s.whatsapp.net";
                          participant := None; fromMe := false |};
                message := Some {| conversation := Some "hi";
                                   extendedTextMessage := None;
                                   imageMessage := Some image |};
                pushName := Some "Asha" |} in
  let r := onMessagesUpsert "notify" [(env, msg)] initial in
  caption image = Some "our cat"
  /\ fst r = Normal tt
  /\ map Database.media_type (Database.messages (database (snd r))) = [Some "text"]
  /\ map Database.media_url (Database.messages (database (snd r))) = [None]
  /\ map Database.message (Database.messages (database (snd r))) = ["hi"]
  /\ map Database.message (Database.messages (database (snd r))) <> ["our cat"].
Proof. cbv zeta. repeat split. discriminate. Qed.

(** C2 (amended): an inbound image event whose download throws is still
    persisted: the handler returns normally and appends one row with media
    type 'text', no media reference and, as its text, the extracted text
    of the event: the plain-text body when that is present and non-empty,
    else the extended-text body when that is present and non-empty, else
    the caption (empty when there is none). *)
Theorem media_failure_fails_open (env : MessageEnv) (msg : WAMessage)
    (content : MessageContent) (im : ImageMessage) (jid e : string) (w : World) :
  message msg = Some content ->
  imageMessage content = Some im ->
  fromMe (key msg) = false ->
  remoteJid (key msg) = Some jid ->
  download env = Throws e ->
  let r := onMessagesUpsert "notify" [(env, msg)] w in
  let plain := conversation content in
  let extended := match extendedTextMessage content with
                  | Some x => etm_text x
                  | None => None
                  end in
  fst r = Normal tt
  /\ exists row,
       Database.messages (database (snd r))
         = (Database.messages (database w) ++ [row])%list
       /\ Database.direction row = "incoming"
       /\ Database.media_type row = Some "text"
       /\ Database.media_url row = None
       /\ Database.message row = extractText content
       /\ (forall s, plain = Some s -> s <> "" -> Database.message row = s)
       /\ (Js.truthy plain = false ->
           forall s, extended = Some s -> s <> "" -> Database.message row = s)
       /\ (Js.truthy plain = false -> Js.truthy extended = false ->
           Database.message row = match caption im with Some c => c | None => "" end).
Proof.
  intros Hm Hi Hf Hj Hd r plain extended.
  destruct (resolveFrom_Some _ _ Hj) as [j Hr].
  assert (Ht : Js.truthy (Some (extractText content))
               || isSome (imageMessage content) = true)
    by (rewrite Hi; apply orb_true_r).
  destruct (handleMessage_stores env msg content j w Hm Hf Ht Hr)
    as (Hn & _ & rows & row & E & _ & _ & Mg & Dr & Mt & Tx).
  rewrite Hi, Hd in Mt, Tx. destruct (Tx eq_refl) as [-> Mu].
  subst r. rewrite (onMessagesUpsert_single _ _ Hn).
  split; [exact Hn|]. exists row.
  split; [exact E|]. split; [exact Dr|]. split; [exact Mt|]. split; [exact Mu|].
  split; [exact Mg|]. rewrite Mg. split; [|split].
  - intros s Hp Hs. exact (proj1 (extractText_body content s Hs) Hp).
  - intros Hp s Hx Hs. exact (proj2 (extractText_body content s Hs) Hp Hx).
  - intros Hp Hx. now apply extractText_caption.
Qed.

Lemma media_failure_fails_open_witness :
  let env := {| download := Throws "ECONNRESET"; writeFile := Normal tt;
                istTimestamp := "2025-01-01 10:00:00";
                isoTimestamp := "2025-01-01T04:30:00.000Z" |} in
  let event plain :=
    {| key := {| remoteJid := Some "919812345678@s.whatsapp.net";
                 participant := None; fromMe := false |};
       message := Some {| conversation := plain;
                          extendedTextMessage := None;
                          imageMessage := Some {| caption := Some "our cat" |} |};
       pushName := Some "Asha" |} in
  let stored plain := onMessagesUpsert "notify" [(env, event plain)] initial in
  (fst (stored (Some "")) = Normal tt
   /\ exists row,
        Database.messages (database (snd (stored (Some "")))) = [row]
        /\ Database.direction row = "incoming"
        /\ Database.media_type row = Some "text"
        /\ Database.media_url row = None
        /\ Database.message row = "our cat")
  /\ (exists row,
        Database.messages (database (snd (stored (Some "hi")))) = [row]
        /\ Database.media_type row = Some "text"
        /\ Database.message row = "hi").
Proof.
  intros env event stored. split.
  - destruct (media_failure_fails_open env (event (Some ""))
                {| conversation := Some ""; extendedTextMessage := None;
                   imageMessage := Some {| caption := Some "our cat" |} |}
                {| caption := Some "our cat" |}
                "919812345678@s.whatsapp.net" "ECONNRESET" initial
                eq_refl eq_refl eq_refl eq_refl eq_refl)
      as (Hn & row & E & Dr & Mt & Mu & _ & _ & _ & Cap).
    split; [exact Hn|]. exists row.
    split; [exact E | split; [exact Dr | split; [exact Mt | split; [exact Mu|]]]].
    exact (Cap eq_refl eq_refl).
  - destruct (media_failure_fails_open env (event (Some "hi"))
                {| conversation := Some "hi"; extendedTextMessage := None;
                   imageMessage := Some {| caption := Some "our cat" |} |}
                {| caption := Some "our cat" |}
                "919812345678@s.whatsapp.net" "ECONNRESET" initial
                eq_refl eq_refl eq_refl eq_refl eq_refl)
      as (_ & row & E & _ & Mt & _ & _ & Plain & _).
    exists row. split; [exact E | split; [exact Mt|]].
    apply Plain; [reflexivity | discriminate].
Defined.

(** The same event run to its end: the failure is logged, the row is
    stored, nothing is written to the media folder. *)
Example media_failure_trace :
  snd (onMessagesUpsert "notify"
         [({| download := Throws "ECONNRESET"; writeFile := Normal tt;
              istTimestamp := "2025-01-01 10:00:00";
              isoTimestamp := "2025-01-01T04:30:00.000Z" |},
           {| key := {| remoteJid := Some "919812345678@s.whatsapp.net";
                        participant := None; fromMe := false |};
              message := Some {| conversation := None;
                                 extendedTextMessage := None;
                                 imageMessage := Some {| caption := Some "our cat" |} |};
              pushName := Some "Asha" |})] initial)
  = {| state := State.new;
       database :=
         {| Database.messages :=
              [{| Database.id := 1; Database.direction := "incoming";
                  Database.phone := "919812345678@s.whatsapp.net";
                  Database.sender_name := Some "Asha";
                  Database.message := "our cat";
                  Database.reply_status := "unread";
                  Database.media_type := Some "text";
                  Database.media_url := None;
                  Database.created_at := "2025-01-01 10:00:00" |}];
            Database.messages_seq := 1;
            Database.api_keys := []; Database.api_keys_seq := 0;
            Database.webhooks := [] |};
       sessionFolder := false;
       trace := [DownloadMedia;
                 Logged error "Failed to download image:";
                 Logged info "Message received"] |}.
Proof. reflexivity. Qed.

(** A downloaded image, for comparison: the row is inserted first, the file
    is named after its id, the row's media reference is then set, and the
    subscriber is notified without waiting. *)
Example image_stored :
  let hook := {| Database.wh_id := 1; Database.url := "https://example.org/hook";
                 Database.event := "message.received"; Database.active := 1 |} in
  let w := {| state := State.new;
              database := {| Database.messages := []; Database.messages_seq := 0;
                             Database.api_keys := []; Database.api_keys_seq := 0;
                             Database.webhooks := [hook] |};
              sessionFolder := false; trace := [] |} in
  let r := onMessagesUpsert "notify"
             [({| download := Normal [255; 216; 255]%N; writeFile := Normal tt;
                  istTimestamp := "2025-01-01 10:00:00";
                  isoTimestamp := "2025-01-01T04:30:00.000Z" |},
               {| key := {| remoteJid := Some "919812345678@s.whatsapp.net";
                            participant := None; fromMe := false |};
                  message := Some {| conversation := None;
                                     extendedTextMessage := None;
                                     imageMessage := Some {| caption := None |} |};
                  pushName := None |})] w in
  Database.messages (database (snd r))
  = [{| Database.id := 1; Database.direction := "incoming";
        Database.phone := "919812345678@s.whatsapp.net";
        Database.sender_name := None; Database.message := "";
        Database.reply_status := "unread";
        Database.media_type := Some "image";
        Database.media_url := Some "1.jpg";
        Database.created_at := "2025-01-01 10:00:00" |}]
  /\ trace (snd r)
     = [DownloadMedia; WriteFile "1.jpg" [255; 216; 255]%N;
        Logged info "Image downloaded"; Logged info "Message received";
        CallWebhookDetached "https://example.org/hook"
          {| wp_event := "message.received"; wp_id := 1;
             wp_from := Some "919812345678@s.whatsapp.net"; wp_text := "";
             wp_mediaType := "image"; wp_mediaUrl := Some "1.jpg";
             wp_timestamp := "2025-01-01T04:30:00.000Z" |}].
Proof. cbv zeta. split; reflexivity. Qed.

End Ingestion.

(* ===================================================================== *)
(** * ConnectionManager *)
(* ===================================================================== *)

Section Connection.
Import Runtime Routes WhatsApp.

(** ** POST /logout *)

(** Without a stored socket the handler answers 400 and does nothing. *)
Lemma logoutHandler_no_socket (terminate purge : completion unit) (w : World) :
  State.sock (state w) = None ->
  logoutHandler terminate purge w = (Normal (json 400 false "Not connected"), w).
Proof.
  intros H. unfold logoutHandler, bind, getState. now rewrite H.
Qed.

(** With a stored socket the handler calls [sock.logout()], whatever the
    connection status is. *)
Lemma logoutHandler_calls_logout (terminate purge : completion unit) (s : State.Sock)
    (w : World) :
  State.sock (state w) = Some s ->
  exists rest, trace (snd (logoutHandler terminate purge w))
               = (trace w ++ SockLogout s :: rest)%list.
Proof.
  intros H. unfold logoutHandler, bind at 1, getState. rewrite H.
  unfold try_catch, bind, emit, external, modifyState, existsSession, rmSession,
    sessionRemoved, bind, emit, external, getState, log, ret.
  destruct terminate as [[]|e]; cbn.
  - destruct (sessionFolder w); cbn; [destruct purge as [[]|x]; cbn|];
      try (destruct (State.reconnectFn (state w)); cbn);
      rewrite <- ?app_assoc; cbn; eauto.
  - rewrite <- app_assoc. cbn. eauto.
Qed.

(** When [sock.logout()] throws, control goes straight to the catch block. *)
Lemma logoutHandler_throws (e : string) (purge : completion unit) (s : State.Sock)
    (w : World) :
  State.sock (state w) = Some s ->
  logoutHandler (Throws e) purge w
  = (Normal (json 500 false "Logout failed"),
     {| state := state w; database := database w;
        sessionFolder := sessionFolder w;
        trace := (trace w ++ [SockLogout s; Logged error "Logout error:"])%list |}).
Proof.
  intros H. unfold logoutHandler, try_catch, bind, getState, emit, external, log, ret.
  cbn. rewrite H. cbn. now rewrite <- app_assoc.
Qed.

(** C4 fails on the code: after start-up, with a pairing challenge on offer
    and nobody connected (the status the specification calls
    AwaitingPairing), POST /logout is not answered with 400: the handler
    calls sock.logout(), deletes the session folder, schedules a
    reconnection after 3000 ms and answers 200. The guard looks at the
    stored socket, not at the connection status. *)
Theorem logout_while_awaiting_pairing :
  let started :=
    snd (initializeWhatsApp 1
           {| state := State.new; database := Database.empty;
              sessionFolder := true; trace := [] |}) in
  let challenge :=
    Update {| toDataURL := Normal "data:image/png;base64,iVBORw0KGgo=";
              user_id := None |}
           {| connection := None; statusCode := None;
              qr := Some "2@k3Jx,Yb8=,Qw==" |} in
  let w := handle challenge started in
  specStatus [Connect 1; challenge] = AwaitingPairing
  /\ State.connected (state w) = false
  /\ State.qrCode (state w) = Some "data:image/png;base64,iVBORw0KGgo="
  /\ fst (logoutHandler (Normal tt) (Normal tt) w)
     = Normal (json 200 true
                 "Logged out successfully. Reconnecting to generate new QR code...")
  /\ trace (snd (logoutHandler (Normal tt) (Normal tt) w))
     = (trace w ++
        [SockLogout 1; RmSession; Logged info "Session folder deleted";
         Logged info "Triggering reconnection for new QR code...";
         SetTimeout State.connectToWhatsAppFn 3000;
         Logged info "Logged out successfully"])%list
  /\ sessionFolder (snd (logoutHandler (Normal tt) (Normal tt) w)) = false.
Proof. cbv zeta. repeat split. Qed.

(** C5: when sock.logout() throws during POST /logout, the caller gets
    500 "Logout failed" whatever was thrown, and nothing after the call
    happens: the connection state, the session folder and the database are
    as before, and the only effects are the attempted logout and the error
    log line (no purge, no timer). *)
Theorem logout_failure_is_surfaced (req : Request) (e : string)
    (purge : completion unit) (s : State.Sock) (w : World) :
  authenticateApiKey (database w) req = Next ->
  State.sock (state w) = Some s ->
  let r := postLogout req (Throws e) purge w in
  fst r = Normal (json 500 false "Logout failed")
  /\ state (snd r) = state w
  /\ sessionFolder (snd r) = sessionFolder w
  /\ database (snd r) = database w
  /\ trace (snd r) = (trace w ++ [SockLogout s; Logged error "Logout error:"])%list.
Proof.
  intros Ha Hs. cbv zeta.
  assert (E : postLogout req (Throws e) purge w = logoutHandler (Throws e) purge w).
  { unfold postLogout, bind, getDatabase. cbn. now rewrite Ha. }
  rewrite E, (logoutHandler_throws e purge s w Hs). cbn. repeat split.
Qed.

Lemma logout_failure_is_surfaced_witness :
  let w := {| state := State.setConnected
                         (State.setSock State.new (Some 1)) true (Some "919812345678");
              database := snd (Database.ensureApiKey Database.empty "c2VjcmV0" 0);
              sessionFolder := true;
              trace := [] |} in
  let r := postLogout {| x_api_key := Some "c2VjcmV0"; authorization := None |}
             (Throws "Connection Closed") (Normal tt) w in
  fst r = Normal (json 500 false "Logout failed")
  /\ state (snd r) = state w
  /\ sessionFolder (snd r) = true
  /\ database (snd r) = database w
  /\ trace (snd r) = [SockLogout 1; Logged error "Logout error:"].
Proof.
  intros w r.
  exact (logout_failure_is_surfaced
           {| x_api_key := Some "c2VjcmV0"; authorization := None |}
           "Connection Closed" (Normal tt) 1 w eq_refl eq_refl).
Defined.

(** ** The state invariant *)

(** The connection state after one update, by the cases the handler
    distinguishes. *)
Lemma onConnectionUpdate_state (env : UpdateEnv) (update : ConnectionUpdate) (w : World) :
  state (snd (onConnectionUpdate env update w)) =
    let st1 := if Js.truthy (qr update) then
                 match toDataURL env with
                 | Normal qrDataUrl => State.setQrCode (state w) (Some qrDataUrl)
                 | Throws _ => state w
                 end
               else state w in
    match connection update with
    | Some close =>
        let st2 := State.setConnected st1 false None in
        match statusCode update with
        | Some c => if (c =? loggedOut)%Z then State.setQrCode st2 None else st2
        | None => st2
        end
    | Some open =>
        State.setQrCode
          (State.setConnected st1 true
             (option_map (fun i => hd EmptyString (Js.split ":" i)) (user_id env)))
          None
    | _ => st1
    end.
Proof.
  unfold onConnectionUpdate, try_catch, bind, external, modifyState, log, emit, ret.
  destruct (Js.truthy (qr update)); [destruct (toDataURL env) as [u|e]|];
    (destruct (connection update) as [[| |]|];
     [destruct (statusCode update) as [c|]; [destruct (c =? loggedOut)%Z|]| | |]);
    reflexivity.
Qed.

(** The state after a logout request: untouched (no socket, or
    [sock.logout()] threw), or reset; it is reset before the session
    folder is removed, so also when that removal throws. *)
Lemma logoutHandler_state (terminate purge : completion unit) (w : World) :
  state (snd (logoutHandler terminate purge w)) = state w
  \/ state (snd (logoutHandler terminate purge w))
     = State.setSock (State.setConnected (state w) false None) None.
Proof.
  unfold logoutHandler, try_catch, bind, getState, emit, external, modifyState,
    existsSession, rmSession, sessionRemoved, bind, emit, external, log, ret. cbn.
  destruct (State.sock (state w)) as [s|]; [|now left].
  destruct terminate as [[]|e]; cbn; [|now left].
  destruct (sessionFolder w); cbn; [destruct purge as [[]|x]; cbn|];
    try (destruct (State.reconnectFn (state w)); cbn); now right.
Qed.

(** A close for any reason but an explicit logout keeps the pairing
    material and schedules a reconnection after 5000 ms; an explicit logout
    clears it and schedules one after 2000 ms. *)
Example close_transient :
  onConnectionUpdate {| toDataURL := Normal "unused"; user_id := None |}
    {| connection := Some close; statusCode := Some 428%Z; qr := None |}
    {| state := State.setQrCode (State.setSock State.new (Some 1)) (Some "data:image/png;base64,AA==");
       database := Database.empty; sessionFolder := true; trace := [] |}
  = (Normal tt,
     {| state := State.setQrCode (State.setSock State.new (Some 1)) (Some "data:image/png;base64,AA==");
        database := Database.empty; sessionFolder := true;
        trace := [Logged info "Connection closed";
                  Logged info "Reconnecting in 5 seconds...";
                  SetTimeout State.connectToWhatsAppFn 5000] |}).
Proof. reflexivity. Qed.

Example close_logged_out :
  onConnectionUpdate {| toDataURL := Normal "unused"; user_id := None |}
    {| connection := Some close; statusCode := Some loggedOut; qr := None |}
    {| state := State.setConnected (State.setSock State.new (Some 1)) true (Some "919812345678");
       database := Database.empty; sessionFolder := true; trace := [] |}
  = (Normal tt,
     {| state := State.setSock State.new (Some 1);
        database := Database.empty; sessionFolder := true;
        trace := [Logged info "Connection closed";
                  Logged info "Logged out. QR scan required.";
                  SetTimeout State.connectToWhatsAppFn 2000] |}).
Proof. reflexivity. Qed.

(** An identity is only ever stored together with [connected = true]. *)
Lemma identity_implies_connected_step (e : Event) (w : World) :
  (State.phone (state w) <> None -> State.connected (state w) = true) ->
  State.phone (state (handle e w)) <> None ->
  State.connected (state (handle e w)) = true.
Proof.
  intros I. destruct e as [s|env update|terminate purge|type_ ms]; cbn [handle].
  - exact I.
  - rewrite onConnectionUpdate_state. cbv zeta.
    destruct (Js.truthy (qr update)); [destruct (toDataURL env) as [u|x]|];
      (destruct (connection update) as [[| |]|];
       [destruct (statusCode update) as [c|]; [destruct (c =? loggedOut)%Z|]| | |]);
      cbn; auto; congruence.
  - destruct (logoutHandler_state terminate purge w) as [-> | ->]; cbn;
      [exact I | congruence].
  - now rewrite keepsState_onMessagesUpsert.
Qed.

(** Under the library's promises the whole invariant is kept by every
    handler. *)
Lemma invariant_step (e : Event) (w : World) :
  conforms e w = true ->
  (State.connected (state w) = true -> State.phone (state w) <> None) ->
  (State.qrCode (state w) <> None -> State.connected (state w) = false) ->
  (State.connected (state (handle e w)) = true -> State.phone (state (handle e w)) <> None)
  /\ (State.qrCode (state (handle e w)) <> None ->
      State.connected (state (handle e w)) = false).
Proof.
  intros C I1 I2. destruct e as [s|env update|terminate purge|type_ ms]; cbn [handle].
  - split; assumption.
  - rewrite onConnectionUpdate_state. cbv zeta. cbn [conforms] in C.
    destruct (connection update) as [[| |]|].
    + destruct (Js.truthy (qr update)); [destruct (toDataURL env) as [u|x]|];
        (destruct (statusCode update) as [c|]; [destruct (c =? loggedOut)%Z|]);
        cbn; split; congruence.
    + destruct (user_id env) as [i|]; [|discriminate].
      destruct (Js.truthy (qr update)); [destruct (toDataURL env) as [u|x]|];
        cbn; split; congruence.
    + destruct (Js.truthy (qr update)); [|split; assumption].
      cbn [negb orb] in C. apply negb_true_iff in C.
      destruct (toDataURL env) as [u|x]; cbn; [|split; assumption].
      split; congruence.
    + destruct (Js.truthy (qr update)); [|split; assumption].
      cbn [negb orb] in C. apply negb_true_iff in C.
      destruct (toDataURL env) as [u|x]; cbn; [|split; assumption].
      split; congruence.
  - destruct (logoutHandler_state terminate purge w) as [-> | ->]; cbn;
      [split; assumption | split; congruence].
  - rewrite keepsState_onMessagesUpsert. split; assumption.
Qed.

Lemma run_identity_implies_connected (events : list Event) (w : World) :
  (State.phone (state w) <> None -> State.connected (state w) = true) ->
  State.phone (state (run events w)) <> None ->
  State.connected (state (run events w)) = true.
Proof.
  revert w. induction events as [|e events IH]; intros w I; cbn [run fold_left].
  - exact I.
  - apply IH. now apply identity_implies_connected_step.
Qed.

Lemma run_invariant (events : list Event) (w : World) :
  conformingRun events w = true ->
  (State.connected (state w) = true -> State.phone (state w) <> None) ->
  (State.qrCode (state w) <> None -> State.connected (state w) = false) ->
  (State.connected (state (run events w)) = true ->
   State.phone (state (run events w)) <> None)
  /\ (State.qrCode (state (run events w)) <> None ->
      State.connected (state (run events w)) = false).
Proof.
  revert w. induction events as [|e events IH]; intros w C I1 I2;
    cbn [run fold_left conformingRun] in *.
  - split; assumption.
  - apply andb_true_iff in C as [Ce Cr].
    destruct (invariant_step e w Ce I1 I2) as [J1 J2].
    now apply IH.
Qed.

(** The code's flag and the specification's status agree on Connected
    after every signal the specification describes for a session that
    keeps the library's promises, when a logout request finds the handle
    the specification assumes. *)
Lemma connected_iff_specStatus_step (e : Event) (w : World) (s : Status) :
  conforms e w = true ->
  (State.connected (state w) = true -> State.sock (state w) <> None) ->
  (State.connected (state w) = true <-> s = Connected) ->
  (State.connected (state (handle e w)) = true <-> specStep s e = Connected).
Proof.
  intros C K J. destruct e as [k|env update|terminate purge|type_ ms];
    cbn [handle specStep].
  - cbn. exact J.
  - rewrite onConnectionUpdate_state. cbv zeta. cbn [conforms] in C.
    destruct (connection update) as [[| |]|].
    + destruct (Js.truthy (qr update)); [destruct (toDataURL env) as [u|x]|];
        (destruct (statusCode update) as [c|]; [destruct (c =? loggedOut)%Z|]);
        cbn; split; congruence.
    + destruct (Js.truthy (qr update)); [destruct (toDataURL env) as [u|x]|];
        cbn; split; congruence.
    + destruct (Js.truthy (qr update)); [|exact J].
      cbn [negb orb] in C. apply negb_true_iff in C.
      destruct (toDataURL env) as [u|x]; cbn; [|exact J].
      split; congruence.
    + destruct (Js.truthy (qr update)); [|exact J].
      cbn [negb orb] in C. apply negb_true_iff in C.
      destruct (toDataURL env) as [u|x]; cbn; [|exact J].
      split; congruence.
  - destruct (State.sock (state w)) as [k|] eqn:Hs.
    + unfold logoutHandler, try_catch, bind, getState, emit, external, modifyState,
        existsSession, rmSession, sessionRemoved, bind, emit, external, log, ret.
      cbn. rewrite Hs.
      destruct terminate as [[]|x]; cbn.
      * destruct (sessionFolder w); cbn; [destruct purge as [[]|y]; cbn|];
          try (destruct (State.reconnectFn (state w)); cbn);
          destruct s; split; congruence.
      * destruct s; exact J.
    + rewrite (logoutHandler_no_socket terminate purge w Hs). cbn [snd].
      assert (N : s <> Connected).
      { intros E. apply J in E. now apply K in E. }
      destruct s; try congruence; destruct terminate; exact J.
  - rewrite keepsState_onMessagesUpsert. exact J.
Qed.

(** C1, as stated, fails. A session-open signal on a socket without a user
    leaves the state connected with no identity. A pairing challenge
    delivered while connected leaves pairing material stored in a
    connected state. And in a session that keeps every promise of the
    library, a challenge followed by a transient close (408) leaves the
    pairing material stored while the status is Disconnected: the close
    handler clears it only for an explicit logout. *)
Lemma state_invariant_counterexample :
  (let events := [Connect 1;
                  Update {| toDataURL := Normal "unused"; user_id := None |}
                         {| connection := Some open; statusCode := None;
                            qr := None |}] in
   let st := state (run events initial) in
   specStatus events = Connected
   /\ State.connected st = true /\ State.phone st = None)
  /\ (let events := [Connect 1;
                     Update {| toDataURL := Normal "unused";
                               user_id := Some "919812345678:12@s.whatsapp.net" |}
                            {| connection := Some open; statusCode := None;
                               qr := None |};
                     Update {| toDataURL := Normal "data:image/png;base64,iVBORw0KGgo=";
                               user_id := Some "919812345678:12@s.whatsapp.net" |}
                            {| connection := None; statusCode := None;
                               qr := Some "2@k3Jx,Yb8=,Qw==" |}] in
      let st := state (run events initial) in
      State.qrCode st <> None
      /\ State.connected st = true /\ State.phone st = Some "919812345678")
  /\ (let events := [Connect 1;
                     Update {| toDataURL := Normal "data:image/png;base64,iVBORw0KGgo=";
                               user_id := None |}
                            {| connection := None; statusCode := None;
                               qr := Some "2@k3Jx,Yb8=,Qw==" |};
                     Update {| toDataURL := Normal "unused"; user_id := None |}
                            {| connection := Some close; statusCode := Some 408%Z;
                               qr := None |}] in
      let st := state (run events initial) in
      conformingRun events initial = true
      /\ State.qrCode st = Some "data:image/png;base64,iVBORw0KGgo="
      /\ specStatus events = Disconnected
      /\ State.connected st = false).
Proof.
  cbv zeta. split; [|split].
  - repeat split.
  - split; [cbn; congruence | split; reflexivity].
  - repeat split.
Qed.

(** C1 (amended): in every state reached from a fresh state object through
    the connection.update, logout and ingestion handlers, identity != null
    implies that the state is connected. When moreover every session-open
    signal found a user on its socket and no pairing challenge arrived on
    its own while connected, connected implies identity != null, and
    pairingPayload != null implies not connected. *)
Theorem state_invariant (events : list Event) (w : World) :
  State.fresh (state w) ->
  let st := state (run events w) in
  (State.phone st <> None -> State.connected st = true)
  /\ (conformingRun events w = true ->
      (State.connected st = true -> State.phone st <> None)
      /\ (State.qrCode st <> None -> State.connected st = false)).
Proof.
  intros (Hq & Hc & Hp) st. split.
  - intros H. apply run_identity_implies_connected; [congruence | exact H].
  - intros C.
    destruct (run_invariant events w C) as [J1 J2]; [congruence | congruence |].
    split; assumption.
Qed.

Lemma state_invariant_witness :
  (let events :=
     [Connect 1;
      Update {| toDataURL := Normal "data:image/png;base64,iVBORw0KGgo=";
                user_id := None |}
             {| connection := Some connecting; statusCode := None;
                qr := Some "2@k3Jx,Yb8=,Qw==" |};
      Update {| toDataURL := Normal "unused";
                user_id := Some "919812345678:12@s.whatsapp.net" |}
             {| connection := Some open; statusCode := None; qr := None |}] in
   let st := state (run events initial) in
   State.phone st = Some "919812345678" /\ State.connected st = true)
  /\ (let events :=
        [Connect 1;
         Update {| toDataURL := Normal "data:image/png;base64,iVBORw0KGgo=";
                   user_id := None |}
                {| connection := None; statusCode := None;
                   qr := Some "2@k3Jx,Yb8=,Qw==" |};
         Update {| toDataURL := Normal "unused"; user_id := None |}
                {| connection := Some close; statusCode := Some 408%Z; qr := None |}] in
      let st := state (run events initial) in
      State.qrCode st = Some "data:image/png;base64,iVBORw0KGgo="
      /\ State.connected st = false).
Proof.
  assert (F : State.fresh (state initial)) by (repeat split).
  split; intros events st.
  - destruct (state_invariant events initial F) as [H1 _].
    split; [reflexivity | apply H1; discriminate].
  - destruct (state_invariant events initial F) as [_ H2].
    destruct (H2 eq_refl) as [_ H3].
    split; [reflexivity | apply H3; discriminate].
Defined.

End Connection.

(* ===================================================================== *)
(** * The message store *)
(* ===================================================================== *)

Section StoreFacts.
Import Database Store.

Lemma find_id_None (rows : list MessageRow) (i : nat) :
  find (fun r => Nat.eqb (id r) i) rows = None <-> ~ In i (map id rows).
Proof.
  induction rows as [|r rows IH]; cbn [find map In]; [tauto|].
  destruct (Nat.eqb_spec (id r) i) as [E|N].
  - split; [discriminate | intros H; elim H; now left].
  - rewrite IH. tauto.
Qed.

Lemma find_id_Some (rows : list MessageRow) (i : nat) (r : MessageRow) :
  find (fun r => Nat.eqb (id r) i) rows = Some r -> In r rows /\ id r = i.
Proof.
  intros H. apply find_some in H as [H E]. apply Nat.eqb_eq in E. auto.
Qed.

Lemma find_id_unique (rows : list MessageRow) (r : MessageRow) :
  NoDup (map id rows) -> In r rows ->
  find (fun x => Nat.eqb (id x) (id r)) rows = Some r.
Proof.
  induction rows as [|x rows IH]; cbn [map find In]; intros N H; [contradiction|].
  apply NoDup_cons_iff in N as [Nx N].
  destruct H as [->|H].
  - now rewrite Nat.eqb_refl.
  - destruct (Nat.eqb_spec (id x) (id r)) as [E|_]; [|now apply IH].
    elim Nx. rewrite E. now apply in_map.
Qed.

Lemma find_app_id (rows : list MessageRow) (row : MessageRow) (i : nat) :
  find (fun r => Nat.eqb (id r) i) (rows ++ [row]) =
    match find (fun r => Nat.eqb (id r) i) rows with
    | Some r => Some r
    | None => if Nat.eqb (id row) i then Some row else None
    end.
Proof.
  induction rows as [|x rows IH]; cbn [app find]; [reflexivity|].
  destruct (Nat.eqb (id x) i); [reflexivity | exact IH].
Qed.

Lemma wellFormed_empty : wellFormed empty.
Proof. split; constructor. Qed.

Lemma wellFormed_fresh_id (db : t) :
  wellFormed db -> ~ In (S (messages_seq db)) (map id (messages db)).
Proof.
  intros [B _] H. apply in_map_iff in H as (r & E & Hr).
  rewrite Forall_forall in B. specialize (B r Hr). lia.
Qed.

Lemma map_id_status (rows : list MessageRow) (i : nat) (status : string) :
  map id (map (fun r => if Nat.eqb (id r) i then setReplyStatus r status else r) rows)
  = map id rows.
Proof.
  rewrite map_map. apply map_ext. intros r. now destruct (Nat.eqb (id r) i).
Qed.

(** Each write of the store keeps row ids unique and below the counter. *)
Lemma wellFormed_insertMessage (db db' : t) d p m s mt mu sn ts (i : nat) :
  wellFormed db ->
  insertMessage db d p m s mt mu sn ts = Normal (i, db') ->
  wellFormed db'.
Proof.
  intros W H. pose proof (wellFormed_fresh_id db W) as F. destruct W as [B N].
  unfold insertMessage in H. destruct p as [p|]; [|discriminate].
  injection H as <- <-. split; cbn [messages messages_seq].
  - apply Forall_app. split.
    + eapply Forall_impl; [|exact B]. cbn. intros r Hr. lia.
    + constructor; [cbn; lia | constructor].
  - rewrite map_app. cbn [map id].
    apply NoDup_app; [exact N | repeat constructor; intros [] | ].
    intros x Hx [<-|[]]. contradiction.
Qed.

Lemma wellFormed_updateMediaUrl (db : t) (u : option string) (i : nat) :
  wellFormed db -> wellFormed (updateMediaUrl db u i).
Proof.
  intros [B N]. split; cbn [updateMediaUrl messages messages_seq].
  - apply Forall_map. eapply Forall_impl; [|exact B]. intros r Hr.
    now destruct (Nat.eqb (id r) i).
  - rewrite map_map.
    erewrite map_ext; [exact N|]. intros r. now destruct (Nat.eqb (id r) i).
Qed.

Lemma wellFormed_updateMessageStatus (db : t) (i : nat) (status : string) :
  wellFormed db -> wellFormed (snd (updateMessageStatus db i status)).
Proof.
  intros [B N]. split; cbn [updateMessageStatus snd messages messages_seq].
  - apply Forall_map. eapply Forall_impl; [|exact B]. intros r Hr.
    now destruct (Nat.eqb (id r) i).
  - now rewrite map_id_status.
Qed.

Lemma wellFormed_execute (db : t) (op : Write) :
  wellFormed db -> wellFormed (execute db op).
Proof.
  intros W. destruct op as [r n|d p m s mt mu sn ts|u i]; cbn [execute].
  - unfold ensureApiKey. destruct (getApiKey db); [exact W|].
    destruct W as [B N]. split; exact B || exact N.
  - destruct (insertMessage db d p m s mt mu sn ts) as [[j db']|e] eqn:E; [|exact W].
    eapply wellFormed_insertMessage; eauto.
  - now apply wellFormed_updateMediaUrl.
Qed.

Lemma insertMessage_lookup (db : t) (d p m s ts : string)
    (mt mu sn : option string) :
  wellFormed db ->
  exists i db',
    insertMessage db d (Some p) m s mt mu sn ts = Normal (i, db')
    /\ getMessageById db' i =
         Some {| id := i; direction := d; phone := p; sender_name := sn;
                 message := m; reply_status := s; media_type := mt;
                 media_url := mu; created_at := ts |}
    /\ (forall j, j <> i -> getMessageById db' j = getMessageById db j)
    /\ wellFormed db'.
Proof.
  intros W. eexists _, _. split; [reflexivity|].
  pose proof (wellFormed_fresh_id db W) as F.
  unfold getMessageById. cbn [messages]. split; [|split].
  - rewrite find_app_id. cbn [id]. rewrite Nat.eqb_refl.
    apply find_id_None in F. now rewrite F.
  - intros j Hj. rewrite find_app_id. cbn [id].
    destruct (find _ (messages db)); [reflexivity|].
    destruct (Nat.eqb_spec (S (messages_seq db)) j); [congruence | reflexivity].
  - exact (wellFormed_insertMessage db _ d (Some p) m s mt mu sn ts _ W eq_refl).
Qed.

(** X1: in a store whose ids are unique, inserting a message succeeds when
    a phone is given, and looking up the returned id yields exactly the row
    that was inserted; every other id reads as before. *)
Theorem insert_then_lookup (db : t) (d p m s ts : string)
    (mt mu sn : option string) :
  wellFormed db ->
  exists i db',
    insertMessage db d (Some p) m s mt mu sn ts = Normal (i, db')
    /\ getMessageById db' i =
         Some {| id := i; direction := d; phone := p; sender_name := sn;
                 message := m; reply_status := s; media_type := mt;
                 media_url := mu; created_at := ts |}
    /\ (forall j, j <> i -> getMessageById db' j = getMessageById db j)
    /\ wellFormed db'.
Proof. exact (insertMessage_lookup db d p m s ts mt mu sn). Qed.

Lemma insert_then_lookup_witness :
  exists i db',
    insertMessage empty "incoming" (Some "919812345678@s.whatsapp.net") "Hello"
      "unread" None None None "2025-01-01 10:00:00" = Normal (i, db')
    /\ option_map message (getMessageById db' i) = Some "Hello".
Proof.
  destruct (insert_then_lookup empty "incoming" "919812345678@s.whatsapp.net"
              "Hello" "unread" "2025-01-01 10:00:00" None None None wellFormed_empty)
    as (i & db' & E & L & _).
  exists i, db'. split; [exact E|]. now rewrite L.
Defined.

Lemma map_status_absent (rows : list MessageRow) (i : nat) (status : string) :
  ~ In i (map id rows) ->
  map (fun r => if Nat.eqb (id r) i then setReplyStatus r status else r) rows = rows
  /\ filter (fun r => Nat.eqb (id r) i) rows = [].
Proof.
  induction rows as [|r rows IH]; cbn [map filter In]; intros H; [auto|].
  destruct (Nat.eqb_spec (id r) i) as [E|N]; [elim H; now left|].
  destruct IH as [-> ->]; [tauto | auto].
Qed.

Lemma status_present (rows : list MessageRow) (i : nat) (status : string) (r : MessageRow) :
  NoDup (map id rows) ->
  find (fun x => Nat.eqb (id x) i) rows = Some r ->
  List.length (filter (fun x => Nat.eqb (id x) i) rows) = 1
  /\ find (fun x => Nat.eqb (id x) i)
       (map (fun x => if Nat.eqb (id x) i then setReplyStatus x status else x) rows)
     = Some (setReplyStatus r status).
Proof.
  induction rows as [|x rows IH]; cbn [map filter find]; intros N H; [discriminate|].
  apply NoDup_cons_iff in N as [Nx N].
  destruct (Nat.eqb_spec (id x) i) as [E|Ne].
  - injection H as <-. cbn [find setReplyStatus id]. 
    destruct (map_status_absent rows i status) as [_ ->]; [congruence|].
    split; [reflexivity|]. cbn. now rewrite (proj2 (Nat.eqb_eq _ _) E).
  - cbn [find]. rewrite (proj2 (Nat.eqb_neq _ _) Ne). now apply IH.
Qed.

Lemma find_other_status (rows : list MessageRow) (i j : nat) (status : string) :
  j <> i ->
  find (fun x => Nat.eqb (id x) j)
    (map (fun x => if Nat.eqb (id x) i then setReplyStatus x status else x) rows)
  = find (fun x => Nat.eqb (id x) j) rows.
Proof.
  intros H. induction rows as [|x rows IH]; cbn [map find]; [reflexivity|].
  destruct (Nat.eqb_spec (id x) i) as [E|Ne]; cbn [setReplyStatus id].
  - rewrite E. rewrite (proj2 (Nat.eqb_neq i j)) by congruence. exact IH.
  - destruct (Nat.eqb (id x) j); [reflexivity | exact IH].
Qed.

Lemma updateMessageStatus_changes (db : t) (i : nat) (status : string) :
  (getMessageById db i = None -> updateMessageStatus db i status = (0, db))
  /\ (wellFormed db -> forall r, getMessageById db i = Some r ->
      fst (updateMessageStatus db i status) = 1
      /\ getMessageById (snd (updateMessageStatus db i status)) i
         = Some (setReplyStatus r status)
      /\ (forall j, j <> i ->
            getMessageById (snd (updateMessageStatus db i status)) j
            = getMessageById db j)).
Proof.
  split.
  - intros H. apply find_id_None in H.
    destruct (map_status_absent (messages db) i status H) as [Em Ef].
    unfold updateMessageStatus. rewrite Em, Ef. now destruct db.
  - intros [_ N] r H.
    destruct (status_present (messages db) i status r N H) as [L F].
    unfold updateMessageStatus, getMessageById. cbn [fst snd messages].
    split; [exact L | split; [exact F|]].
    intros j Hj. now apply find_other_status.
Qed.

(** X2: updating the status of an id no row carries reports 0 changes and
    leaves the database as it was; for an id that is stored (ids being
    unique) it reports 1 change, the row reads back with the new status and
    every other column as before, and no other id is affected. *)
Theorem updateMessageStatus_spec (db : t) (i : nat) (status : string) :
  (getMessageById db i = None -> updateMessageStatus db i status = (0, db))
  /\ (wellFormed db -> forall r, getMessageById db i = Some r ->
      fst (updateMessageStatus db i status) = 1
      /\ getMessageById (snd (updateMessageStatus db i status)) i
         = Some (setReplyStatus r status)
      /\ (forall j, j <> i ->
            getMessageById (snd (updateMessageStatus db i status)) j
            = getMessageById db j)).
Proof. exact (updateMessageStatus_changes db i status). Qed.

Lemma updateMessageStatus_spec_witness :
  let db := execute empty
              (InsertMessage "incoming" (Some "919812345678@s.whatsapp.net")
                 "Hello" "unread" None None None "2025-01-01 10:00:00") in
  updateMessageStatus db 999 "replied" = (0, db)
  /\ fst (updateMessageStatus db 1 "replied") = 1
  /\ option_map reply_status (getMessageById (snd (updateMessageStatus db 1 "replied")) 1)
     = Some "replied".
Proof.
  intros db.
  destruct (updateMessageStatus_spec db 999 "replied") as [H0 _].
  destruct (updateMessageStatus_spec db 1 "replied") as [_ H1].
  assert (W : wellFormed db).
  { apply wellFormed_execute, wellFormed_empty. }
  destruct (H1 W _ eq_refl) as (C & L & _).
  split; [apply H0; reflexivity | split; [exact C | now rewrite L]].
Defined.

Lemma count_map_same_direction (f : MessageRow -> MessageRow) (rows : list MessageRow) :
  (forall r, direction (f r) = direction r) ->
  List.length (filter (fun r => direction r =? "incoming") (map f rows))
  = List.length (filter (fun r => direction r =? "incoming") rows).
Proof.
  intros H. induction rows as [|r rows IH]; cbn [map filter]; [reflexivity|].
  rewrite H. destruct (direction r =? "incoming"); cbn [List.length]; now rewrite IH.
Qed.

Lemma getMessageCount_updateMediaUrl (db : t) (u : option string) (i : nat) :
  getMessageCount (updateMediaUrl db u i) = getMessageCount db.
Proof.
  unfold getMessageCount. cbn [updateMediaUrl messages].
  apply count_map_same_direction. intros r. now destruct (Nat.eqb (id r) i).
Qed.

Lemma getMessageCount_updateMessageStatus (db : t) (i : nat) (status : string) :
  getMessageCount (snd (updateMessageStatus db i status)) = getMessageCount db.
Proof.
  unfold getMessageCount. cbn [updateMessageStatus snd messages].
  apply count_map_same_direction. intros r. now destruct (Nat.eqb (id r) i).
Qed.

Lemma getMessageCount_insert (db db' : t) d p m s mt mu sn ts (i : nat) :
  insertMessage db d p m s mt mu sn ts = Normal (i, db') ->
  getMessageCount db' = getMessageCount db + (if d =? "incoming" then 1 else 0).
Proof.
  unfold insertMessage. destruct p as [p|]; [|discriminate].
  intros H. injection H as _ <-. unfold getMessageCount. cbn [messages].
  rewrite filter_app, length_app. cbn [filter direction].
  now destruct (d =? "incoming").
Qed.

(** X3: the message count counts incoming rows only. Storing an incoming
    message raises it by one; storing a message of any other direction,
    changing a status or setting a media reference leaves it as it is. *)
Theorem messageCount_counts_incoming (db : t) :
  (forall p m s mt mu sn ts,
      getMessageCount (execute db (InsertMessage "incoming" (Some p) m s mt mu sn ts))
      = S (getMessageCount db))
  /\ (forall d p m s mt mu sn ts, d <> "incoming" ->
        getMessageCount (execute db (InsertMessage d p m s mt mu sn ts))
        = getMessageCount db)
  /\ (forall i status,
        getMessageCount (snd (updateMessageStatus db i status)) = getMessageCount db)
  /\ (forall u i, getMessageCount (updateMediaUrl db u i) = getMessageCount db).
Proof.
  split; [|split; [|split]].
  - intros. cbn [execute].
    destruct (insertMessage db "incoming" (Some p) m s mt mu sn ts) as [[i db']|e] eqn:E;
      [|discriminate].
    cbn [snd]. rewrite (getMessageCount_insert _ _ _ _ _ _ _ _ _ _ _ E). cbn. lia.
  - intros d p m s mt mu sn ts Hd. cbn [execute].
    destruct (insertMessage db d p m s mt mu sn ts) as [[i db']|e] eqn:E; [|reflexivity].
    cbn [snd]. rewrite (getMessageCount_insert _ _ _ _ _ _ _ _ _ _ _ E).
    apply String.eqb_neq in Hd. rewrite Hd. lia.
  - intros. apply getMessageCount_updateMessageStatus.
  - intros. apply getMessageCount_updateMediaUrl.
Qed.

Lemma messageCount_counts_incoming_witness :
  let db := execute
              (execute empty
                 (InsertMessage "incoming" (Some "123@s.whatsapp.net") "Test 1"
                    "unread" None None None "2025-01-01 10:00:00"))
              (InsertMessage "outgoing" (Some "123@s.whatsapp.net") "Reply"
                 "sent" None None None "2025-01-01 10:00:05") in
  getMessageCount db = 1.
Proof.
  intros db.
  destruct (messageCount_counts_incoming
              (execute empty
                 (InsertMessage "incoming" (Some "123@s.whatsapp.net") "Test 1"
                    "unread" None None None "2025-01-01 10:00:00")))
    as (_ & H & _).
  unfold db. rewrite H by discriminate.
  destruct (messageCount_counts_incoming empty) as (H1 & _).
  now rewrite H1.
Defined.

End StoreFacts.

(* ===================================================================== *)
(** * Paging, settings and the webhook table *)
(* ===================================================================== *)

Section Queries.
Import Database Store.

Lemma insertNewest_In (r x : MessageRow) (l : list MessageRow) :
  In x (insertNewest r l) <-> x = r \/ In x l.
Proof.
  induction l as [|y l IH]; cbn [insertNewest In]; [intuition congruence|].
  destruct (String.leb (created_at y) (created_at r)); cbn [In]; [intuition congruence|].
  rewrite IH. intuition congruence.
Qed.

Lemma insertNewest_length (r : MessageRow) (l : list MessageRow) :
  List.length (insertNewest r l) = S (List.length l).
Proof.
  induction l as [|y l IH]; cbn [insertNewest]; [reflexivity|].
  destruct (String.leb _ _); cbn [List.length]; [reflexivity | now rewrite IH].
Qed.

Lemma newestFirst_In (rows : list MessageRow) (x : MessageRow) :
  In x (newestFirst rows) <-> In x rows.
Proof.
  induction rows as [|r rows IH]; cbn [newestFirst fold_right In]; [tauto|].
  fold (newestFirst rows). rewrite insertNewest_In, IH. intuition congruence.
Qed.

Lemma newestFirst_length (rows : list MessageRow) :
  List.length (newestFirst rows) = List.length rows.
Proof.
  induction rows as [|r rows IH]; cbn [newestFirst fold_right]; [reflexivity|].
  fold (newestFirst rows). now rewrite insertNewest_length, IH.
Qed.

Lemma insertNewest_ordered (r : MessageRow) (l : list MessageRow) :
  newestFirstOrdered l -> newestFirstOrdered (insertNewest r l).
Proof.
  induction l as [|x l IH]; cbn [insertNewest]; [cbn; auto|].
  intros O. destruct (String.leb (created_at x) (created_at r)) eqn:E.
  - cbn [newestFirstOrdered]. cbn [newestFirstOrdered] in O. auto.
  - assert (R : String.leb (created_at r) (created_at x) = true).
    { destruct (String.leb_total (created_at r) (created_at x)); congruence. }
    destruct O as [Hx O]. specialize (IH O).
    destruct l as [|y l]; cbn [insertNewest] in *; [cbn; auto|].
    destruct (String.leb (created_at y) (created_at r)); cbn [newestFirstOrdered] in *; auto.
Qed.

Lemma newestFirst_ordered (rows : list MessageRow) :
  newestFirstOrdered (newestFirst rows).
Proof.
  induction rows as [|r rows IH]; cbn [newestFirst fold_right]; [exact I|].
  now apply insertNewest_ordered.
Qed.

Lemma ordered_tail (x : MessageRow) (l : list MessageRow) :
  newestFirstOrdered (x :: l) -> newestFirstOrdered l.
Proof. cbn [newestFirstOrdered]. tauto. Qed.

Lemma ordered_skipn (n : nat) (l : list MessageRow) :
  newestFirstOrdered l -> newestFirstOrdered (skipn n l).
Proof.
  revert l. induction n as [|n IH]; intros [|x l] O; cbn [skipn]; auto.
  apply IH. eapply ordered_tail; eauto.
Qed.

Lemma ordered_firstn (n : nat) (l : list MessageRow) :
  newestFirstOrdered l -> newestFirstOrdered (firstn n l).
Proof.
  revert l. induction n as [|n IH]; intros [|x l] O; cbn [firstn]; try exact I.
  specialize (IH l (ordered_tail _ _ O)).
  destruct n as [|n]; [cbn; auto|].
  destruct l as [|y l]; [cbn; auto|].
  cbn [firstn newestFirstOrdered] in *. tauto.
Qed.

Lemma firstn_subset {A} (n : nat) (l : list A) (x : A) :
  In x (firstn n l) -> In x l.
Proof. intros H. rewrite <- (firstn_skipn n l). apply in_or_app. now left. Qed.

Lemma skipn_subset {A} (n : nat) (l : list A) (x : A) :
  In x (skipn n l) -> In x l.
Proof. intros H. rewrite <- (firstn_skipn n l). apply in_or_app. now right. Qed.

Lemma firstn_twice {A} (n : nat) (l : list A) :
  (firstn n l ++ firstn n (skipn n l) = firstn (n + n) l)%list.
Proof.
  rewrite <- (firstn_skipn n l) at 3.
  rewrite firstn_app, firstn_firstn.
  assert (L : List.length (firstn n l) <= n) by apply firstn_le_length.
  rewrite Nat.min_r by lia.
  destruct (Nat.le_gt_cases n (List.length l)) as [H|H].
  - rewrite length_firstn, Nat.min_l by lia.
    now replace (n + n - n) with n by lia.
  - rewrite (skipn_all2 l) by lia. rewrite !firstn_nil. reflexivity.
Qed.

(** X4: paging with a page number of at least 1 and a non-negative page
    size. A page holds at most [limit] rows, all of them rows of the table,
    newest first; a page and the next one are adjacent slices of the same
    ordering, with no row lost or repeated between them; and a page that
    starts beyond the data is empty. *)
Theorem getMessages_pages (db : t) (page limit : Z) :
  (1 <= page)%Z -> (0 <= limit)%Z ->
  List.length (getMessages db page limit) <= Z.to_nat limit
  /\ (forall r, In r (getMessages db page limit) -> In r (messages db))
  /\ newestFirstOrdered (getMessages db page limit)
  /\ (getMessages db page limit ++ getMessages db (page + 1) limit
      = limitOffset (2 * limit) ((page - 1) * limit) (newestFirst (messages db)))%list
  /\ ((Z.of_nat (List.length (messages db)) <= (page - 1) * limit)%Z ->
      getMessages db page limit = []).
Proof.
  intros Hp Hl. unfold getMessages, limitOffset.
  assert (E0 : (limit <? 0)%Z = false) by (apply Z.ltb_ge; lia).
  assert (E2 : (2 * limit <? 0)%Z = false) by (apply Z.ltb_ge; lia).
  rewrite E0, E2.
  set (sorted := newestFirst (messages db)).
  set (n := Z.to_nat limit).
  set (a := Z.to_nat ((page - 1) * limit)).
  assert (Ea : Z.to_nat ((page + 1 - 1) * limit) = a + n).
  { subst a n. rewrite <- Z2Nat.inj_add by nia. f_equal. lia. }
  assert (E2n : Z.to_nat (2 * limit) = n + n) by (subst n; lia).
  rewrite Ea, E2n.
  split; [apply firstn_le_length|].
  split; [|split; [|split]].
  - intros r H. apply (newestFirst_In (messages db)).
    apply (skipn_subset a), (firstn_subset n). exact H.
  - apply ordered_firstn, ordered_skipn, newestFirst_ordered.
  - rewrite (Nat.add_comm a n), <- skipn_skipn. apply firstn_twice.
  - intros H. rewrite skipn_all2; [apply firstn_nil|].
    subst sorted. rewrite newestFirst_length. subst a. lia.
Qed.

Lemma getMessages_pages_witness :
  let db := execute
              (execute empty
                 (InsertMessage "incoming" (Some "123@s.whatsapp.net") "Message 0"
                    "unread" None None None "2025-01-01 10:00:00"))
              (InsertMessage "incoming" (Some "123@s.whatsapp.net") "Message 1"
                 "unread" None None None "2025-01-01 10:00:07") in
  map message (getMessages db 1 1) = ["Message 1"]
  /\ map message (getMessages db 2 1) = ["Message 0"]
  /\ List.length (getMessages db 1 1) <= 1
  /\ getMessages db 10 5 = [].
Proof.
  intros db.
  destruct (getMessages_pages db 1 1) as (L & _); [lia | lia |].
  destruct (getMessages_pages db 10 5) as (_ & _ & _ & _ & E); [lia | lia |].
  split; [reflexivity | split; [reflexivity | split; [exact L|]]].
  apply E. cbn. lia.
Defined.

(** A negative page size is no limit at all: every row from the offset on
    is returned. *)
Lemma getMessages_negative_limit (db : t) (page limit : Z) :
  (limit < 0)%Z -> (1 <= page)%Z ->
  getMessages db page limit = newestFirst (messages db).
Proof.
  intros Hl Hp. unfold getMessages, limitOffset.
  rewrite (proj2 (Z.ltb_lt _ _) Hl).
  replace (Z.to_nat ((page - 1) * limit)) with 0 by nia. reflexivity.
Qed.

Lemma find_key_filter (k k' : string) (s : Settings) :
  k' <> k ->
  find (fun kv => fst kv =? k') (filter (fun kv => negb (fst kv =? k)) s)
  = find (fun kv => fst kv =? k') s.
Proof.
  intros H. induction s as [|[a b] s IH]; cbn [filter find fst]; [reflexivity|].
  destruct (String.eqb_spec a k) as [->|N]; cbn [negb find fst].
  - rewrite (proj2 (String.eqb_neq k k')) by congruence. exact IH.
  - destruct (a =? k'); [reflexivity | exact IH].
Qed.

Lemma find_key_removed (k : string) (s : Settings) :
  find (fun kv => fst kv =? k) (filter (fun kv => negb (fst kv =? k)) s) = None.
Proof.
  induction s as [|[a b] s IH]; cbn [filter find fst]; [reflexivity|].
  destruct (String.eqb_spec a k) as [->|N]; cbn [negb find fst]; [exact IH|].
  now rewrite (proj2 (String.eqb_neq a k) N).
Qed.

Lemma find_app_None {A} (f : A -> bool) (l l' : list A) :
  find f l = None -> find f (l ++ l') = find f l'.
Proof.
  induction l as [|x l IH]; cbn [app find]; [reflexivity|].
  destruct (f x); [discriminate | exact IH].
Qed.

Lemma find_app_Some {A} (f : A -> bool) (l l' : list A) (x : A) :
  find f l = Some x -> find f (l ++ l') = Some x.
Proof.
  induction l as [|y l IH]; cbn [app find]; [discriminate|].
  destruct (f y); [auto | exact IH].
Qed.

(** X5: a setting reads back as it was last written, writing one key
    leaves every other key as it was, a key never written reads as null,
    and the table never holds a key twice. *)
Theorem settings_round_trip (s : Settings) (k v : string) :
  getSetting (setSetting s k v) k = Some v
  /\ (forall k', k' <> k -> getSetting (setSetting s k v) k' = getSetting s k')
  /\ getSetting [] k = None
  /\ (NoDup (map fst s) -> NoDup (map fst (setSetting s k v))).
Proof.
  unfold getSetting, setSetting. split; [|split; [|split]].
  - rewrite find_app_None by apply find_key_removed.
    cbn. now rewrite String.eqb_refl.
  - intros k' H.
    destruct (find (fun kv => fst kv =? k') s) as [r|] eqn:E.
    + rewrite (find_app_Some _ _ _ r); [reflexivity|].
      now rewrite find_key_filter.
    + rewrite find_app_None by now rewrite find_key_filter.
      cbn. now rewrite (proj2 (String.eqb_neq k k')) by congruence.
  - reflexivity.
  - intros N. rewrite map_app. cbn [map fst].
    apply NoDup_app; [ | repeat constructor; intros [] | ].
    + clear - N. induction s as [|[a b] s IH]; cbn [filter map fst] in *; [constructor|].
      apply NoDup_cons_iff in N as [Na N].
      destruct (a =? k); cbn [negb map fst]; [auto|].
      constructor; [|auto]. intros H. apply Na.
      apply in_map_iff in H as (x & <- & Hx). apply filter_In in Hx as [Hx _].
      now apply in_map.
    + intros x Hx [<-|[]]. apply in_map_iff in Hx as ([a b] & E & Hx).
      apply filter_In in Hx as [_ Hx]. cbn [fst] in *. subst a.
      now rewrite String.eqb_refl in Hx.
Qed.

Example settings_update :
  getSetting (setSetting (setSetting [] "version" "1.0.0") "version" "1.0.1") "version"
  = Some "1.0.1".
Proof. reflexivity. Qed.

End Queries.

Section Webhooks.
Import Database Store.

Lemma find_event_removed (e : string) (l : list WebhookRow) :
  find (fun w => (event w =? e) && (active w =? 1)%Z)
    (filter (fun w => negb (event w =? e)) l) = None.
Proof.
  induction l as [|w l IH]; cbn [filter find]; [reflexivity|].
  destruct (event w =? e) eqn:E; cbn [negb find]; [exact IH|].
  now rewrite E.
Qed.

Lemma find_event_other (e e' : string) (l : list WebhookRow) :
  e' <> e ->
  find (fun w => (event w =? e') && (active w =? 1)%Z)
    (filter (fun w => negb (event w =? e)) l)
  = find (fun w => (event w =? e') && (active w =? 1)%Z) l.
Proof.
  intros H. induction l as [|w l IH]; cbn [filter find]; [reflexivity|].
  destruct (String.eqb_spec (event w) e) as [E|N]; cbn [negb find].
  - rewrite E, (proj2 (String.eqb_neq e e')) by congruence. exact IH.
  - destruct (_ && _); [reflexivity | exact IH].
Qed.

Lemma filter_event_removed (e : string) (l : list WebhookRow) :
  filter (fun w => event w =? e) (filter (fun w => negb (event w =? e)) l) = [].
Proof.
  induction l as [|w l IH]; cbn [filter]; [reflexivity|].
  destruct (event w =? e) eqn:E; cbn [negb filter]; [exact IH|].
  now rewrite E.
Qed.

Lemma setWebhook_getWebhook (db : t) (u e : string) (rowid : nat) :
  let row := {| wh_id := rowid; url := u; event := e; active := 1 |} in
  getWebhook (setWebhook db u e rowid) e = Some row
  /\ filter (fun w => event w =? e) (webhooks (setWebhook db u e rowid)) = [row]
  /\ getWebhook (deleteWebhook db e) e = None
  /\ (forall e', e' <> e ->
        getWebhook (setWebhook db u e rowid) e' = getWebhook db e'
        /\ getWebhook (deleteWebhook db e) e' = getWebhook db e').
Proof.
  cbv zeta. unfold getWebhook, setWebhook, deleteWebhook. cbn [webhooks].
  split; [|split; [|split]].
  - rewrite find_app_None by apply find_event_removed.
    cbn. now rewrite String.eqb_refl.
  - rewrite filter_app, filter_event_removed. cbn. now rewrite String.eqb_refl.
  - apply find_event_removed.
  - intros e' H. split; [|now apply find_event_other].
    destruct (find (fun w => (event w =? e') && (active w =? 1)%Z) (webhooks db))
      as [r|] eqn:E.
    + apply find_app_Some. now rewrite find_event_other.
    + rewrite find_app_None by now rewrite find_event_other.
      cbn. now rewrite (proj2 (String.eqb_neq e e')) by congruence.
Qed.

(** X6: setting a webhook supersedes whatever was stored for the event:
    afterwards the event has exactly one row, it is active and carries the
    new url, and [getWebhook] returns it; deleting leaves none. Neither
    touches the subscription of another event. *)
Theorem webhook_supersedes (db : t) (u e : string) (rowid : nat) :
  let row := {| wh_id := rowid; url := u; event := e; active := 1 |} in
  getWebhook (setWebhook db u e rowid) e = Some row
  /\ filter (fun w => event w =? e) (webhooks (setWebhook db u e rowid)) = [row]
  /\ getWebhook (deleteWebhook db e) e = None
  /\ (forall e', e' <> e ->
        getWebhook (setWebhook db u e rowid) e' = getWebhook db e'
        /\ getWebhook (deleteWebhook db e) e' = getWebhook db e').
Proof. exact (setWebhook_getWebhook db u e rowid). Qed.

Lemma webhook_supersedes_witness :
  let db := setWebhook (setWebhook empty "https://old.example/hook" "message.received" 1)
              "https://new.example/hook" "message.received" 2 in
  option_map url (getWebhook db "message.received") = Some "https://new.example/hook"
  /\ List.length (webhooks db) = 1
  /\ getWebhook db "message.sent" = None.
Proof.
  intros db.
  destruct (webhook_supersedes
              (setWebhook empty "https://old.example/hook" "message.received" 1)
              "https://new.example/hook" "message.received" 2)
    as (G & _ & _ & O).
  split; [unfold db; now rewrite G | split; [reflexivity|]].
  destruct (O "message.sent") as [E _]; [discriminate|].
  unfold db. rewrite E. reflexivity.
Defined.

Lemma settings_round_trip_witness :
  getSetting (setSetting (setSetting [] "version" "1.0.0") "theme" "dark") "version"
  = Some "1.0.0".
Proof.
  destruct (settings_round_trip (setSetting [] "version" "1.0.0") "theme" "dark")
    as (_ & H & _).
  rewrite H by discriminate.
  now destruct (settings_round_trip [] "version" "1.0.0") as (-> & _).
Defined.

End Webhooks.

(* ===================================================================== *)
(** * The reply, status and inbox routes *)
(* ===================================================================== *)

Section ReplyRoute.
Import Runtime Routes Api.

Variable rowIdOf : string -> option nat.

Ltac settle :=
  cbn; repeat split; intros; cbn in *; try congruence; try (intuition congruence).

(** X7: a reply request that is not answered 200 leaves the database as it
    was (no outgoing row, the original still unanswered); one that is
    answered 400 or 404 leaves the whole server untouched, nothing having
    been handed to the socket; and while the state is not connected or
    holds no socket the answer is always 400. *)
Theorem reply_refused_untouched (send : completion unit) (timestamp : string)
    (req : ApiRequest) (srv : Server) :
  let r := replyHandler rowIdOf send timestamp req srv in
  (code (fst r) <> 200%Z -> database (world (snd r)) = database (world srv))
  /\ (code (fst r) = 400%Z \/ code (fst r) = 404%Z -> snd r = srv)
  /\ (State.connected (state (world srv)) = false
      \/ State.sock (state (world srv)) = None ->
      code (fst r) = 400%Z /\ snd r = srv).
Proof.
  cbv zeta. unfold replyHandler.
  destruct (negb (Js.truthy (body_message req)) && negb (Js.truthy (body_image req)));
    [settle|].
  destruct (State.connected (state (world srv))) eqn:Ec; [|settle].
  destruct (State.sock (state (world srv))) as [s|] eqn:Es; [|settle].
  cbn [negb orb WhatsApp.isSome].
  destruct (match rowIdOf (params_id req) with
            | Some i => option_map (fun r => (i, r))
                          (Store.getMessageById (database (world srv)) i)
            | None => None
            end) as [[i orig]|]; [|settle].
  destruct send as [[]|e]; settle.
Qed.

Lemma getMessageById_bound (db : Database.t) (i : nat) (r : Database.MessageRow) :
  Store.wellFormed db -> Store.getMessageById db i = Some r ->
  i <= Database.messages_seq db.
Proof.
  intros [B _] H. apply find_id_Some in H as [H <-].
  rewrite Forall_forall in B. now apply B.
Qed.

Lemma replyHandler_sent (timestamp : string) (req : ApiRequest) (srv : Server)
    (s : State.Sock) (i : nat) (orig : Database.MessageRow) :
  let db := database (world srv) in
  Store.wellFormed db ->
  State.connected (state (world srv)) = true ->
  State.sock (state (world srv)) = Some s ->
  Js.truthy (body_message req) || Js.truthy (body_image req) = true ->
  rowIdOf (params_id req) = Some i ->
  Store.getMessageById db i = Some orig ->
  let r := replyHandler rowIdOf (Normal tt) timestamp req srv in
  let db' := database (world (snd r)) in
  let text := match Js.or (body_message req) (Some EmptyString) with
              | Some m => m
              | None => EmptyString
              end in
  fst r = done "Reply sent successfully"
  /\ outbox (snd r)
     = (outbox srv
        ++ [{| to := Database.phone orig;
               content :=
                 match body_image req with
                 | Some img =>
                     if Js.truthy (body_image req) then
                       ImageOut (if Js.startsWith "http://" img
                                    || Js.startsWith "https://" img
                                 then ImageUrl img else ImageBase64 img)
                                text
                     else TextOut (body_message req)
                 | None => TextOut (body_message req)
                 end |}])%list
  /\ Store.getMessageById db' i = Some (Store.setReplyStatus orig "replied")
  /\ Store.getMessageById db' (S (Database.messages_seq db))
     = Some {| Database.id := S (Database.messages_seq db);
               Database.direction := "outgoing";
               Database.phone := Database.phone orig;
               Database.sender_name := None;
               Database.message := text;
               Database.reply_status := "sent";
               Database.media_type :=
                 Some (if Js.truthy (body_image req) then "image" else "text");
               Database.media_url :=
                 match body_image req with
                 | Some img =>
                     if Js.truthy (body_image req) then
                       if Js.startsWith "http://" img || Js.startsWith "https://" img
                       then Some img else Some "base64"
                     else None
                 | None => None
                 end;
               Database.created_at := timestamp |}
  /\ (forall j, j <> i -> j <> S (Database.messages_seq db) ->
        Store.getMessageById db' j = Store.getMessageById db j)
  /\ Store.getMessageCount db' = Store.getMessageCount db
  /\ Store.wellFormed db'.
Proof.
  intros db W Hc Hs Ht Hi Ho r db' text.
  pose proof (getMessageById_bound db i orig W Ho) as Hb.
  destruct (insertMessage_lookup db "outgoing" (Database.phone orig) text "sent"
              timestamp
              (Some (if Js.truthy (body_image req) then "image" else "text"))
              (match body_image req with
               | Some img =>
                   if Js.truthy (body_image req) then
                     if Js.startsWith "http://" img || Js.startsWith "https://" img
                     then Some img else Some "base64"
                   else None
               | None => None
               end) None W)
    as (n & db1 & Ei & Ln & Lo & W1).
  assert (En : n = S (Database.messages_seq db)) by (cbn in Ei; congruence).
  assert (E : r = (done "Reply sent successfully",
                   logged info "Reply sent"
                     (withDatabase (snd (Store.updateMessageStatus db1 i "replied"))
                        (withDatabase db1
                           (handed {| to := Database.phone orig;
                                      content :=
                                        match body_image req with
                                        | Some img =>
                                            if Js.truthy (body_image req) then
                                              ImageOut
                                                (if Js.startsWith "http://" img
                                                    || Js.startsWith "https://" img
                                                 then ImageUrl img else ImageBase64 img)
                                                text
                                            else TextOut (body_message req)
                                        | None => TextOut (body_message req)
                                        end |} srv))))).
  { subst r. unfold replyHandler.
    apply orb_true_iff in Ht.
    assert (G : negb (Js.truthy (body_message req))
                && negb (Js.truthy (body_image req)) = false).
    { destruct Ht as [-> | ->]; cbn; [reflexivity | apply andb_false_r]. }
    rewrite G, Hc, Hs, Hi. fold db. rewrite Ho. cbn [negb orb WhatsApp.isSome option_map].
    cbv zeta. cbn [handed world database]. fold db. fold text.
    rewrite Ei. reflexivity. }
  assert (Lo1 : Store.getMessageById db1 i = Some orig).
  { rewrite Lo by lia. exact Ho. }
  destruct (updateMessageStatus_changes db1 i "replied") as [_ U].
  destruct (U W1 orig Lo1) as (_ & Ui & Uo).
  subst db'. rewrite E. cbn [fst snd logged withDatabase handed world outbox database
                               log emit putDatabase].
  split; [reflexivity|]. split; [reflexivity|].
  split; [exact Ui|]. split; [|split; [|split]].
  - rewrite <- En. rewrite Uo by lia. exact Ln.
  - intros j Hj Hn. rewrite Uo by exact Hj. apply Lo. lia.
  - rewrite getMessageCount_updateMessageStatus.
    rewrite (getMessageCount_insert _ _ _ _ _ _ _ _ _ _ _ Ei). cbn. lia.
  - now apply wellFormed_updateMessageStatus.
Qed.

(** X8: a reply to a stored message, sent while connected. The answer is
    200; exactly one message is handed to the socket, for the sender of
    the original: the image (by url when it starts with http:// or
    https://, else as base64 data) with the text as caption when an image
    was supplied, the text alone otherwise; the original reads back as
    'replied'; one outgoing row is added, addressed to the same sender,
    with status 'sent', the text (or the empty string), media type 'image'
    exactly when an image was supplied, and as media reference the image's
    url, or the marker 'base64' in place of an uploaded image; no other
    row changes and the message count stays. *)
Theorem reply_sent (timestamp : string) (req : ApiRequest) (srv : Server)
    (s : State.Sock) (i : nat) (orig : Database.MessageRow) :
  let db := database (world srv) in
  Store.wellFormed db ->
  State.connected (state (world srv)) = true ->
  State.sock (state (world srv)) = Some s ->
  Js.truthy (body_message req) || Js.truthy (body_image req) = true ->
  rowIdOf (params_id req) = Some i ->
  Store.getMessageById db i = Some orig ->
  let r := replyHandler rowIdOf (Normal tt) timestamp req srv in
  let db' := database (world (snd r)) in
  let text := match Js.or (body_message req) (Some EmptyString) with
              | Some m => m
              | None => EmptyString
              end in
  fst r = done "Reply sent successfully"
  /\ outbox (snd r)
     = (outbox srv
        ++ [{| to := Database.phone orig;
               content :=
                 match body_image req with
                 | Some img =>
                     if Js.truthy (body_image req) then
                       ImageOut (if Js.startsWith "http://" img
                                    || Js.startsWith "https://" img
                                 then ImageUrl img else ImageBase64 img)
                                text
                     else TextOut (body_message req)
                 | None => TextOut (body_message req)
                 end |}])%list
  /\ Store.getMessageById db' i = Some (Store.setReplyStatus orig "replied")
  /\ Store.getMessageById db' (S (Database.messages_seq db))
     = Some {| Database.id := S (Database.messages_seq db);
               Database.direction := "outgoing";
               Database.phone := Database.phone orig;
               Database.sender_name := None;
               Database.message := text;
               Database.reply_status := "sent";
               Database.media_type :=
                 Some (if Js.truthy (body_image req) then "image" else "text");
               Database.media_url :=
                 match body_image req with
                 | Some img =>
                     if Js.truthy (body_image req) then
                       if Js.startsWith "http://" img || Js.startsWith "https://" img
                       then Some img else Some "base64"
                     else None
                 | None => None
                 end;
               Database.created_at := timestamp |}
  /\ (forall j, j <> i -> j <> S (Database.messages_seq db) ->
        Store.getMessageById db' j = Store.getMessageById db j)
  /\ Store.getMessageCount db' = Store.getMessageCount db
  /\ Store.wellFormed db'.
Proof. exact (replyHandler_sent timestamp req srv s i orig). Qed.

(** What the inbox query lists: exactly the rows that are incoming and
    unread, newest first. *)
Lemma selectInbox_rows (db : Database.t) :
  exists rows,
    selectInbox db = map inboxItem rows
    /\ Store.newestFirstOrdered rows
    /\ (forall r, In r rows <->
          In r (Database.messages db)
          /\ Database.direction r = "incoming"
          /\ Database.reply_status r = "unread").
Proof.
  unfold selectInbox. eexists. split; [reflexivity|].
  split; [apply newestFirst_ordered|].
  intros r. rewrite newestFirst_In, filter_In, andb_true_iff, !String.eqb_eq. tauto.
Qed.

Lemma unique_row (db : Database.t) (r : Database.MessageRow) :
  Store.wellFormed db -> In r (Database.messages db) ->
  Store.getMessageById db (Database.id r) = Some r.
Proof. intros [_ N] H. now apply find_id_unique. Qed.

(** X9: the inbox lists unread incoming messages only, and a message that
    has been replied to is no longer in it: after a reply answered 200, no
    inbox item carries the original's id, and the outgoing copy is not
    listed either. *)
Theorem inbox_after_reply (timestamp : string) (req : ApiRequest) (srv : Server)
    (s : State.Sock) (i : nat) (orig : Database.MessageRow) :
  let db := database (world srv) in
  Store.wellFormed db ->
  State.connected (state (world srv)) = true ->
  State.sock (state (world srv)) = Some s ->
  Js.truthy (body_message req) || Js.truthy (body_image req) = true ->
  rowIdOf (params_id req) = Some i ->
  Store.getMessageById db i = Some orig ->
  let db' := database (world (snd (replyHandler rowIdOf (Normal tt) timestamp req srv))) in
  forall item, In item (selectInbox db') ->
    ii_id item <> i
    /\ ii_id item <> S (Database.messages_seq db)
    /\ ii_type item = "incoming" /\ ii_status item = "unread".
Proof.
  intros db W Hc Hs Ht Hi Ho db' item H.
  destruct (replyHandler_sent timestamp req srv s i orig W Hc Hs Ht Hi Ho)
    as (_ & _ & Li & Ln & _ & _ & W').
  fold db' in Li, Ln, W'.
  destruct (selectInbox_rows db') as (rows & E & _ & M).
  rewrite E in H. apply in_map_iff in H as (r & <- & Hr).
  apply M in Hr as (Hr & Hd & Hu). cbn [inboxItem ii_id ii_type ii_status].
  pose proof (unique_row db' r W' Hr) as U.
  repeat split; auto.
  - intros Ei. rewrite Ei, Li in U. injection U as <-. discriminate Hu.
  - intros En. rewrite En in U. fold db in Ln. rewrite Ln in U.
    injection U as <-. discriminate Hd.
Qed.

Lemma statusUpdateHandler_answers (req : ApiRequest) (srv : Server) :
  let r := statusUpdateHandler rowIdOf req srv in
  (code (fst r) = 200%Z <->
     exists status i,
       body_status req = Some status /\ In status validStatuses
       /\ rowIdOf (params_id req) = Some i
       /\ Store.getMessageById (database (world srv)) i <> None)
  /\ (code (fst r) <> 200%Z -> database (world (snd r)) = database (world srv))
  /\ (Store.validRows (database (world srv)) ->
      Store.validRows (database (world (snd r)))).
Proof.
  cbv zeta. unfold statusUpdateHandler.
  destruct (body_status req) as [status|];
    [|settle; destruct H as (? & ? & ? & _); discriminate].
  destruct (Js.truthy (Some status)) eqn:Et; cbn [negb];
    [|settle; destruct H as (st & i & E & Hin & _); injection E as <-;
      cbn in Hin, Et; destruct Hin as [<-|[<-|[<-|[<-|[]]]]]; discriminate].
  assert (Hiff : includes validStatuses status = true <-> In status validStatuses).
  { unfold includes. rewrite existsb_exists. split.
    - intros (x & Hx & Ex). apply String.eqb_eq in Ex. now subst.
    - intros Hx. exists status. split; [exact Hx | apply String.eqb_refl]. }
  destruct (includes validStatuses status) eqn:Ev; cbn [negb].
  2:{ settle. destruct H as (st & i & E & Hin & _). injection E as <-.
      apply Hiff in Hin. discriminate. }
  assert (Hv : In status validStatuses) by now apply Hiff.
  destruct (rowIdOf (params_id req)) as [i|];
    [|settle; destruct H as (? & ? & _ & _ & ? & _); discriminate].
  destruct (updateMessageStatus_changes (database (world srv)) i status) as [U0 _].
  destruct (Store.getMessageById (database (world srv)) i) as [row|] eqn:Eg.
  - assert (C : Nat.eqb (fst (Store.updateMessageStatus (database (world srv)) i status)) 0
                = false).
    { apply Nat.eqb_neq. cbn [Store.updateMessageStatus fst].
      apply find_id_Some in Eg as [Hin Hid].
      intros L. apply length_zero_iff_nil in L.
      assert (Hf : In row (filter (fun r => Nat.eqb (Database.id r) i)
                             (Database.messages (database (world srv))))).
      { apply filter_In. split; [exact Hin | now apply Nat.eqb_eq]. }
      now rewrite L in Hf. }
    rewrite C. cbn [fst snd]. split; [|split].
    + split; [intros _|reflexivity]. exists status, i. rewrite Eg.
      repeat split; auto. discriminate.
    + cbn. congruence.
    + intros V. cbn. unfold Store.validRows in *. cbn [Database.messages].
      apply Forall_map. eapply Forall_impl; [|exact V]. intros r Hr.
      destruct (Nat.eqb (Database.id r) i); [exact Hv | exact Hr].
  - rewrite (U0 eq_refl). cbn [fst snd Nat.eqb]. split; [|split].
    + split; [discriminate|]. intros (st & j & _ & _ & Ej & Hn).
      injection Ej as <-. now rewrite Eg in Hn.
    + reflexivity.
    + auto.
Qed.

(** X10: a status update is answered 200 exactly when the status is one of
    unread, replied, ignored, sent and the id names a stored row; any other
    answer leaves the database as it was; and the update never writes a
    status outside those four. *)
Theorem statusUpdate_spec (req : ApiRequest) (srv : Server) :
  let r := statusUpdateHandler rowIdOf req srv in
  (code (fst r) = 200%Z <->
     exists status i,
       body_status req = Some status /\ In status validStatuses
       /\ rowIdOf (params_id req) = Some i
       /\ Store.getMessageById (database (world srv)) i <> None)
  /\ (code (fst r) <> 200%Z -> database (world (snd r)) = database (world srv))
  /\ (Store.validRows (database (world srv)) ->
      Store.validRows (database (world (snd r)))).
Proof. exact (statusUpdateHandler_answers req srv). Qed.

End ReplyRoute.

Lemma reply_refused_untouched_witness :
  let srv := {| Api.world := Runtime.initial; Api.outbox := [] |} in
  let req := {| Api.credentials := {| Routes.x_api_key := None;
                                      Routes.authorization := None |};
                Api.params_id := "1"; Api.body_message := Some "Hi there!";
                Api.body_image := None; Api.body_status := None;
                Api.body_url := None |} in
  Api.replyHandler Api.decimalRowId (Normal tt) "2025-01-01 10:00:00" req srv
  = (Api.failure 400 "WhatsApp not connected", srv).
Proof.
  intros srv req.
  destruct (reply_refused_untouched Api.decimalRowId (Normal tt)
              "2025-01-01 10:00:00" req srv) as (_ & _ & H).
  destruct H as [Hc Hs]; [now left|].
  apply injective_projections; [reflexivity | exact Hs].
Defined.

Lemma reply_sent_witness :
  let srv :=
    {| Api.world :=
         {| Runtime.state :=
              State.setConnected (State.setSock State.new (Some 1)) true
                (Some "911234567890");
            Runtime.database :=
              Database.execute Database.empty
                (Database.InsertMessage "incoming" (Some "919812345678@s.whatsapp.net")
                   "Hello" "unread" (Some "text") None (Some "Asha")
                   "2025-01-01 10:00:00");
            Runtime.sessionFolder := true; Runtime.trace := [] |};
       Api.outbox := [] |} in
  let req := {| Api.credentials := {| Routes.x_api_key := None;
                                      Routes.authorization := None |};
                Api.params_id := "1"; Api.body_message := Some "Here it is";
                Api.body_image := Some "iVBORw0KGgo="; Api.body_status := None;
                Api.body_url := None |} in
  let r := Api.replyHandler Api.decimalRowId (Normal tt) "2025-01-01 10:05:00" req srv in
  Api.code (fst r) = 200%Z
  /\ Api.outbox (snd r)
     = [{| Api.to := "919812345678@s.whatsapp.net";
           Api.content := Api.ImageOut (Api.ImageBase64 "iVBORw0KGgo=") "Here it is" |}]
  /\ option_map Database.reply_status
       (Store.getMessageById (Runtime.database (Api.world (snd r))) 1) = Some "replied"
  /\ option_map Database.media_url
       (Store.getMessageById (Runtime.database (Api.world (snd r))) 2)
     = Some (Some "base64").
Proof.
  intros srv req r.
  assert (W : Store.wellFormed (Runtime.database (Api.world srv))).
  { apply wellFormed_execute, wellFormed_empty. }
  destruct (reply_sent Api.decimalRowId "2025-01-01 10:05:00" req srv 1 1 _
              W eq_refl eq_refl eq_refl eq_refl eq_refl)
    as (A & O & B & C & _).
  split; [exact (f_equal Api.code A)|].
  split; [exact O|].
  split; [exact (f_equal (option_map Database.reply_status) B)|].
  exact (f_equal (option_map Database.media_url) C).
Defined.

Lemma inbox_after_reply_witness :
  let srv :=
    {| Api.world :=
         {| Runtime.state :=
              State.setConnected (State.setSock State.new (Some 1)) true
                (Some "911234567890");
            Runtime.database :=
              Database.execute
                (Database.execute Database.empty
                   (Database.InsertMessage "incoming" (Some "919812345678@s.whatsapp.net")
                      "Hello" "unread" (Some "text") None (Some "Asha")
                      "2025-01-01 10:00:00"))
                (Database.InsertMessage "incoming" (Some "919800000000@s.whatsapp.net")
                   "Ping" "unread" (Some "text") None None "2025-01-01 10:01:00");
            Runtime.sessionFolder := true; Runtime.trace := [] |};
       Api.outbox := [] |} in
  let req := {| Api.credentials := {| Routes.x_api_key := None;
                                      Routes.authorization := None |};
                Api.params_id := "1"; Api.body_message := Some "Hi there!";
                Api.body_image := None; Api.body_status := None;
                Api.body_url := None |} in
  let r := Api.replyHandler Api.decimalRowId (Normal tt) "2025-01-01 10:05:00" req srv in
  map Api.ii_id (Api.selectInbox (Runtime.database (Api.world (snd r)))) = [2]
  /\ (forall item,
        In item (Api.selectInbox (Runtime.database (Api.world (snd r)))) ->
        Api.ii_id item <> 1 /\ Api.ii_status item = "unread").
Proof.
  intros srv req r. split; [reflexivity|].
  intros item H.
  assert (W : Store.wellFormed (Runtime.database (Api.world srv))).
  { apply wellFormed_execute, wellFormed_execute, wellFormed_empty. }
  destruct (inbox_after_reply Api.decimalRowId "2025-01-01 10:05:00" req srv 1 1 _
              W eq_refl eq_refl eq_refl eq_refl eq_refl item H) as (A & _ & _ & B).
  split; assumption.
Defined.

Lemma statusUpdate_spec_witness :
  let srv :=
    {| Api.world :=
         {| Runtime.state := State.new;
            Runtime.database :=
              Database.execute Database.empty
                (Database.InsertMessage "incoming" (Some "919812345678@s.whatsapp.net")
                   "Test" "unread" (Some "text") None None "2025-01-01 10:00:00");
            Runtime.sessionFolder := false; Runtime.trace := [] |};
       Api.outbox := [] |} in
  let req (i status : string) :=
    {| Api.credentials := {| Routes.x_api_key := None; Routes.authorization := None |};
       Api.params_id := i; Api.body_message := None; Api.body_image := None;
       Api.body_status := Some status; Api.body_url := None |} in
  Api.code (fst (Api.statusUpdateHandler Api.decimalRowId (req "1" "replied") srv)) = 200%Z
  /\ Runtime.database
       (Api.world (snd (Api.statusUpdateHandler Api.decimalRowId (req "1" "invalid") srv)))
     = Runtime.database (Api.world srv)
  /\ Runtime.database
       (Api.world (snd (Api.statusUpdateHandler Api.decimalRowId (req "999" "replied") srv)))
     = Runtime.database (Api.world srv).
Proof.
  intros srv req. split; [|split].
  - apply (statusUpdate_spec Api.decimalRowId (req "1" "replied") srv).
    exists "replied", 1. repeat split; cbn; auto. discriminate.
  - apply (statusUpdate_spec Api.decimalRowId (req "1" "invalid") srv). discriminate.
  - apply (statusUpdate_spec Api.decimalRowId (req "999" "replied") srv). discriminate.
Defined.

(* ===================================================================== *)
(** * What the running server keeps true *)
(* ===================================================================== *)

Section ServerInvariants.
Import Runtime Routes WhatsApp Api.

Lemma keepsDatabase_modifyState (f : State.WhatsAppState -> State.WhatsAppState) :
  keepsDatabase (modifyState f).
Proof. intros w. reflexivity. Qed.

Lemma keepsDatabase_getState : keepsDatabase getState.
Proof. intros w. reflexivity. Qed.

Lemma keepsDatabase_existsSession : keepsDatabase existsSession.
Proof. intros w. reflexivity. Qed.

Lemma keepsDatabase_rmSession (outcome : completion unit) :
  keepsDatabase (rmSession outcome).
Proof. intros w. destruct outcome as [[]|e]; reflexivity. Qed.

Lemma keepsDatabase_connectToWhatsApp (s : State.Sock) :
  keepsDatabase (connectToWhatsApp s).
Proof.
  unfold connectToWhatsApp.
  apply keepsDatabase_bind; [apply keepsDatabase_emit|].
  intros _. apply keepsDatabase_modifyState.
Qed.

Lemma keepsDatabase_onConnectionUpdate (env : UpdateEnv) (update : ConnectionUpdate) :
  keepsDatabase (onConnectionUpdate env update).
Proof.
  intros w.
  unfold onConnectionUpdate, try_catch, bind, external, modifyState, log, emit, ret.
  destruct (Js.truthy (qr update)); [destruct (toDataURL env) as [u|e]|];
    (destruct (connection update) as [[| |]|];
     [destruct (statusCode update) as [c|]; [destruct (c =? loggedOut)%Z|]| | |]);
    reflexivity.
Qed.

Lemma keepsDatabase_logoutHandler (terminate purge : completion unit) :
  keepsDatabase (logoutHandler terminate purge).
Proof.
  intros w.
  unfold logoutHandler, try_catch, bind, getState, emit, external, modifyState,
    existsSession, rmSession, sessionRemoved, bind, emit, external, log, ret. cbn.
  destruct (State.sock (state w)) as [s|]; [|reflexivity].
  destruct terminate as [[]|e]; cbn; [|reflexivity].
  destruct (sessionFolder w); cbn; [destruct purge as [[]|x]; cbn|];
    try (destruct (State.reconnectFn (state w))); reflexivity.
Qed.

Lemma dbInv_keeps {A} (P : Database.t -> Prop) (c : M A) :
  keepsDatabase c -> dbInv P c.
Proof. intros H w Hp. now rewrite H. Qed.

Lemma dbInv_bind {A B} (P : Database.t -> Prop) (c : M A) (k : A -> M B) :
  dbInv P c -> (forall a, dbInv P (k a)) -> dbInv P (bind c k).
Proof.
  intros Hc Hk w Hp. unfold bind. specialize (Hc w Hp).
  destruct (c w) as [[a|e] w']; cbn [snd] in *; [now apply Hk | exact Hc].
Qed.

Lemma dbInv_try_catch {A} (P : Database.t -> Prop) (c : M A) (h : string -> M A) :
  dbInv P c -> (forall e, dbInv P (h e)) -> dbInv P (try_catch c h).
Proof.
  intros Hc Hh w Hp. unfold try_catch. specialize (Hc w Hp).
  destruct (c w) as [[a|e] w']; cbn [snd] in *; [exact Hc | now apply Hh].
Qed.

Lemma dbInv_forEach {A} (P : Database.t -> Prop) (body : A -> M unit) (xs : list A) :
  (forall x, dbInv P (body x)) -> dbInv P (forEach body xs).
Proof.
  intros H. induction xs as [|x xs IH]; cbn [forEach].
  - intros w Hp. exact Hp.
  - apply dbInv_bind; auto.
Qed.

Lemma dbInv_handleMessage (P : Database.t -> Prop) (em : MessageEnv * WAMessage) :
  ingestionClosed P -> dbInv P (handleMessage em).
Proof.
  intros [Hi Hu]. unfold handleMessage.
  destruct (message (snd em)) as [content|]; [|apply dbInv_keeps, keepsDatabase_ret].
  apply dbInv_bind;
    [destruct (isLid _); apply dbInv_keeps; auto with frames|].
  intros _. destruct (_ && _); [|apply dbInv_keeps, keepsDatabase_ret].
  apply dbInv_try_catch; [|intros e; apply dbInv_keeps, keepsDatabase_log].
  unfold storeIncoming. apply dbInv_bind.
  { apply dbInv_keeps. intros w. apply acquireMedia_spec. }
  intros media. apply dbInv_bind.
  { intros w Hp. unfold dbInsertMessage, bind, getDatabase, external, putDatabase, ret.
    destruct (Database.insertMessage (database w) "incoming" _ _ "unread" _ None _ _)
      as [[i db']|e] eqn:E; cbn; [|exact Hp].
    eapply Hi; eauto. }
  intros i. apply dbInv_bind.
  { intros w Hp. destruct (saveImage_database (fst em) i (snd media) w) as [->|[u ->]];
      [exact Hp | now apply Hu]. }
  intros u. apply dbInv_bind; [apply dbInv_keeps, keepsDatabase_log|].
  intros _. apply dbInv_keeps, notifyWebhook_spec.
Qed.

(** Whatever the protocol delivers, a property of the database that
    storing an inbound message cannot break stays true. *)
Lemma handle_preserves (P : Database.t -> Prop) (e : Event) (w : World) :
  ingestionClosed P -> P (database w) -> P (database (handle e w)).
Proof.
  intros C Hp. destruct e as [s|env update|terminate|type_ ms]; cbn [handle].
  - now rewrite keepsDatabase_connectToWhatsApp.
  - now rewrite keepsDatabase_onConnectionUpdate.
  - now rewrite keepsDatabase_logoutHandler.
  - unfold onMessagesUpsert. destruct (negb _); [exact Hp|].
    apply dbInv_forEach; [|exact Hp]. intros x. now apply dbInv_handleMessage.
Qed.

Lemma wellFormed_closed : ingestionClosed Store.wellFormed.
Proof.
  split.
  - intros. eapply wellFormed_insertMessage; eauto.
  - intros. now apply wellFormed_updateMediaUrl.
Qed.

Lemma validRows_closed : ingestionClosed Store.validRows.
Proof.
  unfold Store.validRows. split.
  - intros db p m mt sn ts i db' V H. unfold Database.insertMessage in H.
    destruct p as [p|]; [|discriminate]. injection H as _ <-. cbn [Database.messages].
    apply Forall_app. split; [exact V|]. constructor; [cbn; auto | constructor].
  - intros db u i V. cbn [Database.updateMediaUrl Database.messages].
    apply Forall_map. eapply Forall_impl; [|exact V]. intros r Hr.
    now destruct (Nat.eqb (Database.id r) i).
Qed.

Variable rowIdOf : string -> option nat.
Variable validUrl : string -> bool.

(** What a reply can do to the database: nothing, or one outgoing row with
    status 'sent' followed by one status change to 'replied'. *)
Lemma replyHandler_database (send : completion unit) (timestamp : string)
    (req : ApiRequest) (srv : Server) :
  let db := database (world srv) in
  let db' := database (world (snd (replyHandler rowIdOf send timestamp req srv))) in
  db' = db
  \/ exists p m mt mu n db1 i,
       Database.insertMessage db "outgoing" (Some p) m "sent" mt mu None timestamp
       = Normal (n, db1)
       /\ db' = snd (Store.updateMessageStatus db1 i "replied").
Proof.
  cbv zeta. unfold replyHandler.
  destruct (negb (Js.truthy (body_message req)) && negb (Js.truthy (body_image req)));
    [now left|].
  destruct (negb (State.connected (state (world srv)))
            || negb (isSome (State.sock (state (world srv))))); [now left|].
  destruct (match rowIdOf (params_id req) with
            | Some i => option_map (fun r => (i, r))
                          (Store.getMessageById (database (world srv)) i)
            | None => None
            end) as [[i orig]|]; [|now left].
  destruct send as [[]|e]; [|now left].
  right. cbn. eexists _, _, _, _, _, _, _. split; reflexivity.
Qed.

Lemma webhook_keeps_messages (db : Database.t) (u e : string) (rowid : nat) :
  Database.messages (Store.setWebhook db u e rowid) = Database.messages db
  /\ Database.messages_seq (Store.setWebhook db u e rowid) = Database.messages_seq db
  /\ Database.api_keys (Store.setWebhook db u e rowid) = Database.api_keys db
  /\ Database.messages (Store.deleteWebhook db e) = Database.messages db
  /\ Database.messages_seq (Store.deleteWebhook db e) = Database.messages_seq db
  /\ Database.api_keys (Store.deleteWebhook db e) = Database.api_keys db.
Proof. repeat split. Qed.

Lemma step_sound (c : Call) (srv : Server) :
  Store.wellFormed (database (world srv)) /\ Store.validRows (database (world srv)) ->
  Store.wellFormed (database (world (step rowIdOf validUrl c srv)))
  /\ Store.validRows (database (world (step rowIdOf validUrl c srv))).
Proof.
  intros [W V]. destruct c as [e|send ts req|req|rowid req|]; cbn [step].
  - cbn [world]. split; apply handle_preserves;
      auto using wellFormed_closed, validRows_closed.
  - destruct (replyHandler_database send ts req srv)
      as [->|(p & m & mt & mu & n & db1 & i & Ei & ->)]; [auto|].
    split.
    + apply wellFormed_updateMessageStatus. eapply wellFormed_insertMessage; eauto.
    + unfold Store.validRows in *. cbn [Store.updateMessageStatus snd Database.messages].
      apply Forall_map. cbn in Ei. injection Ei as _ <-. cbn [Database.messages].
      apply Forall_app. split.
      * eapply Forall_impl; [|exact V]. intros r Hr.
        destruct (Nat.eqb (Database.id r) i); [cbn; auto | exact Hr].
      * constructor; [|constructor].
        destruct (Nat.eqb _ i); cbn; auto.
  - split.
    + unfold statusUpdateHandler.
      destruct (body_status req) as [status|]; [|exact W].
      destruct (negb (Js.truthy (Some status))); [exact W|].
      destruct (negb (includes validStatuses status)); [exact W|].
      destruct (rowIdOf (params_id req)) as [i|]; [|exact W].
      destruct (Nat.eqb _ 0); cbn; now apply wellFormed_updateMessageStatus.
    + now apply (statusUpdateHandler_answers rowIdOf req srv).
  - unfold setWebhookHandler.
    destruct (body_url req) as [url|]; [|auto].
    destruct (negb (Js.truthy (Some url))); [auto|].
    destruct (negb (validUrl url)); [auto|].
    cbn. split; [destruct W; split|]; assumption.
  - cbn. split; [destruct W; split|]; assumption.
Qed.

(** X11: through every sequence of protocol events and API requests the
    server handles, row ids stay unique and below the counter (so no two
    messages, and no two media files named after them, ever share an id),
    and the status column only ever holds unread, replied, ignored or
    sent. *)
Theorem serve_keeps_store_sound (calls : list Call) (srv : Server) :
  Store.wellFormed (database (world srv)) ->
  Store.validRows (database (world srv)) ->
  Store.wellFormed (database (world (serve rowIdOf validUrl calls srv)))
  /\ Store.validRows (database (world (serve rowIdOf validUrl calls srv))).
Proof.
  revert srv. induction calls as [|c calls IH]; intros srv W V; cbn [serve fold_left].
  - auto.
  - destruct (step_sound c srv (conj W V)) as [W' V']. now apply IH.
Qed.

End ServerInvariants.

Lemma serve_keeps_store_sound_witness :
  let env := {| WhatsApp.download := Normal [255; 216; 255]%N;
                WhatsApp.writeFile := Normal tt;
                WhatsApp.istTimestamp := "2025-01-01 10:00:00";
                WhatsApp.isoTimestamp := "2025-01-01T04:30:00.000Z" |} in
  let msg := {| WhatsApp.key := {| WhatsApp.remoteJid := Some "919812345678@s.whatsapp.net";
                                   WhatsApp.participant := None;
                                   WhatsApp.fromMe := false |};
                WhatsApp.message :=
                  Some {| WhatsApp.conversation := None;
                          WhatsApp.extendedTextMessage := None;
                          WhatsApp.imageMessage := Some {| WhatsApp.caption := Some "our cat" |} |};
                WhatsApp.pushName := Some "Asha" |} in
  let req := {| Api.credentials := {| Routes.x_api_key := None;
                                      Routes.authorization := None |};
                Api.params_id := "1"; Api.body_message := None;
                Api.body_image := None; Api.body_status := Some "ignored";
                Api.body_url := None |} in
  let srv := Api.serve Api.decimalRowId (fun _ => true)
               [Api.Protocol (WhatsApp.Upsert "notify" [(env, msg); (env, msg)]);
                Api.PatchStatus req]
               {| Api.world := Runtime.initial; Api.outbox := [] |} in
  map (fun r => (Database.id r, Database.reply_status r, Database.media_url r))
    (Database.messages (Runtime.database (Api.world srv)))
  = [(1, "ignored", Some "1.jpg"); (2, "unread", Some "2.jpg")]
  /\ Store.wellFormed (Runtime.database (Api.world srv))
  /\ Store.validRows (Runtime.database (Api.world srv)).
Proof.
  intros env msg req srv. split; [reflexivity|].
  apply serve_keeps_store_sound; [apply wellFormed_empty | constructor].
Defined.

Section Startup.
Import Runtime Routes WhatsApp Api.

Variable rowIdOf : string -> option nat.
Variable validUrl : string -> bool.

Lemma apiKeys_closed (l : list Database.ApiKeyRow) :
  ingestionClosed (fun db => Database.api_keys db = l).
Proof.
  split.
  - intros db p m mt sn ts i db' H E. unfold Database.insertMessage in E.
    destruct p; [|discriminate]. now injection E as _ <-.
  - intros db u i H. exact H.
Qed.

Lemma step_keeps_apiKeys (c : Call) (srv : Server) :
  Database.api_keys (database (world (step rowIdOf validUrl c srv)))
  = Database.api_keys (database (world srv)).
Proof.
  destruct c as [e|send ts req|req|rowid req|]; cbn [step].
  - cbn [world]. now apply (handle_preserves _ e (world srv) (apiKeys_closed _)).
  - destruct (replyHandler_database rowIdOf send ts req srv)
      as [->|(p & m & mt & mu & n & db1 & i & Ei & ->)]; [reflexivity|].
    cbn in Ei. now injection Ei as _ <-.
  - unfold statusUpdateHandler.
    destruct (body_status req) as [status|]; [|reflexivity].
    destruct (negb (Js.truthy (Some status))); [reflexivity|].
    destruct (negb (includes validStatuses status)); [reflexivity|].
    destruct (rowIdOf (params_id req)) as [i|]; [|reflexivity].
    destruct (Nat.eqb _ 0); reflexivity.
  - unfold setWebhookHandler.
    destruct (body_url req) as [url|]; [|reflexivity].
    destruct (negb (Js.truthy (Some url))); [reflexivity|].
    destruct (negb (validUrl url)); reflexivity.
  - reflexivity.
Qed.

Lemma serve_keeps_apiKeys (calls : list Call) (srv : Server) :
  Database.api_keys (database (world (serve rowIdOf validUrl calls srv)))
  = Database.api_keys (database (world srv)).
Proof.
  revert srv. induction calls as [|c calls IH]; intros srv; cbn [serve fold_left].
  - reflexivity.
  - fold (serve rowIdOf validUrl calls (step rowIdOf validUrl c srv)).
    now rewrite IH, step_keeps_apiKeys.
Qed.

(** Start-up leaves the key ensured and the first socket stored in a fresh,
    disconnected state that knows how to reconnect. *)
Lemma startup_spec (randomKey : string) (now : Z) (s : State.Sock) (w : World) :
  fst (startup randomKey now s w) = Normal (fst (Database.ensureApiKey (database w) randomKey now))
  /\ database (snd (startup randomKey now s w))
     = snd (Database.ensureApiKey (database w) randomKey now)
  /\ state (snd (startup randomKey now s w))
     = State.setSock (State.setReconnectFn State.new (Some State.connectToWhatsAppFn))
         (Some s).
Proof. repeat split. Qed.

(** X12: the key ensured at start-up is the key for good. Whatever protocol
    events and API requests follow, the stored key is the one
    [ensureApiKey] returned at start-up, GET /config shows that key, and
    the API-key middleware never answers 500 "API key not configured". *)
Theorem api_key_outlives_startup (randomKey : string) (now : Z) (s : State.Sock)
    (w : World) (calls : list Call) :
  let r := startup randomKey now s w in
  let srv := serve rowIdOf validUrl calls {| world := snd r; outbox := [] |} in
  exists k,
    fst r = Normal k
    /\ option_map Database.key (Database.getApiKey (database (world srv))) = Some k
    /\ (forall req, authenticateApiKey (database (world srv)) req
                    <> Answered (json 500 false "API key not configured"))
    /\ (exists c p n, configHandler srv = withData (ConfigData (Some k) c p n)).
Proof.
  intros r srv.
  destruct (startup_spec randomKey now s w) as (F & D & _). fold r in F, D.
  exists (fst (Database.ensureApiKey (database w) randomKey now)).
  destruct (ensureApiKey_stores (database w) randomKey now) as (k & Hk & Ek).
  assert (G : Database.getApiKey (database (world srv)) = Some k).
  { unfold Database.getApiKey in *. subst srv. rewrite serve_keeps_apiKeys.
    cbn [world]. now rewrite D. }
  split; [exact F|]. split; [now rewrite G, <- Ek|]. split.
  - intros req. unfold authenticateApiKey. rewrite G.
    destruct (negb (Js.truthy (x_api_key req))); [discriminate|].
    destruct (timingSafeCompare _ _) as [[|]|e]; discriminate.
  - unfold configHandler. rewrite G. cbn [option_map]. rewrite Ek. eauto.
Qed.

End Startup.

(* ===================================================================== *)
(** * Webhook configuration and ingestion *)
(* ===================================================================== *)

Section WebhookFlow.
Import Runtime Routes WhatsApp Api.

Variable validUrl : string -> bool.

(** What one stored message adds to the webhook calls, by what
    [getWebhook] finds. A downloaded image whose file cannot be written
    ends the handling of the message in the outer catch, before the
    webhook is looked up. *)
Lemma handleMessage_webhook (env : MessageEnv) (msg : WAMessage)
    (content : MessageContent) (jid : string) (w : World) :
  message msg = Some content ->
  fromMe (key msg) = false ->
  Js.truthy (Some (extractText content)) || isSome (imageMessage content) = true ->
  resolveFrom (key msg) = Some jid ->
  let w' := snd (handleMessage (env, msg) w) in
  let unwritten := match imageMessage content, download env, writeFile env with
                   | Some _, Normal _, Throws _ => true
                   | _, _, _ => false
                   end in
  let kind := match imageMessage content, download env with
              | Some _, Normal _ => "image"
              | _, _ => "text"
              end in
  match (if unwritten then None
         else Database.getWebhook (database w) "message.received") with
  | Some hook =>
      if Js.truthy (Some (Database.url hook)) then
        exists payload,
          filter isWebhookCall (trace w')
          = (filter isWebhookCall (trace w)
             ++ [CallWebhookDetached (Database.url hook) payload])%list
          /\ wp_event payload = "message.received"
          /\ wp_id payload = S (Database.messages_seq (database w))
          /\ wp_from payload = Some jid
          /\ wp_text payload = extractText content
          /\ wp_mediaType payload = kind
      else filter isWebhookCall (trace w') = filter isWebhookCall (trace w)
  | None => filter isWebhookCall (trace w') = filter isWebhookCall (trace w)
  end.
Proof.
  intros Hm Hf Ht Hr. cbv zeta.
  unfold handleMessage. cbn [fst snd]. rewrite Hm, Hf, Ht, Hr. cbn [negb andb].
  unfold Database.getWebhook.
  unfold storeIncoming, acquireMedia, saveImage, notifyWebhook, dbInsertMessage,
    bind, try_catch, log, emit, external, ret, getDatabase, putDatabase,
    Database.insertMessage, Database.getWebhook.
  destruct (isLid (remoteJid (key msg)));
    (destruct (imageMessage content) as [im|];
     [destruct (download env) as [buf|e]; [destruct (writeFile env) as [[]|x]|]|]);
    cbn -[Js.numberToString String.append];
    try (destruct (find _ _) as [hook|]; [destruct (negb _)|]);
    cbn -[Js.numberToString String.append];
    rewrite ?filter_app; cbn -[Js.numberToString String.append];
    rewrite ?app_nil_r; try reflexivity;
    eexists; (split; [reflexivity | repeat split]).
Qed.

(** X13: webhook calls follow the configuration. After POST /webhook has
    been answered 200 for a url, the next inbound message that is handled
    to the end of its try block starts exactly one webhook call, to that
    url, carrying the new row's id, the resolved sender, the extracted
    text and the media kind; a message whose downloaded image cannot be
    written to the media folder is stored but starts no call; and after
    DELETE /webhook no message starts one. *)
Theorem webhook_follows_configuration (rowid : nat) (req : ApiRequest) (srv : Server)
    (env : MessageEnv) (msg : WAMessage) (content : MessageContent) (jid : string) :
  message msg = Some content ->
  fromMe (key msg) = false ->
  Js.truthy (Some (extractText content)) || isSome (imageMessage content) = true ->
  resolveFrom (key msg) = Some jid ->
  let unwritten := match imageMessage content, download env, writeFile env with
                   | Some _, Normal _, Throws _ => true
                   | _, _, _ => false
                   end in
  (code (fst (setWebhookHandler validUrl rowid req srv)) = 200%Z ->
   let w := world (snd (setWebhookHandler validUrl rowid req srv)) in
   let w' := snd (handleMessage (env, msg) w) in
   exists u,
     body_url req = Some u
     /\ (unwritten = false ->
         exists payload,
           filter isWebhookCall (trace w')
           = (filter isWebhookCall (trace w) ++ [CallWebhookDetached u payload])%list
           /\ wp_event payload = "message.received"
           /\ wp_id payload = S (Database.messages_seq (database (world srv)))
           /\ wp_from payload = Some jid
           /\ wp_text payload = extractText content
           /\ wp_mediaType payload = match imageMessage content, download env with
                                     | Some _, Normal _ => "image"
                                     | _, _ => "text"
                                     end)
     /\ (unwritten = true ->
         filter isWebhookCall (trace w') = filter isWebhookCall (trace w)
         /\ List.length (Database.messages (database w'))
            = S (List.length (Database.messages (database w)))))
  /\ (let w := world (snd (deleteWebhookHandler srv)) in
      filter isWebhookCall (trace (snd (handleMessage (env, msg) w)))
      = filter isWebhookCall (trace w)).
Proof.
  intros Hm Hf Ht Hr unwritten. split.
  - unfold setWebhookHandler.
    destruct (body_url req) as [u|]; [|cbn; discriminate].
    destruct (Js.truthy (Some u)) eqn:Tu; cbn [negb]; [|cbn; discriminate].
    destruct (validUrl u); cbn [negb]; [|cbn; discriminate].
    intros _. cbv zeta. cbn [snd].
    set (w := world (logged info "Webhook configured"
                       (withDatabase
                          (Store.setWebhook (database (world srv)) u "message.received" rowid)
                          srv))).
    pose proof (handleMessage_webhook env msg content jid w Hm Hf Ht Hr) as H.
    cbv zeta in H. fold unwritten in H.
    assert (G : Database.getWebhook (database w) "message.received"
                = Some {| Database.wh_id := rowid; Database.url := u;
                          Database.event := "message.received"; Database.active := 1 |}).
    { subst w. cbn [logged withDatabase world log emit putDatabase snd database].
      apply setWebhook_getWebhook. }
    exists u. split; [reflexivity|]. split.
    + intros Hu. rewrite Hu, G in H. cbn [Database.url] in H. rewrite Tu in H.
      destruct H as (payload & E & He & Hi & Hfrom & Htext & Hkind).
      exists payload. repeat split; auto.
    + intros Hu. rewrite Hu in H. split; [exact H|].
      destruct (handleMessage_stores env msg content jid w Hm Hf Ht Hr)
        as (_ & _ & rows & row & E & L & _).
      rewrite E, length_app, L. cbn. lia.
  - cbv zeta.
    set (w := world (snd (deleteWebhookHandler srv))).
    pose proof (handleMessage_webhook env msg content jid w Hm Hf Ht Hr) as H.
    cbv zeta in H.
    assert (G : Database.getWebhook (database w) "message.received" = None).
    { subst w. cbn [deleteWebhookHandler logged withDatabase world log emit
                      putDatabase snd database].
      apply setWebhook_getWebhook; exact "" || exact 0. }
    rewrite G in H.
    destruct (imageMessage content);
      [destruct (download env); [destruct (writeFile env)|]|]; exact H.
Qed.

End WebhookFlow.

Lemma webhook_follows_configuration_witness :
  let env written := {| WhatsApp.download := Normal [255; 216; 255]%N;
                        WhatsApp.writeFile := written;
                        WhatsApp.istTimestamp := "2025-01-01 10:00:00";
                        WhatsApp.isoTimestamp := "2025-01-01T04:30:00.000Z" |} in
  let msg := {| WhatsApp.key := {| WhatsApp.remoteJid := Some "919812345678@s.whatsapp.net";
                                   WhatsApp.participant := None;
                                   WhatsApp.fromMe := false |};
                WhatsApp.message :=
                  Some {| WhatsApp.conversation := Some "hello";
                          WhatsApp.extendedTextMessage := None;
                          WhatsApp.imageMessage :=
                            Some {| WhatsApp.caption := None |} |};
                WhatsApp.pushName := None |} in
  let req := {| Api.credentials := {| Routes.x_api_key := None;
                                      Routes.authorization := None |};
                Api.params_id := ""; Api.body_message := None;
                Api.body_image := None; Api.body_status := None;
                Api.body_url := Some "https://example.org/hook" |} in
  let srv := {| Api.world := Runtime.initial; Api.outbox := [] |} in
  let posted := Api.setWebhookHandler (fun _ => true) 1 req srv in
  let calls written :=
    filter Api.isWebhookCall
      (Runtime.trace
         (snd (WhatsApp.handleMessage (env written, msg) (Api.world (snd posted))))) in
  (exists payload,
     calls (Normal tt) = [Runtime.CallWebhookDetached "https://example.org/hook" payload]
     /\ Runtime.wp_text payload = "hello"
     /\ Runtime.wp_mediaType payload = "image")
  /\ calls (Throws "ENOSPC") = [].
Proof.
  intros env msg req srv posted calls.
  pose (content := {| WhatsApp.conversation := Some "hello";
                      WhatsApp.extendedTextMessage := None;
                      WhatsApp.imageMessage := Some {| WhatsApp.caption := None |} |}).
  split.
  - destruct (webhook_follows_configuration (fun _ => true) 1 req srv
                (env (Normal tt)) msg content
                "919812345678@s.whatsapp.net" eq_refl eq_refl eq_refl eq_refl)
      as [H _].
    destruct (H eq_refl) as (u & Eu & One & _).
    destruct (One eq_refl) as (payload & E & _ & _ & _ & T & K).
    injection Eu as <-. exists payload.
    split; [exact E | split; [exact T | exact K]].
  - destruct (webhook_follows_configuration (fun _ => true) 1 req srv
                (env (Throws "ENOSPC")) msg content
                "919812345678@s.whatsapp.net" eq_refl eq_refl eq_refl eq_refl)
      as [H _].
    destruct (H eq_refl) as (u & _ & _ & Zero).
    destruct (Zero eq_refl) as [E _]. exact E.
Defined.

(* ===================================================================== *)
(** * The dashboard credentials *)
(* ===================================================================== *)

Section Dashboard.
Import Runtime Routes.

Lemma split_parts_clean (sep : ascii) (s : string) :
  Forall (fun p => Text.hasChar sep p = false) (Js.split sep s).
Proof.
  induction s as [|c s IH]; cbn [Js.split]; [repeat constructor|].
  destruct (Ascii.eqb c sep) eqn:E; [constructor; [reflexivity | exact IH]|].
  destruct (Js.split sep s) as [|h r]; [repeat constructor; cbn; now rewrite E|].
  inversion IH as [|? ? Hh Hr]; subst. constructor; [|exact Hr].
  cbn. now rewrite E, Hh.
Qed.

Lemma split_clean (sep : ascii) (s : string) :
  Text.hasChar sep s = false -> Js.split sep s = [s].
Proof.
  induction s as [|c s IH]; cbn [Js.split Text.hasChar]; [reflexivity|].
  intros H. apply orb_false_iff in H as [E H]. rewrite E, (IH H). reflexivity.
Qed.

Lemma split_at (sep : ascii) (u rest : string) :
  Text.hasChar sep u = false ->
  Js.split sep (u ++ String sep rest) = u :: Js.split sep rest.
Proof.
  induction u as [|c u IH]; cbn [String.append Js.split Text.hasChar].
  - intros _. now rewrite Ascii.eqb_refl.
  - intros H. apply orb_false_iff in H as [E H]. rewrite E, (IH H). reflexivity.
Qed.

Variable base64ToUtf8 : string -> string.

Lemma authenticateBasicAuth_Next (config : Config) (req : Request) :
  authenticateBasicAuth base64ToUtf8 config req = Next <->
  exists authHeader base64Credentials username password,
    authorization req = Some authHeader
    /\ Js.startsWith "Basic " authHeader = true
    /\ Js.index (Js.split " " authHeader) 1 = Some base64Credentials
    /\ Js.index (Js.split ":" (base64ToUtf8 base64Credentials)) 0 = Some username
    /\ Js.index (Js.split ":" (base64ToUtf8 base64Credentials)) 1 = Some password
    /\ username <> "" /\ password <> ""
    /\ DASHBOARD_USER config = Some username
    /\ DASHBOARD_PASSWORD config = Some password.
Proof.
  unfold authenticateBasicAuth. split.
  - destruct (authorization req) as [h|]; [|discriminate].
    destruct (negb (Js.truthy (Some h)) || negb (Js.startsWith "Basic " h)) eqn:G;
      [discriminate|].
    apply orb_false_iff in G as [_ G]. apply negb_false_iff in G.
    destruct (Js.index (Js.split " " h) 1) as [b64|] eqn:Eb; [|discriminate].
    destruct (timingSafeCompare _ (DASHBOARD_USER config)) as [[|]|e] eqn:Eu;
      [| |discriminate];
      (destruct (timingSafeCompare _ (DASHBOARD_PASSWORD config)) as [[|]|e'] eqn:Ep;
       cbn [negb orb]; try discriminate).
    intros _.
    apply timingSafeCompare_sound in Eu as (u & Eu1 & Eu2 & Nu).
    apply timingSafeCompare_sound in Ep as (p & Ep1 & Ep2 & Np).
    exists h, b64, u, p. auto 10.
  - intros (h & b64 & u & p & Eh & Hs & Hb & Hu & Hp & Nu & Np & Cu & Cp).
    rewrite Eh, Hs, Hb, Hu, Hp, Cu, Cp.
    assert (Th : Js.truthy (Some h) = true).
    { apply truthy_Some. intros ->. discriminate. }
    rewrite Th. cbn [negb orb].
    now rewrite !timingSafeCompare_same.
Qed.

(** X14: the dashboard middleware lets a request through exactly when its
    header starts with "Basic ", and the first two colon-separated parts of
    the decoded credentials are the configured username and password, both
    non-empty. *)
Theorem basic_auth_exact (config : Config) (req : Request) :
  authenticateBasicAuth base64ToUtf8 config req = Next <->
  exists authHeader base64Credentials username password,
    authorization req = Some authHeader
    /\ Js.startsWith "Basic " authHeader = true
    /\ Js.index (Js.split " " authHeader) 1 = Some base64Credentials
    /\ Js.index (Js.split ":" (base64ToUtf8 base64Credentials)) 0 = Some username
    /\ Js.index (Js.split ":" (base64ToUtf8 base64Credentials)) 1 = Some password
    /\ username <> "" /\ password <> ""
    /\ DASHBOARD_USER config = Some username
    /\ DASHBOARD_PASSWORD config = Some password.
Proof. exact (authenticateBasicAuth_Next config req). Qed.

Lemma authenticateBasicAuth_colon (config : Config) (req : Request)
    (base64Credentials username password : string) :
  authorization req = Some ("Basic " ++ base64Credentials) ->
  DASHBOARD_USER config = Some username ->
  DASHBOARD_PASSWORD config = Some password ->
  (Text.hasChar " " base64Credentials = false ->
   base64ToUtf8 base64Credentials = username ++ ":" ++ password ->
   username <> "" -> password <> "" ->
   Text.hasChar ":" username = false -> Text.hasChar ":" password = false ->
   authenticateBasicAuth base64ToUtf8 config req = Next)
  /\ (Text.hasChar ":" password = true ->
      authenticateBasicAuth base64ToUtf8 config req <> Next).
Proof.
  intros Eh Cu Cp. split.
  - intros Hsp Hd Nu Np Hu Hp. apply authenticateBasicAuth_Next.
    exists ("Basic " ++ base64Credentials), base64Credentials, username, password.
    assert (S1 : Js.split " " ("Basic " ++ base64Credentials)
                 = ["Basic"; base64Credentials]).
    { change ("Basic " ++ base64Credentials)
        with ("Basic" ++ String " " base64Credentials).
      rewrite split_at by reflexivity. now rewrite split_clean. }
    assert (S2 : Js.split ":" (base64ToUtf8 base64Credentials) = [username; password]).
    { rewrite Hd. change (username ++ ":" ++ password)
        with (username ++ String ":" password).
      rewrite split_at by exact Hu. now rewrite split_clean. }
    rewrite S1, S2. repeat split; auto. apply prefix_app.
  - intros Hc H. apply authenticateBasicAuth_Next in H
      as (h & b64 & u & p & _ & _ & _ & _ & Hp & _ & _ & _ & Cp').
    rewrite Cp in Cp'. injection Cp' as <-.
    pose proof (split_parts_clean ":" (base64ToUtf8 b64)) as F.
    rewrite Forall_forall in F.
    unfold Js.index in Hp. apply nth_error_In in Hp. apply F in Hp. congruence.
Qed.

(** X15: credentials without a colon log in, and a configured password
    that contains a colon locks the dashboard: the middleware splits the
    decoded credentials at every colon and compares only the second part,
    which never contains one. *)
Theorem basic_auth_colon (config : Config) (req : Request)
    (base64Credentials username password : string) :
  authorization req = Some ("Basic " ++ base64Credentials) ->
  DASHBOARD_USER config = Some username ->
  DASHBOARD_PASSWORD config = Some password ->
  (Text.hasChar " " base64Credentials = false ->
   base64ToUtf8 base64Credentials = username ++ ":" ++ password ->
   username <> "" -> password <> "" ->
   Text.hasChar ":" username = false -> Text.hasChar ":" password = false ->
   authenticateBasicAuth base64ToUtf8 config req = Next)
  /\ (Text.hasChar ":" password = true ->
      authenticateBasicAuth base64ToUtf8 config req <> Next).
Proof. exact (authenticateBasicAuth_colon config req base64Credentials username password). Qed.

(** X16: a loaded configuration never has an empty dashboard username or
    password: a variable that is unset or empty gives the built-in value
    ('admin', 'admin123'), any other value is taken as it is. So with
    nothing set in the environment, the credentials admin:admin123 open the
    dashboard. *)
Theorem loadConfig_credentials (env : string -> option string) :
  Config.DASHBOARD_USER (Config.loadConfig env) <> ""
  /\ Config.DASHBOARD_PASSWORD (Config.loadConfig env) <> ""
  /\ (Js.truthy (env "DASHBOARD_USER") = false ->
      Config.DASHBOARD_USER (Config.loadConfig env) = "admin")
  /\ (Js.truthy (env "DASHBOARD_PASSWORD") = false ->
      Config.DASHBOARD_PASSWORD (Config.loadConfig env) = "admin123")
  /\ (forall v, env "DASHBOARD_USER" = Some v -> v <> "" ->
        Config.DASHBOARD_USER (Config.loadConfig env) = v)
  /\ (forall v, env "DASHBOARD_PASSWORD" = Some v -> v <> "" ->
        Config.DASHBOARD_PASSWORD (Config.loadConfig env) = v)
  /\ (Js.truthy (env "DASHBOARD_USER") = false ->
      Js.truthy (env "DASHBOARD_PASSWORD") = false ->
      forall req base64Credentials,
        authorization req = Some ("Basic " ++ base64Credentials) ->
        Text.hasChar " " base64Credentials = false ->
        base64ToUtf8 base64Credentials = "admin:admin123" ->
        authenticateBasicAuth base64ToUtf8 (Config.dashboard (Config.loadConfig env)) req
        = Next).
Proof.
  assert (D : forall v fallback, fallback <> "" -> Config.orDefault v fallback <> "").
  { intros v fb Hfb. unfold Config.orDefault, Js.or.
    destruct (Js.truthy v) eqn:T; [|exact Hfb].
    destruct v as [s|]; [|discriminate]. now apply truthy_Some. }
  assert (F : forall v fallback, Js.truthy v = false -> Config.orDefault v fallback = fallback).
  { intros v fb T. unfold Config.orDefault, Js.or. now rewrite T. }
  assert (G : forall v fallback, v <> "" -> Config.orDefault (Some v) fallback = v).
  { intros v fb Hv. unfold Config.orDefault, Js.or.
    now rewrite (proj2 (truthy_Some v) Hv). }
  cbn [Config.loadConfig Config.DASHBOARD_USER Config.DASHBOARD_PASSWORD].
  split; [apply D; discriminate|]. split; [apply D; discriminate|].
  split; [apply F|]. split; [apply F|].
  split; [intros v -> Hv; now apply G|]. split; [intros v -> Hv; now apply G|].
  intros Tu Tp req b64 Eh Hs Hd.
  apply (authenticateBasicAuth_colon _ req b64 "admin" "admin123"); try assumption;
    try reflexivity; try discriminate.
  - cbn. now rewrite F.
  - cbn. now rewrite F.
Qed.

End Dashboard.

Lemma basic_auth_exact_witness :
  Routes.authenticateBasicAuth Js.atob
    {| Routes.DASHBOARD_USER := Some "testuser";
       Routes.DASHBOARD_PASSWORD := Some "testpass" |}
    {| Routes.x_api_key := None;
       Routes.authorization := Some "Basic dGVzdHVzZXI6dGVzdHBhc3M=" |}
  = Routes.Next.
Proof.
  apply basic_auth_exact.
  exists "Basic dGVzdHVzZXI6dGVzdHBhc3M=", "dGVzdHVzZXI6dGVzdHBhc3M=",
    "testuser", "testpass".
  repeat split; discriminate.
Defined.

Lemma basic_auth_colon_witness :
  Routes.authenticateBasicAuth Js.atob
    {| Routes.DASHBOARD_USER := Some "admin";
       Routes.DASHBOARD_PASSWORD := Some "s3cret" |}
    {| Routes.x_api_key := None; Routes.authorization := Some "Basic YWRtaW46czNjcmV0" |}
  = Routes.Next
  /\ Routes.authenticateBasicAuth Js.atob
       {| Routes.DASHBOARD_USER := Some "admin";
          Routes.DASHBOARD_PASSWORD := Some "a:b" |}
       {| Routes.x_api_key := None; Routes.authorization := Some "Basic YWRtaW46YTpi" |}
     <> Routes.Next.
Proof.
  split.
  - apply (basic_auth_colon Js.atob _ _ "YWRtaW46czNjcmV0" "admin" "s3cret");
      reflexivity || discriminate.
  - apply (basic_auth_colon Js.atob _ _ "YWRtaW46YTpi" "admin" "a:b"); reflexivity.
Defined.

Lemma loadConfig_credentials_witness :
  let env := fun name : string => if (name =? "DASHBOARD_USER")%string then Some "" else None in
  Config.DASHBOARD_USER (Config.loadConfig env) = "admin"
  /\ Routes.authenticateBasicAuth Js.atob (Config.dashboard (Config.loadConfig env))
       {| Routes.x_api_key := None;
          Routes.authorization := Some "Basic YWRtaW46YWRtaW4xMjM=" |}
     = Routes.Next.
Proof.
  intros env.
  destruct (loadConfig_credentials Js.atob env) as (_ & _ & U & _ & _ & _ & L).
  split; [apply U; reflexivity|].
  apply (L eq_refl eq_refl _ "YWRtaW46YWRtaW4xMjM="); reflexivity.
Defined.

(* ===================================================================== *)
(** * What ingestion stores and what it leaves alone *)
(* ===================================================================== *)

Section IngestionMore.
Import Runtime Routes WhatsApp Api.

(** The database after one stored message: the row inserted, and possibly
    its media reference set. *)
Lemma storeIncoming_database (env : MessageEnv) (msg : WAMessage) (jid text : string)
    (im : option ImageMessage) (w : World) :
  exists kind i db1,
    Database.insertMessage (database w) "incoming" (Some jid) text "unread"
      (Some kind) None (Js.or (pushName msg) None) (istTimestamp env) = Normal (i, db1)
    /\ (database (snd (storeIncoming env msg (Some jid) text im w)) = db1
        \/ exists u, database (snd (storeIncoming env msg (Some jid) text im w))
                     = Database.updateMediaUrl db1 u i).
Proof.
  unfold storeIncoming, acquireMedia, saveImage, notifyWebhook, dbInsertMessage,
    bind, try_catch, log, emit, external, ret, getDatabase, putDatabase,
    Database.insertMessage, Database.getWebhook.
  destruct im as [i|]; [destruct (download env) as [buf|e]|];
    cbn -[Js.numberToString String.append Database.updateMediaUrl].
  - destruct (writeFile env) as [[]|e];
      cbn -[Js.numberToString String.append Database.updateMediaUrl].
    + destruct (find _ _) as [h|]; [destruct (negb _)|];
        cbn -[Js.numberToString String.append Database.updateMediaUrl];
        eexists _, _, _; (split; [reflexivity|]); right; eexists; reflexivity.
    + eexists _, _, _; (split; [reflexivity|]); now left.
  - destruct (find _ _) as [h|]; [destruct (negb _)|]; cbn;
      eexists _, _, _; (split; [reflexivity|]); now left.
  - destruct (find _ _) as [h|]; [destruct (negb _)|]; cbn;
      eexists _, _, _; (split; [reflexivity|]); now left.
Qed.

(** A message that is to be stored adds exactly one row, an incoming one. *)
Lemma handleMessage_adds_one (env : MessageEnv) (msg : WAMessage)
    (content : MessageContent) (jid : string) (w : World) :
  message msg = Some content ->
  fromMe (key msg) = false ->
  Js.truthy (Some (extractText content)) || isSome (imageMessage content) = true ->
  resolveFrom (key msg) = Some jid ->
  let db' := database (snd (handleMessage (env, msg) w)) in
  List.length (Database.messages db') = S (List.length (Database.messages (database w)))
  /\ Store.getMessageCount db' = S (Store.getMessageCount (database w)).
Proof.
  intros Hm Hf Ht Hr db'.
  assert (E : exists w0, database w0 = database w
                /\ db' = database (snd (storeIncoming env msg (Some jid)
                                          (extractText content) (imageMessage content) w0))).
  { subst db'. unfold handleMessage. cbn [fst snd]. rewrite Hm, Hf, Ht, Hr.
    cbn [negb andb]. unfold bind at 1.
    exists (snd ((if isLid (remoteJid (key msg))
                  then log info "LID message detected" else ret tt) w)).
    split; [destruct (isLid _); reflexivity|].
    destruct (isLid _); cbn [log emit ret snd]; unfold try_catch;
      match goal with |- context [storeIncoming ?a ?b ?c ?d ?e ?w0] =>
        destruct (storeIncoming a b c d e w0) as [[[]|x] w1] end; reflexivity. }
  destruct E as (w0 & D0 & ->).
  destruct (storeIncoming_database env msg jid (extractText content)
              (imageMessage content) w0) as (kind & i & db1 & Ei & [->|[u ->]]);
    rewrite D0 in Ei.
  - split.
    + cbn in Ei. injection Ei as _ <-. cbn [Database.messages].
      rewrite length_app. cbn. lia.
    + rewrite (getMessageCount_insert _ _ _ _ _ _ _ _ _ _ _ Ei). cbn. lia.
  - split.
    + cbn in Ei. injection Ei as _ <-. cbn [Database.updateMediaUrl Database.messages].
      rewrite length_map, length_app. cbn. lia.
    + rewrite getMessageCount_updateMediaUrl.
      rewrite (getMessageCount_insert _ _ _ _ _ _ _ _ _ _ _ Ei). cbn. lia.
Qed.

(** X17: every delivery is stored. A notify batch of messages that can be
    stored adds one row per message and raises the count of incoming
    messages (the figure GET /status reports) by the size of the batch: a
    message delivered twice is stored twice. *)
Theorem every_delivery_is_stored (batch : list (MessageEnv * WAMessage)) (w : World) :
  Forall (fun em => storable (snd em)) batch ->
  let r := onMessagesUpsert "notify" batch w in
  fst r = Normal tt
  /\ List.length (Database.messages (database (snd r)))
     = List.length (Database.messages (database w)) + List.length batch
  /\ Store.getMessageCount (database (snd r))
     = Store.getMessageCount (database w) + List.length batch
  /\ (forall outbox_,
        statusHandler {| world := snd r; outbox := outbox_ |}
        = withData (StatusData (State.connected (state w)) (State.phone (state w))
                      (Store.getMessageCount (database w) + List.length batch))).
Proof.
  intros F. cbv zeta. unfold onMessagesUpsert.
  change (negb ("notify" =? "notify")) with false. cbv iota.
  assert (G : fst (forEach handleMessage batch w) = Normal tt
              /\ List.length (Database.messages (database (snd (forEach handleMessage batch w))))
                 = List.length (Database.messages (database w)) + List.length batch
              /\ Store.getMessageCount (database (snd (forEach handleMessage batch w)))
                 = Store.getMessageCount (database w) + List.length batch).
  { revert w. induction F as [|[env msg] rest Hs _ IH]; intros w; cbn [forEach].
    - cbn. repeat split; lia.
    - destruct Hs as (content & jid & Hm & Hf & Ht & Hr). cbn [snd] in *.
      destruct (handleMessage_stores env msg content jid w Hm Hf Ht Hr) as (Hn & _).
      destruct (handleMessage_adds_one env msg content jid w Hm Hf Ht Hr) as (L & C).
      unfold bind. destruct (handleMessage (env, msg) w) as [[[]|e] w1];
        cbn [fst snd] in *; [|discriminate].
      destruct (IH w1) as (A & B & D). rewrite B, D, L, C. cbn [List.length].
      repeat split; [exact A | lia | lia]. }
  destruct G as (A & B & C). repeat split; auto.
  intros o. unfold statusHandler. cbv zeta. cbn [world State.getStatus State.sv_connected
                                                   State.sv_phone]. rewrite C.
  pose proof (keepsState_onMessagesUpsert "notify" batch w) as K.
  unfold onMessagesUpsert in K. change (negb ("notify" =? "notify")) with false in K.
  cbv iota in K. now rewrite K.
Qed.

(** X18: what ingestion leaves alone. A batch whose type is not notify
    changes nothing at all; and a message without content, a message of
    this account's own, or a message with neither text nor image stores no
    row, starts no webhook call and leaves the connection state as it
    was. *)
Theorem ingestion_ignores (w : World) :
  (forall type_ batch, type_ <> "notify" ->
      onMessagesUpsert type_ batch w = (Normal tt, w))
  /\ (forall env msg,
        message msg = None
        \/ fromMe (key msg) = true
        \/ (exists content, message msg = Some content
                            /\ extractText content = ""
                            /\ imageMessage content = None) ->
        let w' := snd (handleMessage (env, msg) w) in
        database w' = database w
        /\ state w' = state w
        /\ filter isWebhookCall (trace w') = filter isWebhookCall (trace w)).
Proof.
  split.
  - intros type_ batch H. unfold onMessagesUpsert.
    apply String.eqb_neq in H. now rewrite H.
  - intros env msg H. cbv zeta. unfold handleMessage. cbn [fst snd].
    destruct (message msg) as [content|] eqn:Em; [|repeat split].
    assert (G : negb (fromMe (key msg))
                && (Js.truthy (Some (extractText content))
                    || isSome (imageMessage content)) = false).
    { destruct H as [H|[H|(c & Ec & Et & Ei)]]; [discriminate | now rewrite H |].
      injection Ec as <-. rewrite Et, Ei. apply andb_false_r. }
    rewrite G. unfold bind, log, emit, ret.
    destruct (isLid (remoteJid (key msg))); cbn; repeat split.
    rewrite filter_app. cbn. apply app_nil_r.
Qed.

End IngestionMore.

Lemma every_delivery_is_stored_witness :
  let env := {| WhatsApp.download := Throws "unused"; WhatsApp.writeFile := Normal tt;
                WhatsApp.istTimestamp := "2025-01-01 10:00:00";
                WhatsApp.isoTimestamp := "2025-01-01T04:30:00.000Z" |} in
  let msg := {| WhatsApp.key := {| WhatsApp.remoteJid := Some "919812345678@s.whatsapp.net";
                                   WhatsApp.participant := None;
                                   WhatsApp.fromMe := false |};
                WhatsApp.message :=
                  Some {| WhatsApp.conversation := Some "hello";
                          WhatsApp.extendedTextMessage := None;
                          WhatsApp.imageMessage := None |};
                WhatsApp.pushName := None |} in
  let r := WhatsApp.onMessagesUpsert "notify" [(env, msg); (env, msg)] Runtime.initial in
  map Database.message (Database.messages (Runtime.database (snd r))) = ["hello"; "hello"]
  /\ Store.getMessageCount (Runtime.database (snd r)) = 2.
Proof.
  intros env msg r. split; [reflexivity|].
  assert (S : Api.storable msg).
  { eexists _, _. repeat split. }
  destruct (every_delivery_is_stored [(env, msg); (env, msg)] Runtime.initial)
    as (_ & _ & C & _); [repeat constructor; exact S|].
  exact C.
Defined.

Lemma ingestion_ignores_witness :
  let env := {| WhatsApp.download := Throws "unused"; WhatsApp.writeFile := Normal tt;
                WhatsApp.istTimestamp := "2025-01-01 10:00:00";
                WhatsApp.isoTimestamp := "2025-01-01T04:30:00.000Z" |} in
  let echo := {| WhatsApp.key := {| WhatsApp.remoteJid := Some "919812345678@s.whatsapp.net";
                                    WhatsApp.participant := None;
                                    WhatsApp.fromMe := true |};
                 WhatsApp.message :=
                   Some {| WhatsApp.conversation := Some "my own reply";
                           WhatsApp.extendedTextMessage := None;
                           WhatsApp.imageMessage := None |};
                 WhatsApp.pushName := None |} in
  WhatsApp.onMessagesUpsert "append" [(env, echo)] Runtime.initial
  = (Normal tt, Runtime.initial)
  /\ Runtime.database (snd (WhatsApp.handleMessage (env, echo) Runtime.initial))
     = Database.empty.
Proof.
  intros env echo.
  destruct (ingestion_ignores Runtime.initial) as [A B].
  split; [apply A; discriminate|].
  destruct (B env echo) as (D & _); [right; now left | exact D].
Defined.

(* ===================================================================== *)
(** * Logout, reconnection timers and the pairing route *)
(* ===================================================================== *)

Section Lifecycle.
Import Runtime Routes WhatsApp Api.

(** X19: a logout request with a socket stored and [sock.logout()]
    resolving. However the request ends, the state is reset (not
    connected, no identity, no socket), the database is untouched, and an
    immediate second logout is answered 400 "Not connected" and does
    nothing. When the session folder is absent or its removal succeeds,
    the answer is 200, the folder is gone, and one reconnection is
    scheduled after 3000 ms when a reconnect function is stored, none
    otherwise. When the folder is there and its removal throws, the answer
    is 500 "Logout failed", the folder is still there and no reconnection
    is scheduled. *)
Theorem logout_resets (s : State.Sock) (w : World)
    (purge again purgeAgain : completion unit) :
  State.sock (state w) = Some s ->
  let r := logoutHandler (Normal tt) purge w in
  state (snd r) = State.setSock (State.setConnected (state w) false None) None
  /\ State.connected (state (snd r)) = false
  /\ database (snd r) = database w
  /\ logoutHandler again purgeAgain (snd r)
     = (Normal (json 400 false "Not connected"), snd r)
  /\ (sessionFolder w = false \/ purge = Normal tt ->
      fst r = Normal (json 200 true
                        "Logged out successfully. Reconnecting to generate new QR code...")
      /\ sessionFolder (snd r) = false
      /\ filter isTimer (trace (snd r))
         = (filter isTimer (trace w)
            ++ match State.reconnectFn (state w) with
               | Some fn => [SetTimeout fn 3000]
               | None => []
               end)%list)
  /\ (forall e, sessionFolder w = true -> purge = Throws e ->
      fst r = Normal (json 500 false "Logout failed")
      /\ sessionFolder (snd r) = true
      /\ trace (snd r)
         = (trace w ++ [SockLogout s; RmSession; Logged error "Logout error:"])%list
      /\ filter isTimer (trace (snd r)) = filter isTimer (trace w)).
Proof.
  intros Hs r. subst r.
  unfold logoutHandler, try_catch, bind, getState, emit, external, modifyState,
    existsSession, rmSession, sessionRemoved, bind, emit, external, log, ret.
  cbn. rewrite Hs. cbn.
  destruct (sessionFolder w) eqn:F; cbn; [destruct purge as [[]|x]; cbn|];
    try (destruct (State.reconnectFn (state w)) eqn:Rf; cbn);
    (split; [reflexivity|]); (split; [reflexivity|]); (split; [reflexivity|]);
    (split; [reflexivity|]);
    (split;
     [intros H; try (destruct H; discriminate);
      rewrite ?filter_app; cbn; rewrite ?app_nil_r, <- ?app_assoc; repeat split
     |intros e H1 H2; try discriminate;
      rewrite ?filter_app; cbn; rewrite ?app_nil_r, <- ?app_assoc; repeat split]).
Qed.

(** X20: a close schedules exactly one reconnection, after 2000 ms when the
    reason is an explicit logout and after 5000 ms for any other reason,
    and leaves the state not connected and without identity; an update
    that is not a close schedules nothing. An explicit logout also drops
    the pairing material. *)
Theorem close_schedules_one_reconnect (env : UpdateEnv) (update : ConnectionUpdate)
    (w : World) :
  let w' := snd (onConnectionUpdate env update w) in
  filter isTimer (trace w')
  = (filter isTimer (trace w)
     ++ match connection update with
        | Some close =>
            [SetTimeout State.connectToWhatsAppFn
               (match statusCode update with
                | Some c => if (c =? loggedOut)%Z then 2000 else 5000
                | None => 5000
                end)]
        | _ => []
        end)%list
  /\ (connection update = Some close ->
      State.connected (state w') = false /\ State.phone (state w') = None)
  /\ (connection update = Some close -> statusCode update = Some loggedOut ->
      State.qrCode (state w') = None).
Proof.
  cbv zeta.
  unfold onConnectionUpdate, try_catch, bind, external, modifyState, log, emit, ret.
  destruct (Js.truthy (qr update)); [destruct (toDataURL env) as [u|e]|];
    (destruct (connection update) as [[| |]|];
     [destruct (statusCode update) as [c|]; [destruct (c =? loggedOut)%Z eqn:Ec|]| | |]);
    cbn; rewrite ?filter_app; cbn; rewrite ?app_nil_r, <- ?app_assoc;
    repeat split; intros; try congruence;
    match goal with
    | H : Some _ = Some loggedOut |- _ => injection H as ->; discriminate Ec
    end.
Qed.

(** X21: the pairing route follows the connection state. After a
    session-open update GET /qr answers 400 "Already connected"; after a
    pairing challenge rendered to a non-empty image, received while not
    connected, it answers 200 with that image; and after a close for
    explicit logout it answers 400 "not available" until a new challenge
    arrives. *)
Theorem qr_route_follows_state (env : UpdateEnv) (update : ConnectionUpdate)
    (w : World) (sent : list Sent) :
  let srv := {| world := snd (onConnectionUpdate env update w); outbox := sent |} in
  (connection update = Some open ->
   getQr srv = failure 400 "Already connected to WhatsApp")
  /\ (forall image,
        State.connected (state w) = false ->
        Js.truthy (qr update) = true -> toDataURL env = Normal image -> image <> "" ->
        connection update = None ->
        getQr srv = withData (QrData image "Scan this QR code with WhatsApp"))
  /\ (connection update = Some close -> statusCode update = Some loggedOut ->
      getQr srv = failure 400 "QR code not available. Please restart the server.").
Proof.
  cbv zeta. unfold getQr. cbn [world]. rewrite onConnectionUpdate_state. cbv zeta.
  split; [|split].
  - intros ->. destruct (Js.truthy (qr update)); [destruct (toDataURL env)|]; reflexivity.
  - intros image Hc Hq Ht Hi ->. rewrite Hq, Ht. cbn.
    rewrite Hc. apply String.eqb_neq in Hi. now rewrite Hi.
  - intros -> ->. rewrite Z.eqb_refl.
    destruct (Js.truthy (qr update)); [destruct (toDataURL env)|]; reflexivity.
Qed.

End Lifecycle.

Lemma logout_resets_witness :
  let w := {| Runtime.state :=
                State.setConnected
                  (State.setSock
                     (State.setReconnectFn State.new (Some State.connectToWhatsAppFn))
                     (Some 1))
                  true (Some "919812345678");
              Runtime.database := Database.empty;
              Runtime.sessionFolder := true; Runtime.trace := [] |} in
  let r := Routes.logoutHandler (Normal tt) (Normal tt) w in
  let r' := Routes.logoutHandler (Normal tt) (Throws "EBUSY") w in
  (State.connected (Runtime.state (snd r)) = false
   /\ filter Api.isTimer (Runtime.trace (snd r))
      = [Runtime.SetTimeout State.connectToWhatsAppFn 3000]
   /\ fst (Routes.logoutHandler (Normal tt) (Normal tt) (snd r))
      = Normal (Routes.json 400 false "Not connected"))
  /\ (fst r' = Normal (Routes.json 500 false "Logout failed")
      /\ State.connected (Runtime.state (snd r')) = false
      /\ Runtime.sessionFolder (snd r') = true
      /\ filter Api.isTimer (Runtime.trace (snd r')) = []).
Proof.
  intros w r r'. split.
  - destruct (logout_resets 1 w (Normal tt) (Normal tt) (Normal tt) eq_refl)
      as (_ & C & _ & A & S & _).
    destruct S as (_ & _ & T); [now right|].
    split; [exact C | split; [exact T|]].
    fold r in A. now rewrite A.
  - destruct (logout_resets 1 w (Throws "EBUSY") (Normal tt) (Normal tt) eq_refl)
      as (_ & C & _ & _ & _ & F).
    destruct (F "EBUSY" eq_refl eq_refl) as (A & B & _ & T).
    repeat split; assumption.
Defined.

Lemma close_schedules_one_reconnect_witness :
  let w := {| Runtime.state :=
                State.setConnected (State.setSock State.new (Some 1)) true
                  (Some "919812345678");
              Runtime.database := Database.empty;
              Runtime.sessionFolder := true; Runtime.trace := [] |} in
  let w' := snd (WhatsApp.onConnectionUpdate
                   {| WhatsApp.toDataURL := Normal "unused"; WhatsApp.user_id := None |}
                   {| WhatsApp.connection := Some WhatsApp.close;
                      WhatsApp.statusCode := Some 401%Z; WhatsApp.qr := None |} w) in
  filter Api.isTimer (Runtime.trace w')
  = [Runtime.SetTimeout State.connectToWhatsAppFn 2000]
  /\ State.connected (Runtime.state w') = false
  /\ State.qrCode (Runtime.state w') = None.
Proof.
  intros w w'.
  destruct (close_schedules_one_reconnect
              {| WhatsApp.toDataURL := Normal "unused"; WhatsApp.user_id := None |}
              {| WhatsApp.connection := Some WhatsApp.close;
                 WhatsApp.statusCode := Some 401%Z; WhatsApp.qr := None |} w)
    as (T & C & Q).
  split; [exact T | split; [apply C; reflexivity | apply Q; reflexivity]].
Defined.

Lemma qr_route_follows_state_witness :
  let env := {| WhatsApp.toDataURL := Normal "data:image/png;base64,iVBORw0KGgo=";
                WhatsApp.user_id := None |} in
  let update := {| WhatsApp.connection := None; WhatsApp.statusCode := None;
                   WhatsApp.qr := Some "2@k3Jx,Yb8=,Qw==" |} in
  Api.getQr {| Api.world := snd (WhatsApp.onConnectionUpdate env update Runtime.initial);
               Api.outbox := [] |}
  = Api.withData (Api.QrData "data:image/png;base64,iVBORw0KGgo="
                    "Scan this QR code with WhatsApp").
Proof.
  intros env update.
  destruct (qr_route_follows_state env update Runtime.initial []) as (_ & H & _).
  apply H; reflexivity || discriminate.
Defined.

(* ===================================================================== *)
(** * Nothing happens without the credentials *)
(* ===================================================================== *)

Section Middleware.
Import Runtime Routes Api.

Variable base64ToUtf8 : string -> string.

Lemma authenticateApiKey_Next (db : Database.t) (req : Request) :
  authenticateApiKey db req = Next ->
  exists k, Database.getApiKey db = Some k
            /\ x_api_key req = Some (Database.key k)
            /\ Database.key k <> "".
Proof.
  unfold authenticateApiKey.
  destruct (negb (Js.truthy (x_api_key req))); [discriminate|].
  destruct (Database.getApiKey db) as [k|]; [|discriminate].
  destruct (timingSafeCompare _ _) as [[|]|e] eqn:E; try discriminate.
  intros _. apply timingSafeCompare_sound in E as (s & E1 & E2 & N).
  injection E2 as <-. exists k. auto.
Qed.

(** X22: a request that does not present the stored API key never reaches a
    handler behind the API-key middleware: the server is left exactly as it
    was, and the answer is the middleware's refusal (401 or 500, no data)
    or an exception. The same holds behind the dashboard middleware for a
    request whose password part is not the configured password. *)
Theorem no_handler_without_credentials {A} (handler : Server -> A * Server)
    (refusal : Reply -> A) (config : Config) (req : ApiRequest) (srv : Server) :
  ((forall k, Database.getApiKey (database (world srv)) = Some k ->
              x_api_key (credentials req) <> Some (Database.key k)) ->
   snd (behindApiKey handler refusal req srv) = srv
   /\ (forall a, fst (behindApiKey handler refusal req srv) = Normal a ->
         exists r, a = refusal r /\ (code r = 401%Z \/ code r = 500%Z)
                   /\ ok r = false /\ data r = NoData))
  /\ ((forall h b64,
         authorization (credentials req) = Some h ->
         Js.index (Js.split " " h) 1 = Some b64 ->
         Js.index (Js.split ":" (base64ToUtf8 b64)) 1 <> DASHBOARD_PASSWORD config) ->
      snd (behindBasicAuth base64ToUtf8 config handler refusal req srv) = srv
      /\ (forall a, fst (behindBasicAuth base64ToUtf8 config handler refusal req srv)
                    = Normal a ->
            exists r, a = refusal r /\ code r = 401%Z
                      /\ ok r = false /\ data r = NoData)).
Proof.
  split.
  - intros H. unfold behindApiKey.
    destruct (authenticateApiKey (database (world srv)) (credentials req))
      as [r| |e] eqn:E.
    + split; [reflexivity|]. intros a Ha. injection Ha as <-.
      exists (ofResponse r). repeat split.
      * revert E. unfold authenticateApiKey.
        destruct (negb _); [intros E; injection E as <-; now left|].
        destruct (Database.getApiKey _); [|intros E; injection E as <-; now right].
        destruct (timingSafeCompare _ _) as [[|]|]; try discriminate.
        intros E; injection E as <-; now left.
      * revert E. unfold authenticateApiKey.
        destruct (negb _); [intros E; now injection E as <-|].
        destruct (Database.getApiKey _); [|intros E; now injection E as <-].
        destruct (timingSafeCompare _ _) as [[|]|]; try discriminate.
        intros E; now injection E as <-.
    + apply authenticateApiKey_Next in E as (k & Ek & Ex & _).
      elim (H k Ek Ex).
    + split; [reflexivity | discriminate].
  - intros H. unfold behindBasicAuth.
    destruct (authenticateBasicAuth base64ToUtf8 config (credentials req))
      as [r| |e] eqn:E.
    + split; [reflexivity|]. intros a Ha. injection Ha as <-.
      exists (ofResponse r).
      assert (R : r = challenge 401 "Authentication required"
                  \/ r = challenge 401 "Invalid credentials").
      { revert E. unfold authenticateBasicAuth.
        destruct (authorization _) as [h|]; [|intros E; injection E as <-; now left].
        destruct (_ || _); [intros E; injection E as <-; now left|].
        destruct (Js.index _ 1); [|discriminate].
        destruct (timingSafeCompare _ (DASHBOARD_USER config)) as [u|]; [|discriminate].
        destruct (timingSafeCompare _ (DASHBOARD_PASSWORD config)) as [p|]; [|discriminate].
        destruct (_ || _); [|discriminate].
        intros E; injection E as <-; now right. }
      destruct R as [-> | ->]; repeat split.
    + apply authenticateBasicAuth_Next in E
        as (h & b64 & u & p & Eh & _ & Eb & _ & Ep & _ & _ & _ & Cp).
      elim (H h b64 Eh Eb). congruence.
    + split; [reflexivity | discriminate].
Qed.

End Middleware.

Lemma no_handler_without_credentials_witness :
  let srv :=
    {| Api.world :=
         {| Runtime.state := State.new;
            Runtime.database :=
              Database.execute
                (snd (Database.ensureApiKey Database.empty "c2VjcmV0" 0))
                (Database.InsertMessage "incoming" (Some "919812345678@s.whatsapp.net")
                   "Test" "unread" (Some "text") None None "2025-01-01 10:00:00");
            Runtime.sessionFolder := false; Runtime.trace := [] |};
       Api.outbox := [] |} in
  let req := {| Api.credentials := {| Routes.x_api_key := Some "invalid-key";
                                      Routes.authorization := None |};
                Api.params_id := "1"; Api.body_message := None;
                Api.body_image := None; Api.body_status := Some "ignored";
                Api.body_url := None |} in
  Api.patchStatus Api.decimalRowId req srv
  = (Normal (Api.ofResponse (Routes.json 401 false "Invalid API key")), srv).
Proof.
  intros srv req.
  destruct (no_handler_without_credentials (fun s => s)
              (Api.statusUpdateHandler Api.decimalRowId req) (fun r => r)
              {| Routes.DASHBOARD_USER := None; Routes.DASHBOARD_PASSWORD := None |}
              req srv) as [H _].
  destruct H as [Hs _].
  - intros k Hk. cbn in Hk. injection Hk as <-. discriminate.
  - apply injective_projections; [reflexivity | exact Hs].
Defined.

Section NewestKey.
Import Database.

(** X23: [getApiKey] returns a stored key that no other stored key is newer
    than, and is undefined exactly when no key is stored. *)
Theorem getApiKey_newest (db : t) :
  (getApiKey db = None <-> api_keys db = [])
  /\ (forall k, getApiKey db = Some k ->
        In k (api_keys db)
        /\ forall k', In k' (api_keys db) -> (ak_created_at k' <= ak_created_at k)%Z).
Proof.
  unfold getApiKey. split.
  - split; [apply latest_None | now intros ->].
  - induction (api_keys db) as [|r rows IH]; cbn [latest]; [discriminate|].
    intros k H. destruct (latest rows) as [r'|] eqn:E.
    + destruct (IH r' eq_refl) as [Hin Hmax].
      destruct (Z.ltb_spec (ak_created_at r) (ak_created_at r')) as [L|L];
        injection H as <-; (split; [cbn; auto|]); intros k' [<-|Hk]; try lia.
      * now apply Hmax.
      * specialize (Hmax k' Hk). lia.
    + injection H as <-. apply latest_None in E. subst rows.
      split; [now left|]. intros k' [<-|[]]. lia.
Qed.

End NewestKey.

Lemma getApiKey_newest_witness :
  let db := {| Database.messages := []; Database.messages_seq := 0;
               Database.api_keys :=
                 [{| Database.ak_id := 1; Database.key := "old"; Database.ak_created_at := 5 |};
                  {| Database.ak_id := 2; Database.key := "new"; Database.ak_created_at := 9 |}];
               Database.api_keys_seq := 2; Database.webhooks := [] |} in
  option_map Database.key (Database.getApiKey db) = Some "new"
  /\ forall k', In k' (Database.api_keys db) -> (Database.ak_created_at k' <= 9)%Z.
Proof.
  intros db. split; [reflexivity|].
  destruct (getApiKey_newest db) as [_ H].
  destruct (H _ eq_refl) as [_ M]. exact M.
Defined.
